(** * goog.net.XhrIo: the single-request controller of closure/goog/net/xhrio.js

    A shallow embedding of the controller's fields and methods, with the
    collaborators it talks to made explicit:

    - the transport handle ([Xhr]) is a record of the properties the
      controller reads and writes; reading a property that the platform
      refuses to hand out is modelled by [None] ("the access throws");
    - what the handle does while the controller is inside [open], [send]
      or [abort] (notifications fired synchronously, an exception thrown)
      is an explicit argument of the method that makes the call;
    - [dispatchEvent] appends to the [events] log; listeners are observers
      and do not call back into the controller;
    - [goog.Timer.callOnce]/[clear] keep a list of pending registrations.

    The calls that xhrio.js makes outside any try block
    ([setRequestHeader], [abort], writes to the handle's properties) are
    taken not to throw, [goog] is taken to be defined (the page is not
    unloading), and logging is left out.

    Library functions that xhrio.js calls but that live in other files
    ([goog.net.HttpStatus.isSuccess], [goog.uri.utils.getEffectiveScheme],
    [goog.json.parse], [goog.userAgent]) and the built-in
    [String.prototype.toUpperCase] are the fields of a [Platform], which
    the whole development is parametric in.

    The class-list helpers of closure/goog/dom/classes.js are embedded
    in the module [Classes]; their properties close the file. *)

From Stdlib Require Import ZArith QArith List String Ascii Bool Lia.
Import ListNotations.

Open Scope Z_scope.
Open Scope string_scope.
Open Scope list_scope.

(* ------------------------------------------------------------------ *)
(** ** Strings *)

Definition ascii_toUpper (c : ascii) : ascii :=
  let n := nat_of_ascii c in
  if (Nat.leb 97 n && Nat.leb n 122)%bool then ascii_of_nat (n - 32) else c.

Definition ascii_toLower (c : ascii) : ascii :=
  let n := nat_of_ascii c in
  if (Nat.leb 65 n && Nat.leb n 90)%bool then ascii_of_nat (n + 32) else c.

(** What [String.prototype.toUpperCase] does on ASCII text; the concrete
    platforms below use it on such text only. *)
Fixpoint toUpperCase_ascii (s : string) : string :=
  match s with
  | EmptyString => EmptyString
  | String c r => String (ascii_toUpper c) (toUpperCase_ascii r)
  end.

(** [String.prototype.toLowerCase] on ASCII text. *)
Fixpoint toLowerCase (s : string) : string :=
  match s with
  | EmptyString => EmptyString
  | String c r => String (ascii_toLower c) (toLowerCase r)
  end.

(** [goog.string.caseInsensitiveEquals]: both sides lower-cased, then [==]. *)
Definition caseInsensitiveEquals (a b : string) : bool :=
  String.eqb (toLowerCase a) (toLowerCase b).

(** A JavaScript string is truthy unless it is empty. *)
Definition string_truthy (s : string) : bool :=
  match s with EmptyString => false | _ => true end.

(** One pattern character under the [i] flag: both sides canonicalised
    to upper case. *)
Definition ci_char (p c : ascii) : bool :=
  Ascii.eqb (ascii_toUpper p) (ascii_toUpper c).

(** [goog.net.XhrIo.HTTP_SCHEME_PATTERN.test], the pattern being
    [/^https?$/i]: h, t, t, p, an optional s, then end of input. *)
Definition HTTP_SCHEME_PATTERN_test (scheme : string) : bool :=
  match scheme with
  | String c1 (String c2 (String c3 (String c4 rest))) =>
      ci_char "h" c1 && ci_char "t" c2 && ci_char "t" c3 && ci_char "p" c4 &&
      match rest with
      | EmptyString => true
      | String c5 EmptyString => ci_char "s" c5
      | _ => false
      end
  | _ => false
  end.

(* ------------------------------------------------------------------ *)
(** ** JavaScript numbers, as far as the timeout interval needs them *)

(** The finite values are rationals, which the finite doubles are
    among. *)
Inductive number : Type :=
| NaN
| NegInfinity
| Num (q : Q)
| PosInfinity.

(** [a > b]; every comparison with [NaN] is false. *)
Definition number_gt (a b : number) : bool :=
  match a, b with
  | NaN, _ | _, NaN => false
  | NegInfinity, _ => false
  | _, PosInfinity => false
  | PosInfinity, _ => true
  | Num _, NegInfinity => true
  | Num x, Num y => negb (Qle_bool x y)
  end.

Definition number_lt (a b : number) : bool := number_gt b a.

(** [Math.max(a, b)]: [NaN] if either argument is [NaN]. *)
Definition Math_max (a b : number) : number :=
  match a, b with
  | NaN, _ | _, NaN => NaN
  | PosInfinity, _ | _, PosInfinity => PosInfinity
  | NegInfinity, y => y
  | x, NegInfinity => x
  | Num x, Num y => if Qle_bool x y then Num y else Num x
  end.

(* ------------------------------------------------------------------ *)
(** ** Enumerations declared outside xhrio.js *)

(** Modelled from the spec: goog.net.EventType, the events the
    controller dispatches (the enum itself is declared outside src/). *)
Module EventType.
Inductive t : Type :=
| COMPLETE | SUCCESS | ERROR | ABORT | READY | READY_STATE_CHANGE | TIMEOUT.

Definition eqb (a b : t) : bool :=
  match a, b with
  | COMPLETE, COMPLETE | SUCCESS, SUCCESS | ERROR, ERROR | ABORT, ABORT
  | READY, READY | READY_STATE_CHANGE, READY_STATE_CHANGE
  | TIMEOUT, TIMEOUT => true
  | _, _ => false
  end.
End EventType.

(** Modelled from the spec: goog.net.ErrorCode, the failure taxonomy
    (declared outside src/). *)
Module ErrorCode.
Inductive t : Type :=
| NO_ERROR | EXCEPTION | HTTP_ERROR | ABORT | TIMEOUT.

(** [NO_ERROR] is 0, which JavaScript takes as false in [a || b]; the
    other codes are positive numbers. *)
Definition truthy (c : t) : bool :=
  match c with
  | NO_ERROR => false
  | _ => true
  end.
End ErrorCode.

(** Modelled from the spec: goog.net.XmlHttp.ReadyState, the readiness
    levels uninitialized, opened, sent, receiving, complete (declared
    outside src/). *)
Module ReadyState.
Definition UNINITIALIZED : Z := 0.
Definition LOADING : Z := 1.
Definition LOADED : Z := 2.
Definition INTERACTIVE : Z := 3.
Definition COMPLETE : Z := 4.
End ReadyState.

(** goog.net.XhrIo.ResponseType.  The table spells its first key
    [DFAULT], so the [DEFAULT] member that the constructor and
    [getResponse] read is [undefined]. *)
Module ResponseType.
Inductive t : Type :=
| DEFAULT        (* undefined: the key is absent from the table *)
| DFAULT         (* the empty string *)
| TEXT
| DOCUMENT
| BLOB
| ARRAY_BUFFER.

Definition truthy (r : t) : bool :=
  match r with DEFAULT | DFAULT => false | _ => true end.
End ResponseType.

(* ------------------------------------------------------------------ *)
(** ** Values and exceptions *)

Inductive JsValue : Type :=
| JsUndefined
| JsNull
| JsString (s : string)
| JsNumber (z : Z)
| JsObject (tag : string).

(** What the controller stores in [lastError_]. *)
Inductive LastError : Type :=
| NoMessage                                   (* '' *)
| Caught (err : string)                       (* the Error caught around open/send *)
| TimedOutAfter (ms : number)                 (* 'Timed out after ' + ms + 'ms, aborting' *)
| StatusLine (statusText : string) (status : Z). (* statusText + ' [' + status + ']' *)

Inductive Exception : Type :=
| ActiveWithAnotherRequest (lastUri newUri : string)
    (* Error('[goog.net.XhrIo] Object is active with another request=' ...) *)
| TypeError            (* a property of null was read *)
| Thrown (msg : string). (* raised by the transport handle or by a library *)

(** How a method call ends. *)
Inductive Completion (A : Type) : Type :=
| Returned (a : A)
| Threw (e : Exception).
Arguments Returned {A} a.
Arguments Threw {A} e.

(** The request body handed to [send]. *)
Inductive Content : Type :=
| Text (s : string)
| FormDataBody
| OtherBody (tag : string).

(* ------------------------------------------------------------------ *)
(** ** The transport handle *)

(** The value of the handle's [ontimeout] property. *)
Inductive OnTimeout : Type :=
| OnTimeout_undefined        (* the platform has no such property *)
| OnTimeout_null
| OnTimeout_bound.           (* goog.bind(this.timeout_, this) *)

(** The value of the handle's [onreadystatechange] property. *)
Inductive Handler : Type :=
| Handler_unset
| Handler_bound              (* goog.bind(this.onReadyStateChange_, this) *)
| Handler_null
| Handler_nullFunction.

Record Xhr : Type := mkXhr {
  readyState : Z;
  status : option Z;                       (* None: reading it throws *)
  statusText : option string;
  responseText : option string;
  responseXML : option JsValue;
  response : option (option JsValue);      (* None: no such property *)
  mozResponseArrayBuffer : option (option JsValue);
  responseHeader : string -> option JsValue;   (* getResponseHeader(key) *)
  allResponseHeaders : option string;      (* getAllResponseHeaders() *)
  timeout : option number;                 (* Some n: typeof is 'number' *)
  ontimeout : OnTimeout;
  hasWithCredentials : bool;               (* 'withCredentials' in xhr *)
  withCredentials : bool;
  responseType : ResponseType.t;
  onreadystatechange : Handler
}.

Definition xhr_with_readiness (rs : Z) (st : option Z) (txt : option string)
    (x : Xhr) : Xhr :=
  mkXhr rs st txt (responseText x) (responseXML x) (response x)
        (mozResponseArrayBuffer x) (responseHeader x) (allResponseHeaders x)
        (timeout x) (ontimeout x) (hasWithCredentials x) (withCredentials x)
        (responseType x) (onreadystatechange x).

Definition xhr_with_timeout (t : option number) (x : Xhr) : Xhr :=
  mkXhr (readyState x) (status x) (statusText x) (responseText x)
        (responseXML x) (response x) (mozResponseArrayBuffer x)
        (responseHeader x) (allResponseHeaders x)
        t (ontimeout x) (hasWithCredentials x) (withCredentials x)
        (responseType x) (onreadystatechange x).

Definition xhr_with_ontimeout (o : OnTimeout) (x : Xhr) : Xhr :=
  mkXhr (readyState x) (status x) (statusText x) (responseText x)
        (responseXML x) (response x) (mozResponseArrayBuffer x)
        (responseHeader x) (allResponseHeaders x)
        (timeout x) o (hasWithCredentials x) (withCredentials x)
        (responseType x) (onreadystatechange x).

Definition xhr_with_withCredentials (b : bool) (x : Xhr) : Xhr :=
  mkXhr (readyState x) (status x) (statusText x) (responseText x)
        (responseXML x) (response x) (mozResponseArrayBuffer x)
        (responseHeader x) (allResponseHeaders x)
        (timeout x) (ontimeout x) (hasWithCredentials x) b
        (responseType x) (onreadystatechange x).

Definition xhr_with_responseType (r : ResponseType.t) (x : Xhr) : Xhr :=
  mkXhr (readyState x) (status x) (statusText x) (responseText x)
        (responseXML x) (response x) (mozResponseArrayBuffer x)
        (responseHeader x) (allResponseHeaders x)
        (timeout x) (ontimeout x) (hasWithCredentials x) (withCredentials x)
        r (onreadystatechange x).

Definition xhr_with_onreadystatechange (h : Handler) (x : Xhr) : Xhr :=
  mkXhr (readyState x) (status x) (statusText x) (responseText x)
        (responseXML x) (response x) (mozResponseArrayBuffer x)
        (responseHeader x) (allResponseHeaders x)
        (timeout x) (ontimeout x) (hasWithCredentials x) (withCredentials x)
        (responseType x) h.

(** The options object of goog.net.XmlHttp, as far as xhrio.js reads it. *)
Record XmlHttpOptions : Type := mkOptions {
  LOCAL_REQUEST_ERROR : bool;
  USE_NULL_FUNCTION : bool
}.

(** A readiness change reported by the handle: it updates its own
    [readyState], [status] and [statusText], then calls
    [onreadystatechange]. *)
Record Notification : Type := mkNotification {
  nReadyState : Z;
  nStatus : option Z;
  nStatusText : option string
}.

(** What the handle does during one call of [open] or [send]: the
    notifications it fires before the call ends, and the exception the
    call ends with, if any. *)
Record Reaction : Type := mkReaction {
  fired : list Notification;
  raised : option string
}.

(** Calls made into the handle, in order. *)
Inductive XhrCall : Type :=
| Call_open (method url : string)
| Call_setRequestHeader (key value : string)
| Call_send (content : Content)
| Call_abort.

(* ------------------------------------------------------------------ *)
(** ** goog.Timer *)

Inductive Callback : Type :=
| Callback_timeout_               (* this.timeout_ *)
| Callback_onReadyStateChange_.   (* this.onReadyStateChange_ *)

Record Timer : Type := mkTimer {
  timerId : Z;
  timerCallback : Callback;
  timerDelay : number
}.
(* ------------------------------------------------------------------ *)
(** ** The controller *)

(** The fields the constructor initialises, followed by the state of the
    collaborators that the controller acts on: the event log, the log of
    calls into transport handles, and the pending timers. *)
Record XhrIo : Type := mkXhrIo {
  headers : list (string * string);   (* default headers, a goog.structs.Map in insertion order *)
  active_ : bool;
  xhr_ : option Xhr;   (* null when no request is in flight *)
  xhrOptions_ : option XmlHttpOptions;
  lastUri_ : string;
  lastMethod_ : string;
  lastErrorCode_ : ErrorCode.t;
  lastError_ : LastError;
  errorDispatched_ : bool;
  inSend_ : bool;
  inOpen_ : bool;
  inAbort_ : bool;
  timeoutInterval_ : number;
  timeoutId_ : option Z;   (* null, or the id goog.Timer.callOnce returned *)
  responseType_ : ResponseType.t;
  withCredentials_ : bool;
  useXhr2Timeout_ : bool;
  disposed_ : bool;   (* goog.Disposable's flag behind isDisposed() *)
  events : list EventType.t;   (* every dispatchEvent so far, oldest first *)
  calls : list XhrCall;   (* every call into a transport handle so far *)
  timers : list Timer;   (* pending goog.Timer.callOnce registrations *)
  nextTimerId : Z   (* the id the next registration gets *)
}.

Definition set_headers (v : list (string * string)) (s : XhrIo) : XhrIo :=
  mkXhrIo v (active_ s) (xhr_ s) (xhrOptions_ s) (lastUri_ s)
    (lastMethod_ s) (lastErrorCode_ s) (lastError_ s) (errorDispatched_ s)
    (inSend_ s) (inOpen_ s) (inAbort_ s) (timeoutInterval_ s) (timeoutId_ s)
    (responseType_ s) (withCredentials_ s) (useXhr2Timeout_ s) (disposed_ s)
    (events s) (calls s) (timers s) (nextTimerId s).

Definition set_active_ (v : bool) (s : XhrIo) : XhrIo :=
  mkXhrIo (headers s) v (xhr_ s) (xhrOptions_ s) (lastUri_ s)
    (lastMethod_ s) (lastErrorCode_ s) (lastError_ s) (errorDispatched_ s)
    (inSend_ s) (inOpen_ s) (inAbort_ s) (timeoutInterval_ s) (timeoutId_ s)
    (responseType_ s) (withCredentials_ s) (useXhr2Timeout_ s) (disposed_ s)
    (events s) (calls s) (timers s) (nextTimerId s).

Definition set_xhr_ (v : option Xhr) (s : XhrIo) : XhrIo :=
  mkXhrIo (headers s) (active_ s) v (xhrOptions_ s) (lastUri_ s)
    (lastMethod_ s) (lastErrorCode_ s) (lastError_ s) (errorDispatched_ s)
    (inSend_ s) (inOpen_ s) (inAbort_ s) (timeoutInterval_ s) (timeoutId_ s)
    (responseType_ s) (withCredentials_ s) (useXhr2Timeout_ s) (disposed_ s)
    (events s) (calls s) (timers s) (nextTimerId s).

Definition set_xhrOptions_ (v : option XmlHttpOptions) (s : XhrIo) : XhrIo :=
  mkXhrIo (headers s) (active_ s) (xhr_ s) v (lastUri_ s) (lastMethod_ s)
    (lastErrorCode_ s) (lastError_ s) (errorDispatched_ s) (inSend_ s)
    (inOpen_ s) (inAbort_ s) (timeoutInterval_ s) (timeoutId_ s)
    (responseType_ s) (withCredentials_ s) (useXhr2Timeout_ s) (disposed_ s)
    (events s) (calls s) (timers s) (nextTimerId s).

Definition set_lastUri_ (v : string) (s : XhrIo) : XhrIo :=
  mkXhrIo (headers s) (active_ s) (xhr_ s) (xhrOptions_ s) v (lastMethod_ s)
    (lastErrorCode_ s) (lastError_ s) (errorDispatched_ s) (inSend_ s)
    (inOpen_ s) (inAbort_ s) (timeoutInterval_ s) (timeoutId_ s)
    (responseType_ s) (withCredentials_ s) (useXhr2Timeout_ s) (disposed_ s)
    (events s) (calls s) (timers s) (nextTimerId s).

Definition set_lastMethod_ (v : string) (s : XhrIo) : XhrIo :=
  mkXhrIo (headers s) (active_ s) (xhr_ s) (xhrOptions_ s) (lastUri_ s) v
    (lastErrorCode_ s) (lastError_ s) (errorDispatched_ s) (inSend_ s)
    (inOpen_ s) (inAbort_ s) (timeoutInterval_ s) (timeoutId_ s)
    (responseType_ s) (withCredentials_ s) (useXhr2Timeout_ s) (disposed_ s)
    (events s) (calls s) (timers s) (nextTimerId s).

Definition set_lastErrorCode_ (v : ErrorCode.t) (s : XhrIo) : XhrIo :=
  mkXhrIo (headers s) (active_ s) (xhr_ s) (xhrOptions_ s) (lastUri_ s)
    (lastMethod_ s) v (lastError_ s) (errorDispatched_ s) (inSend_ s)
    (inOpen_ s) (inAbort_ s) (timeoutInterval_ s) (timeoutId_ s)
    (responseType_ s) (withCredentials_ s) (useXhr2Timeout_ s) (disposed_ s)
    (events s) (calls s) (timers s) (nextTimerId s).

Definition set_lastError_ (v : LastError) (s : XhrIo) : XhrIo :=
  mkXhrIo (headers s) (active_ s) (xhr_ s) (xhrOptions_ s) (lastUri_ s)
    (lastMethod_ s) (lastErrorCode_ s) v (errorDispatched_ s) (inSend_ s)
    (inOpen_ s) (inAbort_ s) (timeoutInterval_ s) (timeoutId_ s)
    (responseType_ s) (withCredentials_ s) (useXhr2Timeout_ s) (disposed_ s)
    (events s) (calls s) (timers s) (nextTimerId s).

Definition set_errorDispatched_ (v : bool) (s : XhrIo) : XhrIo :=
  mkXhrIo (headers s) (active_ s) (xhr_ s) (xhrOptions_ s) (lastUri_ s)
    (lastMethod_ s) (lastErrorCode_ s) (lastError_ s) v (inSend_ s)
    (inOpen_ s) (inAbort_ s) (timeoutInterval_ s) (timeoutId_ s)
    (responseType_ s) (withCredentials_ s) (useXhr2Timeout_ s) (disposed_ s)
    (events s) (calls s) (timers s) (nextTimerId s).

Definition set_inSend_ (v : bool) (s : XhrIo) : XhrIo :=
  mkXhrIo (headers s) (active_ s) (xhr_ s) (xhrOptions_ s) (lastUri_ s)
    (lastMethod_ s) (lastErrorCode_ s) (lastError_ s) (errorDispatched_ s) v
    (inOpen_ s) (inAbort_ s) (timeoutInterval_ s) (timeoutId_ s)
    (responseType_ s) (withCredentials_ s) (useXhr2Timeout_ s) (disposed_ s)
    (events s) (calls s) (timers s) (nextTimerId s).

Definition set_inOpen_ (v : bool) (s : XhrIo) : XhrIo :=
  mkXhrIo (headers s) (active_ s) (xhr_ s) (xhrOptions_ s) (lastUri_ s)
    (lastMethod_ s) (lastErrorCode_ s) (lastError_ s) (errorDispatched_ s)
    (inSend_ s) v (inAbort_ s) (timeoutInterval_ s) (timeoutId_ s)
    (responseType_ s) (withCredentials_ s) (useXhr2Timeout_ s) (disposed_ s)
    (events s) (calls s) (timers s) (nextTimerId s).

Definition set_inAbort_ (v : bool) (s : XhrIo) : XhrIo :=
  mkXhrIo (headers s) (active_ s) (xhr_ s) (xhrOptions_ s) (lastUri_ s)
    (lastMethod_ s) (lastErrorCode_ s) (lastError_ s) (errorDispatched_ s)
    (inSend_ s) (inOpen_ s) v (timeoutInterval_ s) (timeoutId_ s)
    (responseType_ s) (withCredentials_ s) (useXhr2Timeout_ s) (disposed_ s)
    (events s) (calls s) (timers s) (nextTimerId s).

Definition set_timeoutInterval_ (v : number) (s : XhrIo) : XhrIo :=
  mkXhrIo (headers s) (active_ s) (xhr_ s) (xhrOptions_ s) (lastUri_ s)
    (lastMethod_ s) (lastErrorCode_ s) (lastError_ s) (errorDispatched_ s)
    (inSend_ s) (inOpen_ s) (inAbort_ s) v (timeoutId_ s) (responseType_ s)
    (withCredentials_ s) (useXhr2Timeout_ s) (disposed_ s) (events s)
    (calls s) (timers s) (nextTimerId s).

Definition set_timeoutId_ (v : option Z) (s : XhrIo) : XhrIo :=
  mkXhrIo (headers s) (active_ s) (xhr_ s) (xhrOptions_ s) (lastUri_ s)
    (lastMethod_ s) (lastErrorCode_ s) (lastError_ s) (errorDispatched_ s)
    (inSend_ s) (inOpen_ s) (inAbort_ s) (timeoutInterval_ s) v
    (responseType_ s) (withCredentials_ s) (useXhr2Timeout_ s) (disposed_ s)
    (events s) (calls s) (timers s) (nextTimerId s).

Definition set_responseType_ (v : ResponseType.t) (s : XhrIo) : XhrIo :=
  mkXhrIo (headers s) (active_ s) (xhr_ s) (xhrOptions_ s) (lastUri_ s)
    (lastMethod_ s) (lastErrorCode_ s) (lastError_ s) (errorDispatched_ s)
    (inSend_ s) (inOpen_ s) (inAbort_ s) (timeoutInterval_ s) (timeoutId_ s)
    v (withCredentials_ s) (useXhr2Timeout_ s) (disposed_ s) (events s)
    (calls s) (timers s) (nextTimerId s).

Definition set_withCredentials_ (v : bool) (s : XhrIo) : XhrIo :=
  mkXhrIo (headers s) (active_ s) (xhr_ s) (xhrOptions_ s) (lastUri_ s)
    (lastMethod_ s) (lastErrorCode_ s) (lastError_ s) (errorDispatched_ s)
    (inSend_ s) (inOpen_ s) (inAbort_ s) (timeoutInterval_ s) (timeoutId_ s)
    (responseType_ s) v (useXhr2Timeout_ s) (disposed_ s) (events s)
    (calls s) (timers s) (nextTimerId s).

Definition set_useXhr2Timeout_ (v : bool) (s : XhrIo) : XhrIo :=
  mkXhrIo (headers s) (active_ s) (xhr_ s) (xhrOptions_ s) (lastUri_ s)
    (lastMethod_ s) (lastErrorCode_ s) (lastError_ s) (errorDispatched_ s)
    (inSend_ s) (inOpen_ s) (inAbort_ s) (timeoutInterval_ s) (timeoutId_ s)
    (responseType_ s) (withCredentials_ s) v (disposed_ s) (events s)
    (calls s) (timers s) (nextTimerId s).

Definition set_disposed_ (v : bool) (s : XhrIo) : XhrIo :=
  mkXhrIo (headers s) (active_ s) (xhr_ s) (xhrOptions_ s) (lastUri_ s)
    (lastMethod_ s) (lastErrorCode_ s) (lastError_ s) (errorDispatched_ s)
    (inSend_ s) (inOpen_ s) (inAbort_ s) (timeoutInterval_ s) (timeoutId_ s)
    (responseType_ s) (withCredentials_ s) (useXhr2Timeout_ s) v (events s)
    (calls s) (timers s) (nextTimerId s).

Definition set_events (v : list EventType.t) (s : XhrIo) : XhrIo :=
  mkXhrIo (headers s) (active_ s) (xhr_ s) (xhrOptions_ s) (lastUri_ s)
    (lastMethod_ s) (lastErrorCode_ s) (lastError_ s) (errorDispatched_ s)
    (inSend_ s) (inOpen_ s) (inAbort_ s) (timeoutInterval_ s) (timeoutId_ s)
    (responseType_ s) (withCredentials_ s) (useXhr2Timeout_ s) (disposed_ s)
    v (calls s) (timers s) (nextTimerId s).

Definition set_calls (v : list XhrCall) (s : XhrIo) : XhrIo :=
  mkXhrIo (headers s) (active_ s) (xhr_ s) (xhrOptions_ s) (lastUri_ s)
    (lastMethod_ s) (lastErrorCode_ s) (lastError_ s) (errorDispatched_ s)
    (inSend_ s) (inOpen_ s) (inAbort_ s) (timeoutInterval_ s) (timeoutId_ s)
    (responseType_ s) (withCredentials_ s) (useXhr2Timeout_ s) (disposed_ s)
    (events s) v (timers s) (nextTimerId s).

Definition set_timers (v : list Timer) (s : XhrIo) : XhrIo :=
  mkXhrIo (headers s) (active_ s) (xhr_ s) (xhrOptions_ s) (lastUri_ s)
    (lastMethod_ s) (lastErrorCode_ s) (lastError_ s) (errorDispatched_ s)
    (inSend_ s) (inOpen_ s) (inAbort_ s) (timeoutInterval_ s) (timeoutId_ s)
    (responseType_ s) (withCredentials_ s) (useXhr2Timeout_ s) (disposed_ s)
    (events s) (calls s) v (nextTimerId s).

Definition set_nextTimerId (v : Z) (s : XhrIo) : XhrIo :=
  mkXhrIo (headers s) (active_ s) (xhr_ s) (xhrOptions_ s) (lastUri_ s)
    (lastMethod_ s) (lastErrorCode_ s) (lastError_ s) (errorDispatched_ s)
    (inSend_ s) (inOpen_ s) (inAbort_ s) (timeoutInterval_ s) (timeoutId_ s)
    (responseType_ s) (withCredentials_ s) (useXhr2Timeout_ s) (disposed_ s)
    (events s) (calls s) (timers s) v.

(** The state the constructor leaves: [new goog.net.XhrIo()]. *)
Definition new_XhrIo : XhrIo :=
  mkXhrIo [] false None None "" "" ErrorCode.NO_ERROR NoMessage
    false false false false (Num 0) None ResponseType.DEFAULT false false
    false [] [] [] 1.

(* ------------------------------------------------------------------ *)
(** ** Constants of goog.net.XhrIo *)

Definition CONTENT_TYPE_HEADER : string := "Content-Type".

Definition METHODS_WITH_FORM_DATA : list string := ["POST"; "PUT"].

Definition FORM_CONTENT_TYPE : string :=
  "application/x-www-form-urlencoded;charset=utf-8".

(* ------------------------------------------------------------------ *)
(** ** goog.structs.Map, goog.array and try/catch *)

(** [Map.prototype.set]: an existing key keeps its place and takes the
    new value, a new key goes last. *)
Fixpoint Map_set (key value : string) (m : list (string * string))
    : list (string * string) :=
  match m with
  | [] => [(key, value)]
  | (k, v) :: rest =>
      if String.eqb k key then (key, value) :: rest
      else (k, v) :: Map_set key value rest
  end.

Definition Map_clone (m : list (string * string)) : list (string * string) := m.

Definition Map_getKeys (m : list (string * string)) : list string :=
  map fst m.

(** [goog.structs.forEach(opt_headers, function(value, key)
    { headers.set(key, value); })]. *)
Definition Map_setAll (extra m : list (string * string))
    : list (string * string) :=
  fold_left (fun acc kv => Map_set (fst kv) (snd kv) acc) extra m.

(** [goog.array.contains] on strings. *)
Definition array_contains (l : list string) (x : string) : bool :=
  existsb (String.eqb x) l.

(** Reading a property of the handle: [None] is an access that throws. *)
Definition read {A : Type} (what : string) (p : option A) : Completion A :=
  match p with
  | Some a => Returned a
  | None => Threw (Thrown what)
  end.

Definition try_catch {A : Type} (body : Completion A)
    (handler : Exception -> Completion A) : Completion A :=
  match body with
  | Returned a => Returned a
  | Threw e => handler e
  end.

(** What the environment supplies to one [send]: the handle and options
    the factory creates, and how the handle behaves inside [open],
    [send] and (on the error path) [abort]. *)
Record Transport : Type := mkTransport {
  createInstance : Xhr;
  getOptions : XmlHttpOptions;
  onOpen : Reaction;
  onSend : Reaction;
  onAbort : list Notification
}.

(** What can happen to a controller between two calls of [send]. *)
Inductive Stimulus : Type :=
| Notify (n : Notification)
    (* the handle reports a readiness change from the event loop *)
| TimerFires (id : Z) (onAbort : list Notification)
    (* goog.Timer runs the pending registration [id] *)
| NativeTimeoutFires (onAbort : list Notification)
    (* the handle calls its ontimeout property *)
| CallAbort (opt_failureCode : option ErrorCode.t) (onAbort : list Notification).
    (* the owner calls abort(opt_failureCode) *)

(** The library functions and platform facts that xhrio.js relies on and
    that are declared outside src/. *)
Record Platform : Type := mkPlatform {
  platform_HttpStatus_isSuccess : Z -> bool;
      (* goog.net.HttpStatus.isSuccess *)
  platform_getEffectiveScheme : string -> string;
      (* goog.uri.utils.getEffectiveScheme *)
  platform_json_parse : string -> Completion JsValue;
      (* goog.json.parse; it throws on malformed text *)
  platform_userAgent_IE : bool;
      (* goog.userAgent.IE *)
  platform_userAgent_isVersionOrHigher_9 : bool;
      (* goog.userAgent.isVersionOrHigher(9) *)
  platform_global_FormData : bool;
      (* whether goog.global['FormData'] exists *)
  platform_toUpperCase : string -> string
      (* String.prototype.toUpperCase *)
}.

(* ------------------------------------------------------------------ *)
(** ** goog.dom.classes: closure/goog/dom/classes.js *)

Module Classes.

(** An element, as far as classes.js looks at it: its [className]
    property, a string on an HTML element and something else ([None])
    where the platform gives it another type. *)
Record Element : Type := mkElement { className : option string }.

(** The characters that [\s] matches among the code units below 256:
    tab, line feed, vertical tab, form feed, carriage return, space and
    the no-break space. [\S] matches the others. *)
Definition isWhiteSpace (c : ascii) : bool :=
  let n := nat_of_ascii c in
  (Nat.eqb n 9 || Nat.eqb n 10 || Nat.eqb n 11 || Nat.eqb n 12
   || Nat.eqb n 13 || Nat.eqb n 32 || Nat.eqb n 160)%bool.

(** [str.match(/\S+/g) || []]: the maximal runs of characters that are
    not white space, from left to right; [cur] is the run being read. *)
Fixpoint matchNonSpace (cur : string) (str : string) : list string :=
  match str with
  | EmptyString =>
      match cur with
      | EmptyString => []
      | _ => [cur]
      end
  | String c rest =>
      if isWhiteSpace c then
        match cur with
        | EmptyString => matchNonSpace EmptyString rest
        | _ => cur :: matchNonSpace EmptyString rest
        end
      else matchNonSpace (cur ++ String c EmptyString)%string rest
  end.

(** [Array.prototype.join]. *)
Definition join (sep : string) (arr : list string) : string :=
  String.concat sep arr.

(** [goog.array.remove]: takes out the first occurrence only. *)
Fixpoint array_remove (arr : list string) (obj : string) : list string :=
  match arr with
  | [] => []
  | x :: rest =>
      if String.eqb x obj then rest else x :: array_remove rest obj
  end.

(** [goog.dom.classes.set]. *)
Definition set (element : Element) (name : string) : Element :=
  mkElement (Some name).

(** [goog.dom.classes.get]. *)
Definition get (element : Element) : list string :=
  match className element with
  | Some name => matchNonSpace EmptyString name
  | None => []
  end.

(** [goog.dom.classes.add_]: pushes, in order, each argument that the
    array does not hold yet. *)
Definition add_ (classes args : list string) : list string :=
  fold_left
    (fun classes arg =>
       if array_contains classes arg then classes else classes ++ [arg])
    args classes.

(** [goog.dom.classes.getDifference_]. *)
Definition getDifference_ (arr1 arr2 : list string) : list string :=
  filter (fun item => negb (array_contains arr2 item)) arr1.

(** [goog.dom.classes.add]: the element afterwards and the value
    returned. *)
Definition add (element : Element) (args : list string) : Element * bool :=
  let classes := get element in
  let expectedCount := (List.length classes + List.length args)%nat in
  let classes := add_ classes args in
  (set element (join " " classes),
   Nat.eqb (List.length classes) expectedCount).

(** [goog.dom.classes.remove]. The difference of the two lengths can be
    negative, hence the integers. *)
Definition remove (element : Element) (args : list string) : Element * bool :=
  let classes := get element in
  let newClasses := getDifference_ classes args in
  (set element (join " " newClasses),
   (Z.of_nat (List.length newClasses)
    =? Z.of_nat (List.length classes) - Z.of_nat (List.length args))%Z).

(** The loop of [goog.dom.classes.swap]: every entry equal to
    [fromClass] is spliced out; the flag tells whether one was. *)
Fixpoint swapLoop (classes : list string) (fromClass : string)
    : list string * bool :=
  match classes with
  | [] => ([], false)
  | c :: rest =>
      let (rest', removed) := swapLoop rest fromClass in
      if String.eqb c fromClass then (rest', true) else (c :: rest', removed)
  end.

(** [goog.dom.classes.swap]. *)
Definition swap (element : Element) (fromClass toClass : string)
    : Element * bool :=
  let (classes, removed) := swapLoop (get element) fromClass in
  if removed then (set element (join " " (classes ++ [toClass])), true)
  else (element, false).

(** An argument of [addRemove]: a string, an array of strings, or
    something else ([null]). *)
Inductive ClassNames : Type :=
| NoNames
| OneName (name : string)
| Names (names : list string).

(** [goog.dom.classes.addRemove]. *)
Definition addRemove (element : Element)
    (classesToRemove classesToAdd : ClassNames) : Element :=
  let classes := get element in
  let classes :=
    match classesToRemove with
    | OneName name => array_remove classes name
    | Names names => getDifference_ classes names
    | NoNames => classes
    end in
  let classes :=
    match classesToAdd with
    | OneName name =>
        if negb (array_contains classes name) then classes ++ [name]
        else classes
    | Names names => add_ classes names
    | NoNames => classes
    end in
  set element (join " " classes).

(** [goog.dom.classes.has]. *)
Definition has (element : Element) (name : string) : bool :=
  array_contains (get element) name.

(** [goog.dom.classes.enable]. *)
Definition enable (element : Element) (name : string) (enabled : bool)
    : Element :=
  if enabled then fst (add element [name]) else fst (remove element [name]).

(** [goog.dom.classes.toggle]: the element afterwards and the value
    returned. *)
Definition toggle (element : Element) (name : string) : Element * bool :=
  let add := negb (has element name) in
  (enable element name add, add).

(** A string without white space. *)
Fixpoint noWhiteSpace (s : string) : bool :=
  match s with
  | EmptyString => true
  | String c rest => negb (isWhiteSpace c) && noWhiteSpace rest
  end.

(** A class name that survives being written to [className] and read
    back: not empty and without white space. *)
Definition isClassName (name : string) : bool :=
  negb (String.eqb name EmptyString) && noWhiteSpace name.

End Classes.

(* ------------------------------------------------------------------ *)
(** ** goog.net.XhrIo: closure/goog/net/xhrio.js *)

Section Controller.

Variable platform : Platform.

Local Abbreviation HttpStatus_isSuccess :=
  (platform_HttpStatus_isSuccess platform).
Local Abbreviation getEffectiveScheme :=
  (platform_getEffectiveScheme platform).
Local Abbreviation json_parse := (platform_json_parse platform).
Local Abbreviation userAgent_IE := (platform_userAgent_IE platform).
Local Abbreviation userAgent_isVersionOrHigher_9 :=
  (platform_userAgent_isVersionOrHigher_9 platform).
Local Abbreviation global_FormData := (platform_global_FormData platform).
Local Abbreviation toUpperCase := (platform_toUpperCase platform).

(** [goog.events.EventTarget.prototype.dispatchEvent], seen from outside:
    the event is delivered to the listeners, which observe it. *)
Definition dispatchEvent (e : EventType.t) (s : XhrIo) : XhrIo :=
  set_events (events s ++ [e]) s.

(** Modelled from the spec: goog.Timer.callOnce (declared outside src/),
    the TimerFacility's "schedule a single delayed invocation"; it
    returns the id of the registration. *)
Definition Timer_callOnce (cb : Callback) (delay : number) (s : XhrIo)
    : Z * XhrIo :=
  (nextTimerId s,
   set_nextTimerId (nextTimerId s + 1)
     (set_timers (timers s ++ [mkTimer (nextTimerId s) cb delay]) s)).

(** Modelled from the spec: goog.Timer.clear (declared outside src/),
    the TimerFacility's "cancel". *)
Definition Timer_clear (id : Z) (s : XhrIo) : XhrIo :=
  set_timers (filter (fun t => negb (timerId t =? id)%Z) (timers s)) s.

Definition update_xhr (f : Xhr -> Xhr) (s : XhrIo) : XhrIo :=
  match xhr_ s with
  | Some x => set_xhr_ (Some (f x)) s
  | None => s
  end.

(** [this.xhrOptions_[key]].  The options object is assigned and cleared
    together with [xhr_] and is read only while the request is active,
    when it is there ([send_consistent], [run_consistent]). *)
Definition option_flag (key : XmlHttpOptions -> bool) (s : XhrIo) : bool :=
  match xhrOptions_ s with
  | Some o => key o
  | None => false
  end.

Definition getTimeoutInterval (s : XhrIo) : number := timeoutInterval_ s.

Definition setTimeoutInterval (ms : number) (s : XhrIo) : XhrIo :=
  set_timeoutInterval_ (Math_max (Num 0) ms) s.

Definition setResponseType (type : ResponseType.t) (s : XhrIo) : XhrIo :=
  set_responseType_ type s.

Definition getResponseType (s : XhrIo) : ResponseType.t := responseType_ s.

Definition setWithCredentials (b : bool) (s : XhrIo) : XhrIo :=
  set_withCredentials_ b s.

Definition getWithCredentials (s : XhrIo) : bool := withCredentials_ s.

Definition shouldUseXhr2Timeout_ (xhr : Xhr) : bool :=
  userAgent_IE && userAgent_isVersionOrHigher_9 &&
  (match timeout xhr with Some _ => true | None => false end) &&
  (match ontimeout xhr with OnTimeout_undefined => false | _ => true end).

Definition isContentTypeHeader_ (header : string) : bool :=
  caseInsensitiveEquals CONTENT_TYPE_HEADER header.

Definition isActive (s : XhrIo) : bool :=
  match xhr_ s with Some _ => true | None => false end.

Definition getReadyState (s : XhrIo) : Z :=
  match xhr_ s with
  | Some x => readyState x
  | None => ReadyState.UNINITIALIZED
  end.

Definition isComplete (s : XhrIo) : bool :=
  (getReadyState s =? ReadyState.COMPLETE)%Z.

(** [getStatus]: the whole body sits in try/catch, and the catch
    returns -1. *)
Definition getStatus (s : XhrIo) : Z :=
  if getReadyState s >? ReadyState.LOADED then
    match xhr_ s with
    | Some x => match status x with Some v => v | None => -1 end
    | None => -1
    end
  else -1.

(** [getStatusText]: as [getStatus], with the empty string. *)
Definition getStatusText (s : XhrIo) : string :=
  if getReadyState s >? ReadyState.LOADED then
    match xhr_ s with
    | Some x => match statusText x with Some v => v | None => "" end
    | None => ""
    end
  else "".

Definition getLastUri (s : XhrIo) : string := lastUri_ s.

Definition isLastUriEffectiveSchemeHttp_ (s : XhrIo) : bool :=
  HTTP_SCHEME_PATTERN_test (getEffectiveScheme (lastUri_ s)).

Definition isSuccess (s : XhrIo) : bool :=
  let status := getStatus s in
  HttpStatus_isSuccess status ||
  ((status =? 0)%Z && negb (isLastUriEffectiveSchemeHttp_ s)).

Definition cleanUpTimeoutTimer_ (s : XhrIo) : XhrIo :=
  let s :=
    match xhr_ s with
    | Some x =>
        if useXhr2Timeout_ s
        then set_xhr_ (Some (xhr_with_ontimeout OnTimeout_null x)) s
        else s
    | None => s
    end in
  match timeoutId_ s with
  | Some id => set_timeoutId_ None (Timer_clear id s)
  | None => s
  end.

(** [cleanUpXhr_].  The handle saved in the local [xhr] leaves the
    controller here; resetting its [onreadystatechange] afterwards (inside
    a try/catch) acts on that detached handle only. *)
Definition cleanUpXhr_ (opt_fromDispose : bool) (s : XhrIo) : XhrIo :=
  match xhr_ s with
  | Some _ =>
      let s := cleanUpTimeoutTimer_ s in
      let s := set_xhr_ None s in
      let s := set_xhrOptions_ None s in
      if opt_fromDispose then s else dispatchEvent EventType.READY s
  | None => s
  end.

Definition dispatchErrors_ (s : XhrIo) : XhrIo :=
  if errorDispatched_ s then s
  else
    let s := set_errorDispatched_ true s in
    let s := dispatchEvent EventType.COMPLETE s in
    dispatchEvent EventType.ERROR s.

Definition onReadyStateChangeHelper_ (s : XhrIo) : XhrIo :=
  if negb (active_ s) then s
  else if option_flag LOCAL_REQUEST_ERROR s &&
          (getReadyState s =? ReadyState.COMPLETE)%Z &&
          (getStatus s =? 2)%Z then s
  else if inSend_ s && (getReadyState s =? ReadyState.COMPLETE)%Z then
    snd (Timer_callOnce Callback_onReadyStateChange_ (Num 0) s)
  else
    let s := dispatchEvent EventType.READY_STATE_CHANGE s in
    if isComplete s then
      let s := set_active_ false s in
      let s :=
        if isSuccess s then
          let s := dispatchEvent EventType.COMPLETE s in
          dispatchEvent EventType.SUCCESS s
        else
          let s := set_lastErrorCode_ ErrorCode.HTTP_ERROR s in
          let s := set_lastError_
                     (StatusLine (getStatusText s) (getStatus s)) s in
          dispatchErrors_ s in
      cleanUpXhr_ false s
    else s.

Definition onReadyStateChangeEntryPoint_ (s : XhrIo) : XhrIo :=
  onReadyStateChangeHelper_ s.

Definition onReadyStateChange_ (s : XhrIo) : XhrIo :=
  if disposed_ s then s
  else if negb (inOpen_ s) && negb (inSend_ s) && negb (inAbort_ s) then
    onReadyStateChangeEntryPoint_ s
  else onReadyStateChangeHelper_ s.

(** The handle reports a readiness change: it updates its own fields and
    calls the handler the controller bound to it. *)
Definition notify (n : Notification) (s : XhrIo) : XhrIo :=
  onReadyStateChange_
    (update_xhr
       (xhr_with_readiness (nReadyState n) (nStatus n) (nStatusText n)) s).

Definition react (ns : list Notification) (s : XhrIo) : XhrIo :=
  fold_left (fun acc n => notify n acc) ns s.

Definition logCall (c : XhrCall) (s : XhrIo) : XhrIo :=
  set_calls (calls s ++ [c]) s.

(** [this.xhr_.abort()], together with what the handle fires meanwhile. *)
Definition xhr_abort (onAbort : list Notification) (s : XhrIo) : XhrIo :=
  react onAbort (logCall Call_abort s).

Definition error_ (onAbort : list Notification) (errorCode : ErrorCode.t)
    (err : string) (s : XhrIo) : XhrIo :=
  let s := set_active_ false s in
  let s :=
    match xhr_ s with
    | Some _ =>
        let s := set_inAbort_ true s in
        let s := xhr_abort onAbort s in
        set_inAbort_ false s
    | None => s
    end in
  let s := set_lastError_ (Caught err) s in
  let s := set_lastErrorCode_ errorCode s in
  let s := dispatchErrors_ s in
  cleanUpXhr_ false s.

(** [abort(opt_failureCode)]; [None] stands for an argument that is
    omitted.  [opt_failureCode || ABORT] is [ABORT] for it and for a
    code that JavaScript takes as false. *)
Definition abort (opt_failureCode : option ErrorCode.t)
    (onAbort : list Notification) (s : XhrIo) : XhrIo :=
  match xhr_ s with
  | Some _ =>
      if active_ s then
        let s := set_active_ false s in
        let s := set_inAbort_ true s in
        let s := xhr_abort onAbort s in
        let s := set_inAbort_ false s in
        let s := set_lastErrorCode_
                   (match opt_failureCode with
                    | Some c =>
                        if ErrorCode.truthy c then c else ErrorCode.ABORT
                    | None => ErrorCode.ABORT
                    end) s in
        let s := dispatchEvent EventType.COMPLETE s in
        let s := dispatchEvent EventType.ABORT s in
        cleanUpXhr_ false s
      else s
  | None => s
  end.

Definition timeout_ (onAbort : list Notification) (s : XhrIo) : XhrIo :=
  match xhr_ s with
  | Some _ =>
      let s := set_lastError_ (TimedOutAfter (timeoutInterval_ s)) s in
      let s := set_lastErrorCode_ ErrorCode.TIMEOUT s in
      let s := dispatchEvent EventType.TIMEOUT s in
      abort (Some ErrorCode.TIMEOUT) onAbort s
  | None => s
  end.

(** [disposeInternal]; the closing [goog.base(this, 'disposeInternal')]
    removes the listeners and touches none of the fields below. *)
Definition disposeInternal (onAbort : list Notification) (s : XhrIo) : XhrIo :=
  match xhr_ s with
  | Some _ =>
      let s :=
        if active_ s then
          let s := set_active_ false s in
          let s := set_inAbort_ true s in
          let s := xhr_abort onAbort s in
          set_inAbort_ false s
        else s in
      cleanUpXhr_ true s
  | None => s
  end.

(** Modelled from the spec: goog.Disposable.dispose (declared outside
    src/), the explicit dispose that marks the controller disposed and
    runs [disposeInternal] once. *)
Definition dispose (onAbort : list Notification) (s : XhrIo) : XhrIo :=
  if disposed_ s then s
  else disposeInternal onAbort (set_disposed_ true s).

(** The effective header set of one request: the default headers cloned,
    the per-call headers applied, and the form content type added for
    POST and PUT unless a content-type key is present or the body is a
    FormData. *)
Definition requestHeaders (method : string) (content : Content)
    (opt_headers : option (list (string * string))) (s : XhrIo)
    : list (string * string) :=
  let headers := Map_clone (headers s) in
  let headers :=
    match opt_headers with
    | Some extra => Map_setAll extra headers
    | None => headers
    end in
  let contentTypeKey := find isContentTypeHeader_ (Map_getKeys headers) in
  let contentIsFormData :=
    global_FormData &&
    (match content with FormDataBody => true | _ => false end) in
  if array_contains METHODS_WITH_FORM_DATA method &&
     negb (match contentTypeKey with
           | Some k => string_truthy k
           | None => false
           end) &&
     negb contentIsFormData
  then Map_set CONTENT_TYPE_HEADER FORM_CONTENT_TYPE headers
  else headers.

(** The timeout part of [send]'s second try block. *)
Definition armTimeout (s : XhrIo) : XhrIo :=
  if number_gt (timeoutInterval_ s) (Num 0) then
    let s :=
      match xhr_ s with
      | Some x => set_useXhr2Timeout_ (shouldUseXhr2Timeout_ x) s
      | None => s
      end in
    if useXhr2Timeout_ s then
      let s := update_xhr (xhr_with_timeout (Some (timeoutInterval_ s))) s in
      update_xhr (xhr_with_ontimeout OnTimeout_bound) s
    else
      let r := Timer_callOnce Callback_timeout_ (timeoutInterval_ s) s in
      set_timeoutId_ (Some (fst r)) (snd r)
  else s.

(** The part of [send] between the two calls into the handle: the
    headers go onto the handle, then the response type and the
    credentials flag where supported, and, opening the second try block,
    the timeout. *)
Definition configure (headers : list (string * string)) (s : XhrIo)
    : XhrIo :=
  let s :=
    fold_left
      (fun acc kv => logCall (Call_setRequestHeader (fst kv) (snd kv)) acc)
      headers s in
  let s :=
    if ResponseType.truthy (responseType_ s)
    then update_xhr (xhr_with_responseType (responseType_ s)) s
    else s in
  let s :=
    match xhr_ s with
    | Some x =>
        if hasWithCredentials x
        then update_xhr (xhr_with_withCredentials (withCredentials_ s)) s
        else s
    | None => s
    end in
  (* try { *)
  let s := cleanUpTimeoutTimer_ s in
  armTimeout s.

Definition send (t : Transport) (url : string) (opt_method : option string)
    (opt_content : option Content)
    (opt_headers : option (list (string * string))) (s : XhrIo)
    : XhrIo * Completion unit :=
  match xhr_ s with
  | Some _ => (s, Threw (ActiveWithAnotherRequest (lastUri_ s) url))
  | None =>
      let method :=
        match opt_method with
        | Some m => if string_truthy m then toUpperCase m else "GET"
        | None => "GET"
        end in
      let s := set_lastUri_ url s in
      let s := set_lastError_ NoMessage s in
      let s := set_lastErrorCode_ ErrorCode.NO_ERROR s in
      let s := set_lastMethod_ method s in
      let s := set_errorDispatched_ false s in
      let s := set_active_ true s in
      let s := set_xhr_ (Some (createInstance t)) s in
      let s := set_xhrOptions_ (Some (getOptions t)) s in
      let s := update_xhr (xhr_with_onreadystatechange Handler_bound) s in
      (* try { *)
      let s := set_inOpen_ true s in
      let s := react (fired (onOpen t)) (logCall (Call_open method url) s) in
      match raised (onOpen t) with
      | Some err =>
          (* } catch (err) { *)
          (error_ (onAbort t) ErrorCode.EXCEPTION err s, Returned tt)
      | None =>
          let s := set_inOpen_ false s in
          let content :=
            match opt_content with
            | Some c => c
            | None => Text ""
            end in
          let headers := requestHeaders method content opt_headers s in
          match xhr_ s with
          | None =>
              (* the handle was released inside open: the next read of
                 this.xhr_ (setRequestHeader, responseType, the `in` test
                 of goog.object.containsKey) is outside any try *)
              (s, Threw TypeError)
          | Some _ =>
              let s := configure headers s in
              let s := set_inSend_ true s in
              let s :=
                react (fired (onSend t)) (logCall (Call_send content) s) in
              match raised (onSend t) with
              | Some err =>
                  (* } catch (err) { *)
                  (error_ (onAbort t) ErrorCode.EXCEPTION err s, Returned tt)
              | None => (set_inSend_ false s, Returned tt)
              end
          end
      end
  end.

(** goog.Timer runs a pending registration: it leaves the pending list
    and its callback is called. *)
Definition fireTimer (id : Z) (onAbort : list Notification) (s : XhrIo)
    : XhrIo :=
  match find (fun t => (timerId t =? id)%Z) (timers s) with
  | Some t =>
      let s := Timer_clear id s in
      match timerCallback t with
      | Callback_timeout_ => timeout_ onAbort s
      | Callback_onReadyStateChange_ => onReadyStateChange_ s
      end
  | None => s
  end.

(** The handle's own timeout elapses: it calls [ontimeout] if the
    controller bound it. *)
Definition fireNativeTimeout (onAbort : list Notification) (s : XhrIo)
    : XhrIo :=
  match xhr_ s with
  | Some x =>
      match ontimeout x with
      | OnTimeout_bound => timeout_ onAbort s
      | _ => s
      end
  | None => s
  end.

Definition step (i : Stimulus) (s : XhrIo) : XhrIo :=
  match i with
  | Notify n => notify n s
  | TimerFires id r => fireTimer id r s
  | NativeTimeoutFires r => fireNativeTimeout r s
  | CallAbort code r => abort code r s
  end.

Definition run (stimuli : list Stimulus) (s : XhrIo) : XhrIo :=
  fold_left (fun acc i => step i acc) stimuli s.

(** The events dispatched since the log was [before]. *)
Definition eventsSince (before : list EventType.t) (s : XhrIo)
    : list EventType.t :=
  skipn (List.length before) (events s).

(* ------------------------------------------------------------------ *)
(** ** Response accessors *)

Definition getResponseText (s : XhrIo) : Completion string :=
  try_catch
    (match xhr_ s with
     | Some x => read "responseText" (responseText x)
     | None => Returned ""
     end)
    (fun _ => Returned "").

Definition getResponseXml (s : XhrIo) : Completion JsValue :=
  try_catch
    (match xhr_ s with
     | Some x => read "responseXML" (responseXML x)
     | None => Returned JsNull
     end)
    (fun _ => Returned JsNull).

(** [responseText.indexOf(prefix) == 0] is [prefix] heading the text;
    [substring(prefix.length)] is what follows it. *)
Definition stripPrefix (opt_xssiPrefix : option string) (text : string)
    : string :=
  match opt_xssiPrefix with
  | Some p =>
      if string_truthy p && String.prefix p text
      then substring (String.length p) (String.length text - String.length p)
             text
      else text
  | None => text
  end.

Definition getResponseJson (opt_xssiPrefix : option string) (s : XhrIo)
    : Completion JsValue :=
  match xhr_ s with
  | None => Returned JsUndefined
  | Some x =>
      match read "responseText" (responseText x) with
      | Threw e => Threw e
      | Returned responseText => json_parse (stripPrefix opt_xssiPrefix responseText)
      end
  end.

Definition getResponse (s : XhrIo) : Completion JsValue :=
  try_catch
    (match xhr_ s with
     | None => Returned JsNull
     | Some x =>
         match response x with
         | Some v => read "response" v
         | None =>
             match responseType_ s with
             | ResponseType.DEFAULT | ResponseType.TEXT =>
                 match read "responseText" (responseText x) with
                 | Returned t => Returned (JsString t)
                 | Threw e => Threw e
                 end
             | ResponseType.ARRAY_BUFFER =>
                 match mozResponseArrayBuffer x with
                 | Some v => read "mozResponseArrayBuffer" v
                 | None => Returned JsNull
                 end
             | _ => Returned JsNull
             end
         end
     end)
    (fun _ => Returned JsNull).

Definition getResponseHeader (key : string) (s : XhrIo) : Completion JsValue :=
  match xhr_ s with
  | Some x =>
      if isComplete s then read "getResponseHeader" (responseHeader x key)
      else Returned JsUndefined
  | None => Returned JsUndefined
  end.

Definition getAllResponseHeaders (s : XhrIo) : Completion string :=
  match xhr_ s with
  | Some x =>
      if isComplete s
      then read "getAllResponseHeaders" (allResponseHeaders x)
      else Returned ""
  | None => Returned ""
  end.

Definition getLastErrorCode (s : XhrIo) : ErrorCode.t := lastErrorCode_ s.

Definition getLastError (s : XhrIo) : LastError := lastError_ s.

(** ** Which timeout mechanism is armed *)

(** The handle's own timeout: [ontimeout] holds the bound [timeout_]. *)
Definition nativeTimeoutArmed (s : XhrIo) : bool :=
  match xhr_ s with
  | Some x => match ontimeout x with OnTimeout_bound => true | _ => false end
  | None => false
  end.

(** The goog.Timer fallback: a pending registration that calls
    [timeout_]. *)
Definition fallbackTimeoutArmed (s : XhrIo) : bool :=
  existsb
    (fun t => match timerCallback t with
              | Callback_timeout_ => true
              | Callback_onReadyStateChange_ => false
              end)
    (timers s).

(* ------------------------------------------------------------------ *)
(** ** The guards of the readiness handler, as predicates *)

(** The handle signals the legacy "local request ended in error" quirk:
    the options ask for it to be ignored, readiness is complete and the
    status is 2.  The handler drops such a notification. *)
Definition localRequestErrorSignal (s : XhrIo) : bool :=
  option_flag LOCAL_REQUEST_ERROR s &&
  (getReadyState s =? ReadyState.COMPLETE)%Z &&
  (getStatus s =? 2)%Z.

(** The helper's branch for complete readiness: everything from
    [this.active_ = false] to the [finally]. *)
Definition terminalBranch (s : XhrIo) : XhrIo :=
  let s := dispatchEvent EventType.READY_STATE_CHANGE s in
  let s := set_active_ false s in
  let s :=
    if isSuccess s then
      let s := dispatchEvent EventType.COMPLETE s in
      dispatchEvent EventType.SUCCESS s
    else
      let s := set_lastErrorCode_ ErrorCode.HTTP_ERROR s in
      let s := set_lastError_
                 (StatusLine (getStatusText s) (getStatus s)) s in
      dispatchErrors_ s in
  cleanUpXhr_ false s.

(** The state a notification is handled in: the handle has updated its
    readiness fields. *)
Definition notified (n : Notification) (s : XhrIo) : XhrIo :=
  update_xhr
    (xhr_with_readiness (nReadyState n) (nStatus n) (nStatusText n)) s.

(** [open] fires no notification that reports complete readiness. *)
Definition opensQuietly (t : Transport) : Prop :=
  Forall (fun n => nReadyState n <> ReadyState.COMPLETE) (fired (onOpen t)).

(** The handle the factory creates has no timeout callback bound yet. *)
Definition freshHandle (t : Transport) : Prop :=
  ontimeout (createInstance t) <> OnTimeout_bound.

(** A request is in flight: the handle is held, the request is active
    and no error pair has been dispatched for it. *)
Definition inFlight (s : XhrIo) : Prop :=
  isActive s = true /\ active_ s = true /\ errorDispatched_ s = false.

(** The handle has been released. *)
Definition released (s : XhrIo) : Prop :=
  isActive s = false /\ active_ s = false.

(** What holds of every state a controller can be in: an active request
    has a handle, and a handle has its options. *)
Definition consistent (s : XhrIo) : Prop :=
  (active_ s = true -> isActive s = true) /\
  (isActive s = true -> xhrOptions_ s <> None).

(** Two states in the same phase of the same cycle, with the same
    event log. *)
Definition samePhase (s s' : XhrIo) : Prop :=
  isActive s' = isActive s /\ active_ s' = active_ s /\
  errorDispatched_ s' = errorDispatched_ s /\ events s' = events s.

(** From [s] to [s'] no timeout mechanism was armed: one that is armed
    in [s'] was armed in [s] already. *)
Definition noArming (s s' : XhrIo) : Prop :=
  (nativeTimeoutArmed s' = true -> nativeTimeoutArmed s = true) /\
  (fallbackTimeoutArmed s' = true -> fallbackTimeoutArmed s = true).

(** What the handle says about its timeout support. *)
Definition handleTimeoutView (s : XhrIo) : option (option number * OnTimeout) :=
  match xhr_ s with
  | Some x => Some (timeout x, ontimeout x)
  | None => None
  end.

(** From [s] to [s'] the request carried on: nothing that [send] set up
    was touched. *)
Definition carriesOn (s s' : XhrIo) : Prop :=
  headers s' = headers s /\ calls s' = calls s /\
  timeoutInterval_ s' = timeoutInterval_ s /\
  useXhr2Timeout_ s' = useXhr2Timeout_ s /\
  timeoutId_ s' = timeoutId_ s /\
  handleTimeoutView s' = handleTimeoutView s /\
  fallbackTimeoutArmed s' = fallbackTimeoutArmed s.

(** The headers handed to the handle by a sequence of calls. *)
Fixpoint headersPassed (cs : list XhrCall) : list (string * string) :=
  match cs with
  | [] => []
  | Call_setRequestHeader k v :: rest => (k, v) :: headersPassed rest
  | _ :: rest => headersPassed rest
  end.

(** The calls made into a handle since the log was [before]. *)
Definition callsSince (before : list XhrCall) (s : XhrIo) : list XhrCall :=
  skipn (List.length before) (calls s).

(** The claim's condition for the form content type, in its own words:
    the method is POST or PUT, no header of the request is named
    content-type in any letter case, and the body is not a FormData. *)
Definition wantsFormContentType (method : string)
    (supplied : list (string * string)) (content : Content) : bool :=
  (String.eqb method "POST" || String.eqb method "PUT") &&
  negb (existsb (fun k => String.eqb (toLowerCase k) "content-type")
          (map fst supplied)) &&
  negb (global_FormData &&
        match content with FormDataBody => true | _ => false end).

(** The error recorded is the same in both states. *)
Definition sameError (s s' : XhrIo) : Prop :=
  lastErrorCode_ s' = lastErrorCode_ s /\ lastError_ s' = lastError_ s.

(** What the owner configured, and the target of the last [send], are
    the same in both states. *)
Definition sameSettings (s s' : XhrIo) : Prop :=
  headers s' = headers s /\ timeoutInterval_ s' = timeoutInterval_ s /\
  responseType_ s' = responseType_ s /\
  withCredentials_ s' = withCredentials_ s /\
  lastUri_ s' = lastUri_ s /\ lastMethod_ s' = lastMethod_ s.

(** The code that [abort(opt_failureCode)] is to record: the code
    given, or ABORT if none was given or the one given is NO_ERROR,
    which counts as false. *)
Inductive CodeGiven : option ErrorCode.t -> ErrorCode.t -> Prop :=
| CodeGiven_none : CodeGiven None ErrorCode.ABORT
| CodeGiven_falsy : CodeGiven (Some ErrorCode.NO_ERROR) ErrorCode.ABORT
| CodeGiven_some (c : ErrorCode.t) :
    c <> ErrorCode.NO_ERROR -> CodeGiven (Some c) c.

(** The error code that goes with each ending of a cycle; [aborted]
    tells which arguments [abort] was called with while the request was
    in flight. *)
Inductive EndingCode (aborted : option ErrorCode.t -> Prop)
    : list EventType.t -> ErrorCode.t -> Prop :=
| EndingCode_success :
    EndingCode aborted
      [EventType.COMPLETE; EventType.SUCCESS; EventType.READY]
      ErrorCode.NO_ERROR
| EndingCode_http :
    EndingCode aborted
      [EventType.COMPLETE; EventType.ERROR; EventType.READY]
      ErrorCode.HTTP_ERROR
| EndingCode_exception :
    EndingCode aborted
      [EventType.COMPLETE; EventType.ERROR; EventType.READY]
      ErrorCode.EXCEPTION
| EndingCode_abort (given : option ErrorCode.t) (code : ErrorCode.t) :
    aborted given -> CodeGiven given code ->
    EndingCode aborted
      [EventType.COMPLETE; EventType.ABORT; EventType.READY] code
| EndingCode_timeout :
    EndingCode aborted
      [EventType.TIMEOUT; EventType.COMPLETE; EventType.ABORT;
       EventType.READY]
      ErrorCode.TIMEOUT.

(** Where a cycle that started with the event log [before] stands: in
    flight, with no error recorded and nothing but progress reported, or
    ended, with the error code that goes with its ending. *)
Definition cycleAccount (before : list EventType.t)
    (aborted : option ErrorCode.t -> Prop) (s : XhrIo) : Prop :=
  (inFlight s /\
   lastErrorCode_ s = ErrorCode.NO_ERROR /\ lastError_ s = NoMessage /\
   exists k, events s = before ++ repeat EventType.READY_STATE_CHANGE k)
  \/
  (released s /\
   exists k ending,
     EndingCode aborted ending (lastErrorCode_ s) /\
     events s = before ++ repeat EventType.READY_STATE_CHANGE k ++ ending).

(** Every pending registration that calls [timeout_] belongs to the
    request in flight and is the one [timeoutId_] names. *)
Definition timeoutTracked (s : XhrIo) : Prop :=
  forall t,
    In t (timers s) -> timerCallback t = Callback_timeout_ ->
    isActive s = true /\ timeoutId_ s = Some (timerId t).

(** From [s] to [s'] no registration that calls [timeout_] was added,
    and the handle and [timeoutId_] are as they were. *)
Definition timersKept (s s' : XhrIo) : Prop :=
  (forall t,
      In t (timers s') -> timerCallback t = Callback_timeout_ ->
      In t (timers s)) /\
  timeoutId_ s' = timeoutId_ s /\ isActive s' = isActive s.

(** What the handle holds of the request's set-up: whether it has the
    credentials property, the credentials flag, the response type and
    the readiness handler. *)
Definition handleRequestView (s : XhrIo)
    : option (bool * bool * ResponseType.t * Handler) :=
  match xhr_ s with
  | Some x =>
      Some (hasWithCredentials x, withCredentials x, responseType x,
            onreadystatechange x)
  | None => None
  end.

(** [abort(given)] is among the stimuli, at a point where the request
    sent was still in flight. *)
Definition abortedIn (sent : XhrIo) (stimuli : list Stimulus)
    (given : option ErrorCode.t) : Prop :=
  exists pre r post,
    stimuli = pre ++ CallAbort given r :: post /\
    isActive (run pre sent) = true.




(** The ways a request cycle's event log can end once the handle is
    released: the outcome pair of a completed or failed request, or the
    COMPLETE/ABORT pair of an abort, which a TIMEOUT may precede. *)
Inductive Ending : list EventType.t -> Prop :=
| Ending_success :
    Ending [EventType.COMPLETE; EventType.SUCCESS; EventType.READY]
| Ending_error :
    Ending [EventType.COMPLETE; EventType.ERROR; EventType.READY]
| Ending_abort :
    Ending [EventType.COMPLETE; EventType.ABORT; EventType.READY]
| Ending_timeout :
    Ending [EventType.TIMEOUT; EventType.COMPLETE; EventType.ABORT;
            EventType.READY].




(* ------------------------------------------------------------------ *)
(** ** Concrete platforms, handles and reactions used as inputs *)

(** Modelled from the spec: goog.net.HttpStatus.isSuccess (declared
    outside src/), "2xx, or 304". *)
Definition HttpStatus_isSuccess_spec (status : Z) : bool :=
  ((200 <=? status)%Z && (status <? 300)%Z) || (status =? 304)%Z.

Fixpoint schemeBeforeColon (uri : string) : option string :=
  match uri with
  | EmptyString => None
  | String c rest =>
      if Ascii.eqb c ":"%char then Some EmptyString
      else match schemeBeforeColon rest with
           | Some p => Some (String c p)
           | None => None
           end
  end.

(** Modelled from the spec: goog.uri.utils.getEffectiveScheme (declared
    outside src/), the lower-cased scheme of the request target; a
    target without a scheme gets the scheme of the page, here [file]. *)
Definition getEffectiveScheme_spec (uri : string) : string :=
  match schemeBeforeColon uri with
  | Some p => toLowerCase p
  | None => "file"
  end.

(** A stand-in for goog.json.parse: it refuses the empty text and wraps
    any other. *)
Definition json_parse_standin (text : string) : Completion JsValue :=
  match text with
  | EmptyString => Threw (Thrown "Invalid JSON string")
  | _ => Returned (JsObject text)
  end.

(** Internet Explorer 9 or later. *)
Definition explorer9 : Platform :=
  mkPlatform HttpStatus_isSuccess_spec getEffectiveScheme_spec
    json_parse_standin true true true toUpperCase_ascii.

(** A browser other than Internet Explorer. *)
Definition otherBrowser : Platform :=
  mkPlatform HttpStatus_isSuccess_spec getEffectiveScheme_spec
    json_parse_standin false false true toUpperCase_ascii.

(** A handle of a platform without the level-2 properties; its response
    properties throw until a response is there. *)
Definition legacyHandle : Xhr :=
  mkXhr 0 None None None None None None (fun _ => None) None
        None OnTimeout_undefined false false ResponseType.DEFAULT
        Handler_unset.

(** A handle that exposes [timeout] as a number and [ontimeout]. *)
Definition level2Handle : Xhr :=
  mkXhr 0 None None None None (Some None) None (fun _ => None) None
        (Some (Num 0)) OnTimeout_null true false ResponseType.DEFAULT
        Handler_unset.

Definition noOptions : XmlHttpOptions := mkOptions false false.

(** The options of the ActiveX transport: local request errors are to
    be ignored, handlers are cleared with the null function. *)
Definition activeXOptions : XmlHttpOptions := mkOptions true true.

Definition silent : Reaction := mkReaction [] None.

Definition legacyTransport : Transport :=
  mkTransport legacyHandle noOptions silent silent [].

Definition level2Transport : Transport :=
  mkTransport level2Handle noOptions silent silent [].

(** A handle whose [send] throws. *)
Definition failingSendTransport : Transport :=
  mkTransport legacyHandle noOptions silent
    (mkReaction [] (Some "network error")) [].

(** A handle that reports a failed, complete exchange from inside [open]
    and then throws from [open]. *)
Definition failingOpenTransport : Transport :=
  mkTransport legacyHandle noOptions
    (mkReaction
       [mkNotification ReadyState.COMPLETE (Some 500)
          (Some "Internal Server Error")]
       (Some "access denied"))
    silent [].

(** A handle that answers from its cache: it reports complete readiness
    from inside [send]. *)
Definition cachedTransport : Transport :=
  mkTransport legacyHandle noOptions silent
    (mkReaction [mkNotification ReadyState.COMPLETE (Some 200) (Some "OK")]
       None)
    [].

Definition done (status : Z) (text : string) : Notification :=
  mkNotification ReadyState.COMPLETE (Some status) (Some text).

Definition progress (level : Z) : Notification :=
  mkNotification level None None.

(* ------------------------------------------------------------------ *)
(** ** Strings: the scheme pattern *)

Lemma ci_char_h (c : ascii) :
  ci_char "h" c = Ascii.eqb (ascii_toLower c) "h".
Proof.
  destruct c as [[] [] [] [] [] [] [] []]; reflexivity.
Qed.

Lemma ci_char_t (c : ascii) :
  ci_char "t" c = Ascii.eqb (ascii_toLower c) "t".
Proof.
  destruct c as [[] [] [] [] [] [] [] []]; reflexivity.
Qed.

Lemma ci_char_p (c : ascii) :
  ci_char "p" c = Ascii.eqb (ascii_toLower c) "p".
Proof.
  destruct c as [[] [] [] [] [] [] [] []]; reflexivity.
Qed.

Lemma ci_char_s (c : ascii) :
  ci_char "s" c = Ascii.eqb (ascii_toLower c) "s".
Proof.
  destruct c as [[] [] [] [] [] [] [] []]; reflexivity.
Qed.

Lemma toLowerCase_empty (s : string) :
  toLowerCase s = EmptyString -> s = EmptyString.
Proof.
  destruct s; simpl; [reflexivity | discriminate].
Qed.

(** The pattern [/^https?$/i] accepts exactly the schemes that read
    [http] or [https] once lower-cased. *)
Lemma HTTP_SCHEME_PATTERN_test_spec (scheme : string) :
  HTTP_SCHEME_PATTERN_test scheme = true <->
  (toLowerCase scheme = "http" \/ toLowerCase scheme = "https").
Proof.
  unfold HTTP_SCHEME_PATTERN_test.
  destruct scheme as [|c1 [|c2 [|c3 [|c4 rest]]]]; simpl;
    try (split; [discriminate | intros [H|H]; discriminate H]).
  rewrite ci_char_h, ci_char_t, ci_char_t, ci_char_p.
  split.
  - intros H.
    repeat (apply andb_true_iff in H; destruct H as [H ?]).
    repeat match goal with
           | E : Ascii.eqb _ _ = true |- _ => apply Ascii.eqb_eq in E; rewrite E
           end.
    destruct rest as [|c5 [|c6 rest]]; simpl.
    + left; reflexivity.
    + rewrite ci_char_s in H0. apply Ascii.eqb_eq in H0. rewrite H0.
      right; reflexivity.
    + discriminate.
  - intros [H|H]; injection H as H1 H2 H3 H4 H5;
      rewrite H1, H2, H3, H4; simpl.
    + apply toLowerCase_empty in H5. rewrite H5. reflexivity.
    + destruct rest as [|c5 [|c6 rest]]; simpl in *; try discriminate.
      injection H5 as H5. rewrite ci_char_s, H5. reflexivity.
Qed.

(* ------------------------------------------------------------------ *)
(** ** The readiness handler, case by case *)

Lemma helper_inactive (s : XhrIo) :
  active_ s = false -> onReadyStateChangeHelper_ s = s.
Proof.
  intros Ha. unfold onReadyStateChangeHelper_. rewrite Ha. reflexivity.
Qed.

(** Entry point or not, the handler runs the helper unless the
    controller is disposed. *)
Lemma onReadyStateChange_helper (s : XhrIo) :
  disposed_ s = false ->
  onReadyStateChange_ s = onReadyStateChangeHelper_ s.
Proof.
  intros Hd. unfold onReadyStateChange_, onReadyStateChangeEntryPoint_.
  rewrite Hd.
  destruct (negb (inOpen_ s) && negb (inSend_ s) && negb (inAbort_ s));
    reflexivity.
Qed.

Lemma onReadyStateChange_disposed (s : XhrIo) :
  disposed_ s = true -> onReadyStateChange_ s = s.
Proof.
  intros Hd. unfold onReadyStateChange_. rewrite Hd. reflexivity.
Qed.

Lemma onReadyStateChange_inactive (s : XhrIo) :
  active_ s = false -> onReadyStateChange_ s = s.
Proof.
  intros Ha. unfold onReadyStateChange_, onReadyStateChangeEntryPoint_.
  rewrite (helper_inactive s Ha).
  destruct (disposed_ s);
    destruct (negb (inOpen_ s) && negb (inSend_ s) && negb (inAbort_ s));
    reflexivity.
Qed.

(** A notification that reaches an inactive controller changes nothing
    but the readiness the handle itself reports. *)
Lemma notify_inactive (n : Notification) (s : XhrIo) :
  active_ s = false -> notify n s = notified n s.
Proof.
  intros Ha. unfold notify. fold (notified n s).
  apply onReadyStateChange_inactive.
  unfold notified, update_xhr. destruct (xhr_ s); exact Ha.
Qed.

Lemma notified_twice (n m : Notification) (s : XhrIo) :
  notified m (notified n s) = notified m s.
Proof.
  unfold notified, update_xhr. destruct s as [? ? [x|]]; reflexivity.
Qed.

Lemma notified_active (n : Notification) (s : XhrIo) :
  active_ (notified n s) = active_ s.
Proof.
  unfold notified, update_xhr. destruct (xhr_ s); reflexivity.
Qed.

(** While the controller is inactive, a burst of notifications leaves
    the state as the last of them alone would. *)
Lemma react_inactive (ns : list Notification) (s : XhrIo) :
  active_ s = false ->
  react ns s = match rev ns with
               | [] => s
               | n :: _ => notified n s
               end.
Proof.
  revert s. induction ns as [|n ns IH]; intros s Ha.
  - reflexivity.
  - change (react (n :: ns) s) with (react ns (notify n s)).
    rewrite (notify_inactive n s Ha).
    rewrite IH by (rewrite notified_active; exact Ha).
    simpl rev.
    destruct (rev ns) as [|m l]; simpl.
    + reflexivity.
    + apply notified_twice.
Qed.

Lemma cleanUpXhr_notified (b : bool) (n : Notification) (s : XhrIo) :
  cleanUpXhr_ b (notified n s) = cleanUpXhr_ b s.
Proof.
  unfold notified, update_xhr, cleanUpXhr_, cleanUpTimeoutTimer_.
  destruct s as [? ? [x|]]; simpl; [|reflexivity].
  destruct useXhr2Timeout_0, timeoutId_0, b; reflexivity.
Qed.

(* ------------------------------------------------------------------ *)
(** ** Clean-up and error dispatch *)

Lemma cleanUpTimeoutTimer_frame (s : XhrIo) :
  events (cleanUpTimeoutTimer_ s) = events s /\
  active_ (cleanUpTimeoutTimer_ s) = active_ s /\
  errorDispatched_ (cleanUpTimeoutTimer_ s) = errorDispatched_ s /\
  calls (cleanUpTimeoutTimer_ s) = calls s /\
  inSend_ (cleanUpTimeoutTimer_ s) = inSend_ s /\
  disposed_ (cleanUpTimeoutTimer_ s) = disposed_ s /\
  isActive (cleanUpTimeoutTimer_ s) = isActive s /\
  timeoutId_ (cleanUpTimeoutTimer_ s) = None.
Proof.
  unfold cleanUpTimeoutTimer_, isActive, Timer_clear.
  destruct (xhr_ s) eqn:Ex; [destruct (useXhr2Timeout_ s)|]; simpl;
    destruct (timeoutId_ s) eqn:Et; simpl; rewrite ?Ex, ?Et; auto 10.
Qed.

Lemma cleanUpXhr_released (b : bool) (s : XhrIo) :
  isActive (cleanUpXhr_ b s) = false.
Proof.
  unfold cleanUpXhr_, isActive.
  destruct (xhr_ s) eqn:Ex; [destruct b; reflexivity | now rewrite Ex].
Qed.

Lemma cleanUpXhr_frame (b : bool) (s : XhrIo) :
  active_ (cleanUpXhr_ b s) = active_ s /\
  errorDispatched_ (cleanUpXhr_ b s) = errorDispatched_ s /\
  calls (cleanUpXhr_ b s) = calls s /\
  inSend_ (cleanUpXhr_ b s) = inSend_ s /\
  disposed_ (cleanUpXhr_ b s) = disposed_ s.
Proof.
  unfold cleanUpXhr_.
  destruct (cleanUpTimeoutTimer_frame s) as (_ & Ha & He & Hc & Hs & Hd & _).
  destruct (xhr_ s); [destruct b; simpl|]; auto.
Qed.

Lemma cleanUpXhr_events (b : bool) (s : XhrIo) :
  isActive s = true ->
  events (cleanUpXhr_ b s) =
  if b then events s else events s ++ [EventType.READY].
Proof.
  unfold cleanUpXhr_, isActive.
  destruct (cleanUpTimeoutTimer_frame s) as (Hev & _).
  destruct (xhr_ s); [|discriminate].
  intros _. destruct b; simpl; now rewrite Hev.
Qed.

Lemma cleanUpXhr_idle (b : bool) (s : XhrIo) :
  isActive s = false -> cleanUpXhr_ b s = s.
Proof.
  unfold cleanUpXhr_, isActive. destruct (xhr_ s); [discriminate|reflexivity].
Qed.


Lemma dispatchErrors_first (s : XhrIo) :
  errorDispatched_ s = false ->
  dispatchErrors_ s =
  dispatchEvent EventType.ERROR
    (dispatchEvent EventType.COMPLETE (set_errorDispatched_ true s)).
Proof.
  intros He. unfold dispatchErrors_. now rewrite He.
Qed.

Lemma dispatchErrors_sets_flag (s : XhrIo) :
  errorDispatched_ (dispatchErrors_ s) = true.
Proof.
  unfold dispatchErrors_. destruct (errorDispatched_ s) eqn:He;
    [exact He | reflexivity].
Qed.

(* ------------------------------------------------------------------ *)
(** ** The helper, branch by branch *)

(** With the request active, the helper takes exactly one of its four
    branches. *)
Lemma helper_cases (s : XhrIo) :
  active_ s = true ->
  (localRequestErrorSignal s = true /\ onReadyStateChangeHelper_ s = s)
  \/
  (localRequestErrorSignal s = false /\ inSend_ s = true /\
   isComplete s = true /\
   onReadyStateChangeHelper_ s =
   snd (Timer_callOnce Callback_onReadyStateChange_ (Num 0) s))
  \/
  (localRequestErrorSignal s = false /\ isComplete s = false /\
   onReadyStateChangeHelper_ s =
   dispatchEvent EventType.READY_STATE_CHANGE s)
  \/
  (localRequestErrorSignal s = false /\ inSend_ s = false /\
   isComplete s = true /\
   onReadyStateChangeHelper_ s = terminalBranch s).
Proof.
  intros Ha.
  unfold onReadyStateChangeHelper_, terminalBranch.
  fold (localRequestErrorSignal s). fold (isComplete s).
  rewrite Ha. simpl negb. cbv iota.
  destruct (localRequestErrorSignal s); [left; auto | right].
  replace (isComplete (dispatchEvent EventType.READY_STATE_CHANGE s))
    with (isComplete s) by reflexivity.
  destruct (isComplete s) eqn:Hc.
  - destruct (inSend_ s); simpl; [left | right; right]; auto.
  - rewrite andb_false_r. right; left; auto.
Qed.

Lemma isComplete_isActive (s : XhrIo) :
  isComplete s = true -> isActive s = true.
Proof.
  unfold isComplete, getReadyState, isActive.
  destruct (xhr_ s); [reflexivity | discriminate].
Qed.

(** What the terminal branch leaves behind. *)
Lemma terminalBranch_effect (s : XhrIo) :
  isActive s = true ->
  isActive (terminalBranch s) = false /\
  active_ (terminalBranch s) = false /\
  inSend_ (terminalBranch s) = inSend_ s /\
  calls (terminalBranch s) = calls s /\
  disposed_ (terminalBranch s) = disposed_ s /\
  ((isSuccess s = true /\
    errorDispatched_ (terminalBranch s) = errorDispatched_ s /\
    events (terminalBranch s) =
      events s ++ [EventType.READY_STATE_CHANGE; EventType.COMPLETE;
                   EventType.SUCCESS; EventType.READY])
   \/
   (isSuccess s = false /\ errorDispatched_ s = false /\
    errorDispatched_ (terminalBranch s) = true /\
    events (terminalBranch s) =
      events s ++ [EventType.READY_STATE_CHANGE; EventType.COMPLETE;
                   EventType.ERROR; EventType.READY])
   \/
   (isSuccess s = false /\ errorDispatched_ s = true /\
    errorDispatched_ (terminalBranch s) = true /\
    events (terminalBranch s) =
      events s ++ [EventType.READY_STATE_CHANGE; EventType.READY])).
Proof.
  intros Hx. unfold terminalBranch.
  set (s1 := set_active_ false (dispatchEvent EventType.READY_STATE_CHANGE s)).
  assert (Hs : isSuccess s1 = isSuccess s) by reflexivity.
  rewrite Hs.
  match goal with |- context [cleanUpXhr_ false ?m] => set (mid := m) end.
  assert (Hmx : isActive mid = true).
  { subst mid. destruct (isSuccess s); [exact Hx|].
    unfold dispatchErrors_. simpl.
    destruct (errorDispatched_ s); exact Hx. }
  destruct (cleanUpXhr_frame false mid) as (Ha & He & Hc & Hi & Hd).
  rewrite (cleanUpXhr_released false mid), Ha, He, Hc, Hi, Hd,
    (cleanUpXhr_events false mid Hmx).
  subst mid. destruct (isSuccess s).
  - simpl. repeat split; auto. left. repeat split.
    rewrite <- !app_assoc. reflexivity.
  - unfold dispatchErrors_. simpl.
    destruct (errorDispatched_ s) eqn:Hed; simpl; rewrite ?Hed;
      repeat split; auto; right; [right | left]; repeat split;
      rewrite <- !app_assoc; reflexivity.
Qed.

(* ------------------------------------------------------------------ *)
(** ** Phases of a request cycle *)

Lemma samePhase_refl (s : XhrIo) : samePhase s s.
Proof. repeat split. Qed.

Lemma samePhase_trans (a b c : XhrIo) :
  samePhase a b -> samePhase b c -> samePhase a c.
Proof.
  unfold samePhase. intros (H1 & H2 & H3 & H4) (K1 & K2 & K3 & K4).
  repeat split; congruence.
Qed.

Lemma samePhase_inFlight (s s' : XhrIo) :
  samePhase s s' -> inFlight s -> inFlight s'.
Proof.
  unfold samePhase, inFlight. intros (H1 & H2 & H3 & _) (K1 & K2 & K3).
  repeat split; congruence.
Qed.

Lemma samePhase_released (s s' : XhrIo) :
  samePhase s s' -> released s -> released s'.
Proof.
  unfold samePhase, released. intros (H1 & H2 & _) (K1 & K2).
  split; congruence.
Qed.

Lemma update_xhr_samePhase (f : Xhr -> Xhr) (s : XhrIo) :
  samePhase s (update_xhr f s).
Proof.
  unfold samePhase, update_xhr, isActive.
  destruct (xhr_ s) eqn:Ex; simpl; rewrite ?Ex; auto.
Qed.

Lemma notified_samePhase (n : Notification) (s : XhrIo) :
  samePhase s (notified n s).
Proof. apply update_xhr_samePhase. Qed.

Lemma notified_inSend (n : Notification) (s : XhrIo) :
  inSend_ (notified n s) = inSend_ s.
Proof.
  unfold notified, update_xhr. destruct (xhr_ s); reflexivity.
Qed.

Lemma notified_disposed (n : Notification) (s : XhrIo) :
  disposed_ (notified n s) = disposed_ s.
Proof.
  unfold notified, update_xhr. destruct (xhr_ s); reflexivity.
Qed.

Lemma notified_isComplete (n : Notification) (s : XhrIo) :
  isComplete (notified n s) = true -> nReadyState n = ReadyState.COMPLETE.
Proof.
  unfold notified, update_xhr, isComplete, getReadyState.
  destruct (xhr_ s) eqn:Ex; simpl; rewrite ?Ex.
  - intros H. now apply Z.eqb_eq in H.
  - discriminate.
Qed.

Lemma cleanUpTimeoutTimer_samePhase (s : XhrIo) :
  samePhase s (cleanUpTimeoutTimer_ s).
Proof.
  destruct (cleanUpTimeoutTimer_frame s) as (H1 & H2 & H3 & _ & _ & _ & H4 & _).
  repeat split; assumption.
Qed.

(** The handler during a request in flight: the notification is dropped
    or deferred, or reported as progress, or it ends the cycle with one
    outcome pair.  It ends the cycle only at complete readiness and
    outside [send]. *)
Lemma onReadyStateChange_inFlight (s : XhrIo) :
  inFlight s ->
  (inFlight (onReadyStateChange_ s) /\
   inSend_ (onReadyStateChange_ s) = inSend_ s /\
   (events (onReadyStateChange_ s) = events s \/
    events (onReadyStateChange_ s) =
      events s ++ [EventType.READY_STATE_CHANGE]))
  \/
  (released (onReadyStateChange_ s) /\
   isComplete s = true /\ inSend_ s = false /\
   inSend_ (onReadyStateChange_ s) = false /\
   (events (onReadyStateChange_ s) =
      events s ++ [EventType.READY_STATE_CHANGE; EventType.COMPLETE;
                   EventType.SUCCESS; EventType.READY]
    \/ events (onReadyStateChange_ s) =
      events s ++ [EventType.READY_STATE_CHANGE; EventType.COMPLETE;
                   EventType.ERROR; EventType.READY])).
Proof.
  intros Hf. pose proof Hf as (Hx & Ha & He).
  destruct (disposed_ s) eqn:Hd.
  - rewrite (onReadyStateChange_disposed s Hd). left. auto.
  - rewrite (onReadyStateChange_helper s Hd).
    destruct (helper_cases s Ha)
      as [(_ & ->) | [(_ & Hs & _ & ->) | [(_ & _ & ->) | (_ & Hs & Hc & ->)]]].
    + left. auto.
    + left. repeat split; auto.
    + left. repeat split; auto.
    + right.
      destruct (terminalBranch_effect s Hx)
        as (Tx & Ta & Ts & _ & _ & [(_ & _ & Tev) | [(_ & _ & _ & Tev) | (_ & E & _)]]).
      * repeat split; auto. congruence.
      * repeat split; auto. congruence.
      * congruence.
Qed.

Lemma notify_inFlight (n : Notification) (s : XhrIo) :
  inFlight s ->
  (inFlight (notify n s) /\ inSend_ (notify n s) = inSend_ s /\
   (events (notify n s) = events s \/
    events (notify n s) = events s ++ [EventType.READY_STATE_CHANGE]))
  \/
  (released (notify n s) /\
   nReadyState n = ReadyState.COMPLETE /\ inSend_ s = false /\
   inSend_ (notify n s) = false /\
   (events (notify n s) =
      events s ++ [EventType.READY_STATE_CHANGE; EventType.COMPLETE;
                   EventType.SUCCESS; EventType.READY]
    \/ events (notify n s) =
      events s ++ [EventType.READY_STATE_CHANGE; EventType.COMPLETE;
                   EventType.ERROR; EventType.READY])).
Proof.
  intros Hf.
  pose proof (notified_samePhase n s) as Hp.
  pose proof (samePhase_inFlight _ _ Hp Hf) as Hf'.
  destruct Hp as (_ & _ & _ & Hev).
  unfold notify. fold (notified n s).
  destruct (onReadyStateChange_inFlight (notified n s) Hf')
    as [(H1 & H2 & H3) | (H1 & H2 & H3 & H4 & H5)].
  - left. rewrite notified_inSend, Hev in *. auto.
  - right. rewrite notified_inSend, Hev in *.
    apply notified_isComplete in H2. auto.
Qed.

Lemma repeat_snoc {A : Type} (a : A) (k : nat) :
  repeat a k ++ [a] = repeat a (S k).
Proof.
  induction k as [|k IH]; simpl; [reflexivity | now rewrite IH].
Qed.

(** Notifications fired inside [send], or none of which reports
    complete readiness, never end the cycle: each is reported as
    progress at most. *)
Lemma react_inFlight_quiet (ns : list Notification) (s : XhrIo) :
  inFlight s ->
  Forall (fun n => nReadyState n <> ReadyState.COMPLETE) ns \/
  inSend_ s = true ->
  inFlight (react ns s) /\ inSend_ (react ns s) = inSend_ s /\
  exists k,
    events (react ns s) = events s ++ repeat EventType.READY_STATE_CHANGE k.
Proof.
  revert s. induction ns as [|n ns IH]; intros s Hf Hq.
  - simpl. split; [exact Hf | split; [reflexivity|]].
    exists 0%nat. simpl. now rewrite app_nil_r.
  - change (react (n :: ns) s) with (react ns (notify n s)).
    destruct (notify_inFlight n s Hf)
      as [(H1 & H2 & H3) | (_ & H2 & H3 & _)].
    + assert (Hq' : Forall (fun n => nReadyState n <> ReadyState.COMPLETE) ns
                    \/ inSend_ (notify n s) = true).
      { destruct Hq as [Hq | Hq]; [left; now inversion Hq | right; congruence]. }
      destruct (IH (notify n s) H1 Hq') as (K1 & K2 & k & K3).
      split; [exact K1 | split; [congruence|]].
      destruct H3 as [H3 | H3]; rewrite H3 in K3.
      * exists k. exact K3.
      * exists (S k). rewrite K3, <- app_assoc. reflexivity.
    + exfalso. destruct Hq as [Hq | Hq].
      * inversion Hq; subst. contradiction.
      * congruence.
Qed.

(** [this.xhr_.abort()] on a controller that is already inactive: the
    call is logged, and whatever the handle fires only changes the
    readiness it reports. *)
Lemma xhr_abort_inactive (r : list Notification) (s : XhrIo) :
  active_ s = false ->
  xhr_abort r s = logCall Call_abort s \/
  exists n, xhr_abort r s = notified n (logCall Call_abort s).
Proof.
  intros Ha. unfold xhr_abort.
  rewrite react_inactive by exact Ha.
  destruct (rev r) as [|n l]; [left; reflexivity | right; now exists n].
Qed.

Lemma xhr_abort_samePhase (r : list Notification) (s : XhrIo) :
  active_ s = false -> samePhase s (xhr_abort r s).
Proof.
  intros Ha.
  destruct (xhr_abort_inactive r s Ha) as [-> | [n ->]].
  - repeat split.
  - apply (samePhase_trans _ (logCall Call_abort s)).
    + repeat split.
    + apply notified_samePhase.
Qed.

Lemma xhr_abort_calls (r : list Notification) (s : XhrIo) :
  active_ s = false -> calls (xhr_abort r s) = calls s ++ [Call_abort].
Proof.
  intros Ha.
  destruct (xhr_abort_inactive r s Ha) as [-> | [n ->]]; [reflexivity|].
  unfold notified, update_xhr. destruct (xhr_ (logCall Call_abort s)); reflexivity.
Qed.

Lemma isActive_Some (s : XhrIo) :
  isActive s = true -> exists x, xhr_ s = Some x.
Proof.
  unfold isActive. destruct (xhr_ s) as [x|]; [now exists x | discriminate].
Qed.

Lemma isActive_None (s : XhrIo) :
  isActive s = false -> xhr_ s = None.
Proof.
  unfold isActive. destruct (xhr_ s); [discriminate | reflexivity].
Qed.

(** [abort] during a request in flight: COMPLETE, ABORT, READY, and the
    handle is released. *)
Lemma abort_inFlight (code : option ErrorCode.t) (r : list Notification)
    (s : XhrIo) :
  isActive s = true -> active_ s = true ->
  released (abort code r s) /\
  errorDispatched_ (abort code r s) = errorDispatched_ s /\
  events (abort code r s) =
    events s ++ [EventType.COMPLETE; EventType.ABORT; EventType.READY].
Proof.
  intros Hx Ha.
  destruct (isActive_Some s Hx) as [x Ex].
  unfold abort. rewrite Ex, Ha.
  set (s1 := set_inAbort_ true (set_active_ false s)).
  assert (H1 : active_ s1 = false) by reflexivity.
  pose proof (xhr_abort_samePhase r s1 H1) as (P1 & P2 & P3 & P4).
  set (s2 := xhr_abort r s1) in *.
  match goal with |- context [cleanUpXhr_ false ?m] => set (mid := m) end.
  assert (Mx : isActive mid = true) by (change (isActive s2 = true); rewrite P1; exact Hx).
  assert (Ma : active_ mid = false) by (change (active_ s2 = false); rewrite P2; reflexivity).
  assert (Me : errorDispatched_ mid = errorDispatched_ s)
    by (change (errorDispatched_ s2 = errorDispatched_ s); rewrite P3; reflexivity).
  assert (Mev : events mid =
                events s ++ [EventType.COMPLETE; EventType.ABORT]).
  { change (events mid)
      with ((events s2 ++ [EventType.COMPLETE]) ++ [EventType.ABORT]).
    rewrite P4, <- app_assoc. reflexivity. }
  destruct (cleanUpXhr_frame false mid) as (Fa & Fe & _).
  split; [split|split].
  - apply cleanUpXhr_released.
  - congruence.
  - congruence.
  - rewrite (cleanUpXhr_events false mid Mx), Mev, <- app_assoc. reflexivity.
Qed.

Lemma abort_released (code : option ErrorCode.t) (r : list Notification)
    (s : XhrIo) :
  active_ s = false -> abort code r s = s.
Proof.
  intros Ha. unfold abort. rewrite Ha. destruct (xhr_ s); reflexivity.
Qed.

Lemma timeout_inFlight (r : list Notification) (s : XhrIo) :
  isActive s = true -> active_ s = true ->
  released (timeout_ r s) /\
  errorDispatched_ (timeout_ r s) = errorDispatched_ s /\
  events (timeout_ r s) =
    events s ++ [EventType.TIMEOUT; EventType.COMPLETE; EventType.ABORT;
                 EventType.READY].
Proof.
  intros Hx Ha.
  destruct (isActive_Some s Hx) as [x Ex].
  unfold timeout_. rewrite Ex.
  match goal with |- context [abort _ r ?m] => set (mid := m) end.
  assert (Mx : isActive mid = true) by exact Hx.
  assert (Ma : active_ mid = true) by exact Ha.
  destruct (abort_inFlight (Some ErrorCode.TIMEOUT) r mid Mx Ma)
    as (R & E & Ev).
  split; [exact R | split; [exact E|]].
  rewrite Ev. change (events mid) with (events s ++ [EventType.TIMEOUT]).
  rewrite <- app_assoc. reflexivity.
Qed.

Lemma timeout_released (r : list Notification) (s : XhrIo) :
  isActive s = false -> timeout_ r s = s.
Proof.
  intros Hx. unfold timeout_. now rewrite (isActive_None s Hx).
Qed.

(** The unified error path during a request in flight: COMPLETE, ERROR,
    READY, and the handle is released. *)
Lemma error_inFlight (r : list Notification) (code : ErrorCode.t)
    (err : string) (s : XhrIo) :
  inFlight s ->
  released (error_ r code err s) /\
  events (error_ r code err s) =
    events s ++ [EventType.COMPLETE; EventType.ERROR; EventType.READY].
Proof.
  intros (Hx & Ha & He).
  destruct (isActive_Some s Hx) as [x Ex].
  unfold error_.
  replace (xhr_ (set_active_ false s)) with (Some x) by (symmetry; exact Ex).
  set (s1 := set_inAbort_ true (set_active_ false s)).
  assert (H1 : active_ s1 = false) by reflexivity.
  pose proof (xhr_abort_samePhase r s1 H1) as (P1 & P2 & P3 & P4).
  set (s2 := xhr_abort r s1) in *.
  set (s3 := set_lastErrorCode_ code
               (set_lastError_ (Caught err) (set_inAbort_ false s2))).
  assert (E3 : errorDispatched_ s3 = false)
    by (change (errorDispatched_ s2 = false); rewrite P3; exact He).
  rewrite (dispatchErrors_first s3 E3).
  match goal with |- context [cleanUpXhr_ false ?m] => set (mid := m) end.
  assert (Mx : isActive mid = true) by (change (isActive s2 = true); rewrite P1; exact Hx).
  assert (Ma : active_ mid = false) by (change (active_ s2 = false); rewrite P2; reflexivity).
  assert (Mev : events mid =
                events s ++ [EventType.COMPLETE; EventType.ERROR]).
  { change (events mid)
      with ((events s2 ++ [EventType.COMPLETE]) ++ [EventType.ERROR]).
    rewrite P4, <- app_assoc. reflexivity. }
  destruct (cleanUpXhr_frame false mid) as (Fa & _).
  split; [split|].
  - apply cleanUpXhr_released.
  - congruence.
  - rewrite (cleanUpXhr_events false mid Mx), Mev, <- app_assoc. reflexivity.
Qed.

(** One stimulus during a request in flight either leaves it in flight,
    with progress reported at most, or ends the cycle. *)
Lemma step_inFlight (i : Stimulus) (s : XhrIo) :
  inFlight s ->
  (inFlight (step i s) /\
   exists k,
     events (step i s) = events s ++ repeat EventType.READY_STATE_CHANGE k)
  \/
  (released (step i s) /\
   exists k ending,
     Ending ending /\
     events (step i s) =
       events s ++ repeat EventType.READY_STATE_CHANGE k ++ ending).
Proof.
  intros Hf. pose proof Hf as (Hx & Ha & He).
  assert (Progress : forall s',
    inFlight s' ->
    events s' = events s \/
    events s' = events s ++ [EventType.READY_STATE_CHANGE] ->
    inFlight s' /\
    exists k, events s' = events s ++ repeat EventType.READY_STATE_CHANGE k).
  { intros s' F [E | E]; (split; [exact F|]).
    - exists 0%nat. simpl. now rewrite app_nil_r.
    - now exists 1%nat. }
  assert (Outcome : forall s',
    released s' ->
    events s' = events s ++ [EventType.READY_STATE_CHANGE; EventType.COMPLETE;
                             EventType.SUCCESS; EventType.READY] \/
    events s' = events s ++ [EventType.READY_STATE_CHANGE; EventType.COMPLETE;
                             EventType.ERROR; EventType.READY] ->
    released s' /\
    exists k ending,
      Ending ending /\
      events s' = events s ++ repeat EventType.READY_STATE_CHANGE k ++ ending).
  { intros s' R [E | E]; (split; [exact R|]); exists 1%nat;
      eexists; (split; [|exact E]); constructor. }
  destruct i as [n | id r | r | code r]; simpl.
  - destruct (notify_inFlight n s Hf) as [(F & _ & E) | (R & _ & _ & _ & E)];
      [left | right]; auto.
  - unfold fireTimer.
    destruct (find (fun t => (timerId t =? id)%Z) (timers s)) as [t|];
      [|left; apply Progress; auto].
    set (s1 := Timer_clear id s).
    assert (F1 : inFlight s1) by exact Hf.
    destruct (timerCallback t).
    + right. destruct (timeout_inFlight r s1 Hx Ha) as (R & _ & E).
      split; [exact R|]. exists 0%nat. eexists. split; [|exact E]. constructor.
    + destruct (onReadyStateChange_inFlight s1 F1)
        as [(F & _ & E) | (R & _ & _ & _ & E)]; [left | right]; auto.
  - unfold fireNativeTimeout.
    destruct (isActive_Some s Hx) as [x Ex]. rewrite Ex.
    destruct (ontimeout x); try solve [left; apply Progress; auto].
    right. destruct (timeout_inFlight r s Hx Ha) as (R & _ & E).
    split; [exact R|]. exists 0%nat. eexists. split; [|exact E]. constructor.
  - right. destruct (abort_inFlight code r s Hx Ha) as (R & _ & E).
    split; [exact R|]. exists 0%nat. eexists. split; [|exact E]. constructor.
Qed.

Lemma notify_released (n : Notification) (s : XhrIo) :
  released s -> notify n s = s.
Proof.
  intros (Hx & Ha). rewrite (notify_inactive n s Ha).
  unfold notified, update_xhr. now rewrite (isActive_None s Hx).
Qed.

(** Once the handle is released, no stimulus dispatches anything. *)
Lemma step_released (i : Stimulus) (s : XhrIo) :
  released s -> released (step i s) /\ events (step i s) = events s.
Proof.
  intros R. pose proof R as (Hx & Ha).
  destruct i as [n | id r | r | code r]; simpl.
  - rewrite (notify_released n s R). auto.
  - unfold fireTimer.
    destruct (find (fun t => (timerId t =? id)%Z) (timers s)) as [t|]; [|auto].
    set (s1 := Timer_clear id s).
    assert (R1 : released s1) by exact R.
    destruct (timerCallback t).
    + rewrite (timeout_released r s1 Hx). auto.
    + rewrite (onReadyStateChange_inactive s1 Ha). auto.
  - unfold fireNativeTimeout. rewrite (isActive_None s Hx). auto.
  - rewrite (abort_released code r s Ha). auto.
Qed.

Lemma run_released (stimuli : list Stimulus) (s : XhrIo) :
  released s ->
  released (run stimuli s) /\ events (run stimuli s) = events s.
Proof.
  revert s. induction stimuli as [|i rest IH]; intros s R.
  - auto.
  - change (run (i :: rest) s) with (run rest (step i s)).
    destruct (step_released i s R) as (R' & E).
    destruct (IH (step i s) R') as (R'' & E').
    split; [exact R'' | congruence].
Qed.

Lemma repeat_app_plus {A : Type} (a : A) (j k : nat) :
  repeat a j ++ repeat a k = repeat a (j + k).
Proof. symmetry. apply repeat_app. Qed.


(* ------------------------------------------------------------------ *)
(** ** [send], phase by phase *)

Lemma armTimeout_samePhase (s : XhrIo) : samePhase s (armTimeout s).
Proof.
  unfold armTimeout.
  destruct (number_gt (timeoutInterval_ s) (Num 0)); [|apply samePhase_refl].
  match goal with |- context [useXhr2Timeout_ ?m] => set (s1 := m) end.
  assert (P1 : samePhase s s1).
  { subst s1. destruct (xhr_ s); repeat split. }
  destruct (useXhr2Timeout_ s1).
  - eapply samePhase_trans; [exact P1|].
    eapply samePhase_trans; apply update_xhr_samePhase.
  - eapply samePhase_trans; [exact P1|]. repeat split.
Qed.

Lemma setRequestHeaders_samePhase (hs : list (string * string)) (s : XhrIo) :
  samePhase s
    (fold_left
       (fun acc kv => logCall (Call_setRequestHeader (fst kv) (snd kv)) acc)
       hs s).
Proof.
  revert s. induction hs as [|kv hs IH]; intros s; simpl.
  - apply samePhase_refl.
  - eapply samePhase_trans; [|apply IH]. repeat split.
Qed.

Lemma configure_samePhase (hs : list (string * string)) (s : XhrIo) :
  samePhase s (configure hs s).
Proof.
  unfold configure.
  eapply samePhase_trans; [|apply armTimeout_samePhase].
  eapply samePhase_trans; [|apply cleanUpTimeoutTimer_samePhase].
  match goal with |- samePhase _ (match xhr_ ?m with _ => _ end) =>
    set (sh := m) end.
  assert (Ph : samePhase s sh).
  { subst sh.
    match goal with
    | |- samePhase _ (if ?c then _ else _) => destruct c
    end.
    - eapply samePhase_trans; [|apply update_xhr_samePhase].
      apply setRequestHeaders_samePhase.
    - apply setRequestHeaders_samePhase. }
  destruct (xhr_ sh) as [xh|]; [destruct (hasWithCredentials xh)|];
    try exact Ph.
  eapply samePhase_trans; [exact Ph | apply update_xhr_samePhase].
Qed.

(** The state in which [send] calls the handle's [open]. *)
Lemma send_opening (t : Transport) (url : string) (method : string)
    (s : XhrIo) :
  let s0 :=
    logCall (Call_open method url)
      (set_inOpen_ true
         (update_xhr (xhr_with_onreadystatechange Handler_bound)
            (set_xhrOptions_ (Some (getOptions t))
               (set_xhr_ (Some (createInstance t))
                  (set_active_ true
                     (set_errorDispatched_ false
                        (set_lastMethod_ method
                           (set_lastErrorCode_ ErrorCode.NO_ERROR
                              (set_lastError_ NoMessage
                                 (set_lastUri_ url s)))))))))) in
  inFlight s0 /\ events s0 = events s.
Proof.
  unfold inFlight, isActive, update_xhr. simpl. auto.
Qed.

(** What [send] does to the phase and the event log when [open] fires
    nothing at complete readiness: the request is in flight afterwards,
    or an exception from [open] or [send] ended it with the error pair. *)
Lemma send_phase (t : Transport) (url : string) (opt_method : option string)
    (opt_content : option Content)
    (opt_headers : option (list (string * string))) (s : XhrIo) :
  isActive s = false ->
  opensQuietly t ->
  (inFlight (fst (send t url opt_method opt_content opt_headers s)) /\
   snd (send t url opt_method opt_content opt_headers s) = Returned tt /\
   raised (onOpen t) = None /\ raised (onSend t) = None /\
   exists k,
     events (fst (send t url opt_method opt_content opt_headers s)) =
       events s ++ repeat EventType.READY_STATE_CHANGE k)
  \/
  (released (fst (send t url opt_method opt_content opt_headers s)) /\
   snd (send t url opt_method opt_content opt_headers s) = Returned tt /\
   (raised (onOpen t) <> None \/ raised (onSend t) <> None) /\
   exists k,
     events (fst (send t url opt_method opt_content opt_headers s)) =
       events s ++ repeat EventType.READY_STATE_CHANGE k ++
       [EventType.COMPLETE; EventType.ERROR; EventType.READY]).
Proof.
  intros Hx Hq. unfold send. rewrite (isActive_None s Hx).
  match goal with |- context [toUpperCase] =>
    set (method := match opt_method with
                   | Some m => if string_truthy m then toUpperCase m else "GET"
                   | None => "GET"
                   end)
  end.
  destruct (send_opening t url method s) as (F0 & E0).
  match type of F0 with inFlight ?m => set (s0 := m) in * end.
  destruct (react_inFlight_quiet (fired (onOpen t)) s0 F0 (or_introl Hq))
    as (F1 & _ & k1 & E1).
  set (s1 := react (fired (onOpen t)) s0) in *. clearbody s1. clearbody s0.
  destruct (raised (onOpen t)) as [err|] eqn:Ro.
  - right. cbn [fst snd].
    destruct (error_inFlight (onAbort t) ErrorCode.EXCEPTION err s1 F1)
      as (R & E).
    split; [exact R | split; [reflexivity | split; [left; discriminate|]]].
    exists k1. rewrite E, E1, E0, <- app_assoc. reflexivity.
  - assert (F2 : inFlight (set_inOpen_ false s1)) by exact F1.
    destruct (isActive_Some _ (proj1 F2)) as [x2 Ex2].
    rewrite Ex2.
    match goal with |- context [logCall (Call_send ?c) _] =>
      set (content := c) end.
    match goal with |- context [logCall (Call_send content) ?m] =>
      set (s3 := m) end.
    assert (P3 : samePhase s1 s3).
    { subst s3.
      eapply samePhase_trans; [|apply samePhase_refl].
      eapply samePhase_trans; [|apply configure_samePhase].
      repeat split. }
    set (s4 := logCall (Call_send content) s3).
    assert (F4 : inFlight s4).
    { apply (samePhase_inFlight s1); [|exact F1].
      eapply samePhase_trans; [exact P3|]. repeat split. }
    assert (E4 : events s4 = events s1) by (destruct P3 as (_ & _ & _ & E); exact E).
    assert (I4 : inSend_ s4 = true).
    { subst s4 s3. reflexivity. }
    destruct (react_inFlight_quiet (fired (onSend t)) s4 F4 (or_intror I4))
      as (F5 & _ & k5 & E5).
    set (s5 := react (fired (onSend t)) s4) in *. clearbody s5. clearbody s4.
    destruct (raised (onSend t)) as [err|] eqn:Rs.
    + right. cbn [fst snd].
      destruct (error_inFlight (onAbort t) ErrorCode.EXCEPTION err s5 F5)
        as (R & E).
      split; [exact R | split; [reflexivity | split; [right; discriminate|]]].
      exists (k1 + k5)%nat.
      rewrite E, E5, E4, E1, E0, <- !app_assoc.
      rewrite app_assoc with (l := repeat _ k1), repeat_app_plus.
      reflexivity.
    + left. cbn [fst snd].
      split; [exact F5 | split; [reflexivity | split; [reflexivity|split; [reflexivity|]]]].
      exists (k1 + k5)%nat. simpl events.
      rewrite E5, E4, E1, E0, <- !app_assoc, repeat_app_plus. reflexivity.
Qed.

(* ------------------------------------------------------------------ *)
(** ** Request cycles *)

Lemma skipn_length_app {A : Type} (l1 l2 : list A) :
  skipn (List.length l1) (l1 ++ l2) = l2.
Proof.
  induction l1 as [|a l1 IH]; simpl; [reflexivity | exact IH].
Qed.

Lemma eventsSince_app (before l : list EventType.t) (s : XhrIo) :
  events s = before ++ l -> eventsSince before s = l.
Proof.
  intros E. unfold eventsSince. rewrite E. apply skipn_length_app.
Qed.


(* ------------------------------------------------------------------ *)
(** ** Accounting for the error pair *)























(* ------------------------------------------------------------------ *)
(** ** A completion notification inside [send] *)

Lemma notified_getReadyState (n : Notification) (s : XhrIo) :
  isActive s = true -> getReadyState (notified n s) = nReadyState n.
Proof.
  intros Hx. destruct (isActive_Some s Hx) as [x Ex].
  unfold notified, update_xhr, getReadyState. rewrite Ex. reflexivity.
Qed.

(** Inside [send], a notification at complete readiness dispatches
    nothing and leaves the request in flight, disposed or not. *)
Lemma notify_complete_inside_send (n : Notification) (s : XhrIo) :
  inFlight s ->
  inSend_ s = true ->
  nReadyState n = ReadyState.COMPLETE ->
  events (notify n s) = events s /\ inFlight (notify n s) /\
  inSend_ (notify n s) = true.
Proof.
  intros Hf Hs Hn. pose proof Hf as (Hx & Ha & He).
  pose proof (notified_samePhase n s) as Hp.
  pose proof (samePhase_inFlight _ _ Hp Hf) as Hf1.
  destruct Hp as (_ & _ & _ & Pev).
  assert (Hc : isComplete (notified n s) = true).
  { unfold isComplete. rewrite (notified_getReadyState n s Hx), Hn. reflexivity. }
  assert (Hs1 : inSend_ (notified n s) = true)
    by (rewrite notified_inSend; exact Hs).
  unfold notify. fold (notified n s).
  destruct (disposed_ (notified n s)) eqn:Hd.
  - rewrite (onReadyStateChange_disposed _ Hd). auto.
  - rewrite (onReadyStateChange_helper _ Hd).
    destruct (helper_cases (notified n s) (proj1 (proj2 Hf1)))
      as [(_ & ->) | [(_ & _ & _ & ->) | [(_ & C & _) | (_ & S & _)]]];
      try congruence; auto.
Qed.

Lemma react_complete_inside_send (ns : list Notification) (s : XhrIo) :
  inFlight s ->
  inSend_ s = true ->
  Forall (fun n => nReadyState n = ReadyState.COMPLETE) ns ->
  events (react ns s) = events s /\ inFlight (react ns s).
Proof.
  revert s. induction ns as [|n ns IH]; intros s Hf Hs Hall; [auto|].
  change (react (n :: ns) s) with (react ns (notify n s)).
  inversion Hall as [|? ? Hn Hrest]; subst.
  destruct (notify_complete_inside_send n s Hf Hs Hn) as (E1 & F1 & S1).
  destruct (IH (notify n s) F1 S1 Hrest) as (E2 & F2).
  split; [congruence | exact F2].
Qed.

(** A handle that answers from its cache: [open] is silent, [send]
    fires only notifications at complete readiness and returns.  Then
    [send] returns with the request in flight and nothing dispatched. *)
Lemma send_defers_completions (t : Transport) (url : string)
    (opt_method : option string) (opt_content : option Content)
    (opt_headers : option (list (string * string))) (s : XhrIo) :
  isActive s = false ->
  fired (onOpen t) = [] ->
  raised (onOpen t) = None ->
  raised (onSend t) = None ->
  Forall (fun n => nReadyState n = ReadyState.COMPLETE) (fired (onSend t)) ->
  inFlight (fst (send t url opt_method opt_content opt_headers s)) /\
  events (fst (send t url opt_method opt_content opt_headers s)) = events s /\
  snd (send t url opt_method opt_content opt_headers s) = Returned tt.
Proof.
  intros Hx Fo Ro Rs Hall. unfold send. rewrite (isActive_None s Hx).
  match goal with |- context [toUpperCase] =>
    set (method := match opt_method with
                   | Some m => if string_truthy m then toUpperCase m else "GET"
                   | None => "GET"
                   end)
  end.
  destruct (send_opening t url method s) as (F0 & E0).
  match type of F0 with inFlight ?m => set (s0 := m) in * end.
  rewrite Fo, Ro. change (react [] s0) with s0. clearbody s0.
  assert (F2 : inFlight (set_inOpen_ false s0)) by exact F0.
  destruct (isActive_Some _ (proj1 F2)) as [x2 Ex2]. rewrite Ex2.
  match goal with |- context [logCall (Call_send ?c) _] =>
    set (content := c) end.
  match goal with |- context [logCall (Call_send content) ?m] =>
    set (s3 := m) end.
  assert (P3 : samePhase s0 s3).
  { subst s3. eapply samePhase_trans; [|apply samePhase_refl].
    eapply samePhase_trans; [|apply configure_samePhase]. repeat split. }
  set (s4 := logCall (Call_send content) s3).
  assert (F4 : inFlight s4).
  { apply (samePhase_inFlight s0); [|exact F0].
    eapply samePhase_trans; [exact P3|]. repeat split. }
  assert (E4 : events s4 = events s0)
    by (destruct P3 as (_ & _ & _ & E); exact E).
  assert (I4 : inSend_ s4 = true) by reflexivity.
  destruct (react_complete_inside_send (fired (onSend t)) s4 F4 I4 Hall)
    as (E5 & F5).
  set (s5 := react (fired (onSend t)) s4) in *. clearbody s5. clearbody s4.
  rewrite Rs. cbn [fst snd].
  split; [exact F5 | split; [|reflexivity]].
  change (events (set_inSend_ false s5)) with (events s5). congruence.
Qed.

(** C3.  A notification that reports complete readiness while the
    controller is inside its own call of the handle's [send] (the
    controller not disposed, the request in flight) is not processed
    inline: the handler returns having dispatched nothing, with the
    request still in flight.  Unless the notification is the
    local-request-error signal, which the handler's preceding branch
    drops, the handler has registered itself with goog.Timer at delay 0;
    and when the handler runs again after [send] has returned, it
    dispatches READY_STATE_CHANGE, the outcome pair and READY, and
    releases the handle.  So a [send] whose handle answers from its
    cache ([open] silent, [send] firing only notifications at complete
    readiness and returning) returns with the request in flight and no
    event dispatched. *)
Theorem completion_inside_send_is_deferred (n : Notification) (s : XhrIo) :
  disposed_ s = false ->
  inFlight s ->
  inSend_ s = true ->
  nReadyState n = ReadyState.COMPLETE ->
  (events (notify n s) = events s /\ inFlight (notify n s))
  /\
  (localRequestErrorSignal (notified n s) = false ->
   notify n s =
     snd (Timer_callOnce Callback_onReadyStateChange_ (Num 0) (notified n s))
   /\ timers (notify n s) =
        timers s ++
        [mkTimer (nextTimerId s) Callback_onReadyStateChange_ (Num 0)]
   /\ let later := onReadyStateChange_ (set_inSend_ false (notify n s)) in
      released later /\
      (events later =
         events s ++ [EventType.READY_STATE_CHANGE; EventType.COMPLETE;
                      EventType.SUCCESS; EventType.READY]
       \/ events later =
         events s ++ [EventType.READY_STATE_CHANGE; EventType.COMPLETE;
                      EventType.ERROR; EventType.READY]))
  /\
  (forall (t : Transport) (url : string) (opt_method : option string)
          (opt_content : option Content)
          (opt_headers : option (list (string * string))) (idle : XhrIo),
     isActive idle = false ->
     fired (onOpen t) = [] ->
     raised (onOpen t) = None ->
     raised (onSend t) = None ->
     Forall (fun m => nReadyState m = ReadyState.COMPLETE)
       (fired (onSend t)) ->
     inFlight (fst (send t url opt_method opt_content opt_headers idle)) /\
     events (fst (send t url opt_method opt_content opt_headers idle)) =
       events idle /\
     snd (send t url opt_method opt_content opt_headers idle) = Returned tt).
Proof.
  intros Hd Hf Hs Hn. pose proof Hf as (Hx & Ha & He).
  pose proof (notified_samePhase n s) as Hp.
  pose proof (samePhase_inFlight _ _ Hp Hf) as Hf1.
  destruct Hp as (Px & Pa & Pe & Pev).
  assert (Hc : isComplete (notified n s) = true).
  { unfold isComplete. rewrite (notified_getReadyState n s Hx), Hn. reflexivity. }
  assert (Hh : notify n s = onReadyStateChangeHelper_ (notified n s)).
  { unfold notify. fold (notified n s).
    apply onReadyStateChange_helper. rewrite notified_disposed. exact Hd. }
  split; [|split].
  - rewrite Hh.
    destruct (helper_cases (notified n s) (proj1 (proj2 Hf1)))
      as [(_ & ->) | [(_ & _ & _ & ->) | [(_ & C & _) | (_ & S & _)]]].
    + split; [exact Pev | exact Hf1].
    + split; [exact Pev | exact Hf1].
    + congruence.
    + rewrite notified_inSend in S. congruence.
  - intros Hq.
    assert (Hstep : notify n s =
              snd (Timer_callOnce Callback_onReadyStateChange_ (Num 0)
                     (notified n s))).
    { rewrite Hh.
      destruct (helper_cases (notified n s) (proj1 (proj2 Hf1)))
        as [(Q & _) | [(_ & _ & _ & ->) | [(_ & C & _) | (_ & S & _)]]].
      - congruence.
      - reflexivity.
      - congruence.
      - rewrite notified_inSend in S. congruence. }
    split; [exact Hstep|]. rewrite Hstep.
    split.
    { unfold notified, update_xhr. destruct (xhr_ s); reflexivity. }
    set (s2 := set_inSend_ false
                 (snd (Timer_callOnce Callback_onReadyStateChange_ (Num 0)
                         (notified n s)))).
    assert (F2 : inFlight s2) by exact Hf1.
    assert (C2 : isComplete s2 = true) by exact Hc.
    assert (E2 : events s2 = events s) by exact Pev.
    cbv zeta.
    destruct (onReadyStateChange_inFlight s2 F2)
      as [(F & _ & _) | (R & _ & _ & _ & E)].
    + exfalso. revert F.
      unfold onReadyStateChange_, onReadyStateChangeEntryPoint_.
      replace (disposed_ s2) with false
        by (symmetry; change (disposed_ (notified n s) = false);
            rewrite notified_disposed; exact Hd).
      assert (H2 : onReadyStateChangeHelper_ s2 = terminalBranch s2).
      { destruct (helper_cases s2 (proj1 (proj2 F2)))
          as [(Q & _) | [(_ & S & _) | [(_ & C & _) | (_ & _ & _ & H)]]].
        - change (localRequestErrorSignal (notified n s) = true) in Q.
          congruence.
        - discriminate S.
        - congruence.
        - exact H. }
      rewrite H2.
      destruct (terminalBranch_effect s2 (proj1 F2)) as (T & _).
      intros (F & _).
      destruct (negb (inOpen_ s2) && negb (inSend_ s2) && negb (inAbort_ s2));
        congruence.
    + split; [exact R|]. rewrite E2 in E. exact E.
  - intros t url opt_method opt_content opt_headers idle.
    apply send_defers_completions.
Qed.

(* ------------------------------------------------------------------ *)
(** ** Disposal *)

Lemma cleanUpXhr_timers (b : bool) (s : XhrIo) :
  isActive s = true ->
  timers (cleanUpXhr_ b s) =
    match timeoutId_ s with
    | Some id => filter (fun t => negb (timerId t =? id)%Z) (timers s)
    | None => timers s
    end /\
  timeoutId_ (cleanUpXhr_ b s) = None.
Proof.
  intros Hx. destruct (isActive_Some s Hx) as [x Ex].
  unfold cleanUpXhr_, cleanUpTimeoutTimer_, Timer_clear. rewrite Ex.
  destruct (useXhr2Timeout_ s), (timeoutId_ s) eqn:Et, b; simpl;
    rewrite ?Et; auto.
Qed.

Lemma xhr_abort_timers (r : list Notification) (s : XhrIo) :
  active_ s = false ->
  timers (xhr_abort r s) = timers s /\
  timeoutId_ (xhr_abort r s) = timeoutId_ s.
Proof.
  intros Ha.
  destruct (xhr_abort_inactive r s Ha) as [-> | [n ->]]; [auto|].
  unfold notified, update_xhr.
  destruct (xhr_ (logCall Call_abort s)); auto.
Qed.

(** What [abort] does to the handle and the timers. *)
Lemma abort_teardown (code : option ErrorCode.t) (r : list Notification)
    (s : XhrIo) :
  isActive s = true -> active_ s = true ->
  calls (abort code r s) = calls s ++ [Call_abort] /\
  timers (abort code r s) =
    match timeoutId_ s with
    | Some id => filter (fun t => negb (timerId t =? id)%Z) (timers s)
    | None => timers s
    end /\
  timeoutId_ (abort code r s) = None.
Proof.
  intros Hx Ha. destruct (isActive_Some s Hx) as [x Ex].
  unfold abort. rewrite Ex, Ha.
  set (s1 := set_inAbort_ true (set_active_ false s)).
  assert (H1 : active_ s1 = false) by reflexivity.
  pose proof (xhr_abort_samePhase r s1 H1) as (P1 & _).
  pose proof (xhr_abort_calls r s1 H1) as Pc.
  pose proof (xhr_abort_timers r s1 H1) as (Pt & Pi).
  set (s2 := xhr_abort r s1) in *.
  match goal with |- context [cleanUpXhr_ false ?m] => set (mid := m) end.
  assert (Mx : isActive mid = true)
    by (change (isActive s2 = true); rewrite P1; exact Hx).
  destruct (cleanUpXhr_frame false mid) as (_ & _ & Fc & _).
  destruct (cleanUpXhr_timers false mid Mx) as (Ft & Fi).
  rewrite Fc, Ft, Fi.
  change (calls mid) with (calls s2). change (timers mid) with (timers s2).
  change (timeoutId_ mid) with (timeoutId_ s2).
  rewrite Pc, Pt, Pi. auto.
Qed.

(** C4.  [dispose] while a request is active: the handle's [abort] is
    called and the handle is released, with the same calls into the
    handle and the same timers left as after [abort()], but no event is
    dispatched, whatever the handle fires while it is being aborted.
    The same holds of [disposeInternal] on its own. *)
Theorem dispose_while_active_is_silent (r : list Notification) (s : XhrIo) :
  isActive s = true ->
  active_ s = true ->
  (events (disposeInternal r s) = events s /\
   isActive (disposeInternal r s) = false /\
   active_ (disposeInternal r s) = false /\
   calls (disposeInternal r s) = calls s ++ [Call_abort] /\
   calls (disposeInternal r s) = calls (abort None r s) /\
   timers (disposeInternal r s) = timers (abort None r s) /\
   timeoutId_ (disposeInternal r s) = None)
  /\
  (disposed_ s = false ->
   events (dispose r s) = events s /\
   isActive (dispose r s) = false /\
   active_ (dispose r s) = false /\
   disposed_ (dispose r s) = true /\
   calls (dispose r s) = calls s ++ [Call_abort]).
Proof.
  intros Hx Ha.
  assert (Core : forall s0,
    isActive s0 = true -> active_ s0 = true ->
    events (disposeInternal r s0) = events s0 /\
    isActive (disposeInternal r s0) = false /\
    active_ (disposeInternal r s0) = false /\
    calls (disposeInternal r s0) = calls s0 ++ [Call_abort] /\
    timers (disposeInternal r s0) =
      match timeoutId_ s0 with
      | Some id => filter (fun t => negb (timerId t =? id)%Z) (timers s0)
      | None => timers s0
      end /\
    timeoutId_ (disposeInternal r s0) = None /\
    disposed_ (disposeInternal r s0) = disposed_ s0).
  { intros s0 Hx0 Ha0. destruct (isActive_Some s0 Hx0) as [x Ex].
    unfold disposeInternal. rewrite Ex, Ha0.
    set (s1 := set_inAbort_ true (set_active_ false s0)).
    assert (H1 : active_ s1 = false) by reflexivity.
    pose proof (xhr_abort_samePhase r s1 H1) as (P1 & P2 & _ & P4).
    pose proof (xhr_abort_calls r s1 H1) as Pc.
    pose proof (xhr_abort_timers r s1 H1) as (Pt & Pi).
    assert (Pd : disposed_ (xhr_abort r s1) = disposed_ s0).
    { destruct (xhr_abort_inactive r s1 H1) as [-> | [n ->]]; [reflexivity|].
      rewrite notified_disposed. reflexivity. }
    set (s2 := xhr_abort r s1) in *.
    set (mid := set_inAbort_ false s2).
    assert (Mx : isActive mid = true)
      by (change (isActive s2 = true); rewrite P1; exact Hx0).
    destruct (cleanUpXhr_frame true mid) as (Fa & _ & Fc & _ & Fd).
    destruct (cleanUpXhr_timers true mid Mx) as (Ft & Fi).
    rewrite (cleanUpXhr_events true mid Mx), (cleanUpXhr_released true mid),
      Fa, Fc, Ft, Fi, Fd.
    change (events mid) with (events s2). change (active_ mid) with (active_ s2).
    change (calls mid) with (calls s2). change (timers mid) with (timers s2).
    change (timeoutId_ mid) with (timeoutId_ s2).
    change (disposed_ mid) with (disposed_ s2).
    rewrite P4, P2, Pc, Pt, Pi, Pd. repeat split; reflexivity. }
  destruct (abort_teardown None r s Hx Ha) as (Ac & At & _).
  split.
  - destruct (Core s Hx Ha) as (C1 & C2 & C3 & C4 & C5 & C6 & _).
    repeat split; congruence.
  - intros Hd. unfold dispose. rewrite Hd.
    destruct (Core (set_disposed_ true s) Hx Ha)
      as (C1 & C2 & C3 & C4 & _ & _ & C7).
    repeat split; assumption.
Qed.

(* ------------------------------------------------------------------ *)
(** ** Success classification *)

(** C5.  [isSuccess] holds exactly when the status is a success code of
    goog.net.HttpStatus.isSuccess, or the status is 0 and the effective
    scheme of the last URI is neither http nor https (in any letter
    case); every other status is a failure. *)
Theorem isSuccess_classification (s : XhrIo) :
  isSuccess s = true <->
  (HttpStatus_isSuccess (getStatus s) = true \/
   (getStatus s = 0 /\
    toLowerCase (getEffectiveScheme (lastUri_ s)) <> "http" /\
    toLowerCase (getEffectiveScheme (lastUri_ s)) <> "https")).
Proof.
  unfold isSuccess, isLastUriEffectiveSchemeHttp_.
  pose proof (HTTP_SCHEME_PATTERN_test_spec (getEffectiveScheme (lastUri_ s)))
    as Hp.
  rewrite orb_true_iff, andb_true_iff, negb_true_iff, Z.eqb_eq.
  destruct (HTTP_SCHEME_PATTERN_test (getEffectiveScheme (lastUri_ s))).
  - split; intros [H | (H0 & H1)]; auto; try discriminate.
    destruct H1 as (N1 & N2). destruct (proj1 Hp eq_refl); contradiction.
  - split; intros [H | (H0 & H1)]; auto; right; (split; [exact H0|]); auto.
    split; intros E; [assert (false = true) by (apply Hp; now left)
                     |assert (false = true) by (apply Hp; now right)];
      discriminate.
Qed.

(* ------------------------------------------------------------------ *)
(** ** [send] on a busy controller *)

(** C6.  [send] on a controller that holds a handle throws the "Object
    is active with another request" error and returns the controller
    as it was: no field is written. *)
Theorem send_while_active_rejects (t : Transport) (url : string)
    (opt_method : option string) (opt_content : option Content)
    (opt_headers : option (list (string * string))) (s : XhrIo) :
  isActive s = true ->
  send t url opt_method opt_content opt_headers s =
  (s, Threw (ActiveWithAnotherRequest (lastUri_ s) url)).
Proof.
  intros Hx. destruct (isActive_Some s Hx) as [x Ex].
  unfold send. rewrite Ex. reflexivity.
Qed.

(* ------------------------------------------------------------------ *)
(** ** The request carries on *)

Lemma carriesOn_refl (s : XhrIo) : carriesOn s s.
Proof. repeat split. Qed.

Lemma carriesOn_trans (a b c : XhrIo) :
  carriesOn a b -> carriesOn b c -> carriesOn a c.
Proof.
  unfold carriesOn.
  intros (A1 & A2 & A3 & A4 & A5 & A6 & A7) (B1 & B2 & B3 & B4 & B5 & B6 & B7).
  repeat split; congruence.
Qed.

Lemma notified_carriesOn (n : Notification) (s : XhrIo) :
  carriesOn s (notified n s).
Proof.
  unfold carriesOn, notified, update_xhr, handleTimeoutView,
    fallbackTimeoutArmed.
  destruct (xhr_ s) eqn:Ex; simpl; rewrite ?Ex; repeat split.
Qed.

Lemma existsb_snoc {A : Type} (p : A -> bool) (l : list A) (a : A) :
  existsb p (l ++ [a]) = existsb p l || p a.
Proof.
  rewrite existsb_app. simpl. now rewrite orb_false_r.
Qed.

(** A notification that does not end the cycle was dropped, deferred or
    reported as progress. *)
Lemma onReadyStateChange_stays (s : XhrIo) :
  inFlight s ->
  inFlight (onReadyStateChange_ s) ->
  onReadyStateChange_ s = s \/
  onReadyStateChange_ s =
    snd (Timer_callOnce Callback_onReadyStateChange_ (Num 0) s) \/
  onReadyStateChange_ s = dispatchEvent EventType.READY_STATE_CHANGE s.
Proof.
  intros Hf. pose proof Hf as (Hx & Ha & He).
  destruct (disposed_ s) eqn:Hd.
  - rewrite (onReadyStateChange_disposed s Hd). auto.
  - rewrite (onReadyStateChange_helper s Hd).
    destruct (helper_cases s Ha)
      as [(_ & ->) | [(_ & _ & _ & ->) | [(_ & _ & ->) | (_ & _ & _ & ->)]]];
      auto.
    intros (F & _).
    destruct (terminalBranch_effect s Hx) as (T & _). congruence.
Qed.

Lemma onReadyStateChange_carriesOn (s : XhrIo) :
  inFlight s ->
  inFlight (onReadyStateChange_ s) ->
  carriesOn s (onReadyStateChange_ s).
Proof.
  intros Hf Hf'.
  destruct (onReadyStateChange_stays s Hf Hf') as [-> | [-> | ->]].
  - apply carriesOn_refl.
  - unfold carriesOn, handleTimeoutView, fallbackTimeoutArmed. simpl.
    rewrite existsb_snoc. simpl. rewrite orb_false_r. repeat split.
  - repeat split.
Qed.

Lemma notify_carriesOn (n : Notification) (s : XhrIo) :
  inFlight s -> inFlight (notify n s) -> carriesOn s (notify n s).
Proof.
  intros Hf Hf'.
  apply (carriesOn_trans _ (notified n s)).
  - apply notified_carriesOn.
  - apply onReadyStateChange_carriesOn; [|exact Hf'].
    exact (samePhase_inFlight _ _ (notified_samePhase n s) Hf).
Qed.

Lemma react_carriesOn (ns : list Notification) (s : XhrIo) :
  inFlight s ->
  Forall (fun n => nReadyState n <> ReadyState.COMPLETE) ns \/
  inSend_ s = true ->
  carriesOn s (react ns s).
Proof.
  revert s. induction ns as [|n ns IH]; intros s Hf Hq.
  - apply carriesOn_refl.
  - change (react (n :: ns) s) with (react ns (notify n s)).
    assert (Hq1 : Forall (fun n => nReadyState n <> ReadyState.COMPLETE) [n]
                  \/ inSend_ s = true).
    { destruct Hq as [Hq | Hq]; [left | right; exact Hq].
      inversion Hq; subst. now constructor. }
    destruct (react_inFlight_quiet [n] s Hf Hq1) as (F1 & S1 & _).
    change (react [n] s) with (notify n s) in F1, S1.
    apply (carriesOn_trans _ (notify n s));
      [apply notify_carriesOn; assumption|].
    apply IH; [exact F1|].
    destruct Hq as [Hq | Hq]; [left; now inversion Hq | right; congruence].
Qed.

(* ------------------------------------------------------------------ *)
(** ** Calls into the handle *)

Lemma set_calls_twice (l1 l2 : list XhrCall) (s : XhrIo) :
  set_calls l2 (set_calls l1 s) = set_calls l2 s.
Proof. reflexivity. Qed.

Lemma setRequestHeaders_calls (hs : list (string * string)) (s : XhrIo) :
  fold_left
    (fun acc kv => logCall (Call_setRequestHeader (fst kv) (snd kv)) acc)
    hs s =
  set_calls
    (calls s ++
     map (fun kv => Call_setRequestHeader (fst kv) (snd kv)) hs) s.
Proof.
  revert s. induction hs as [|kv hs IH]; intros s; simpl.
  - rewrite app_nil_r. destruct s; reflexivity.
  - rewrite IH. unfold logCall. simpl.
    rewrite <- app_assoc. reflexivity.
Qed.

Lemma headersPassed_app (a b : list XhrCall) :
  headersPassed (a ++ b) = headersPassed a ++ headersPassed b.
Proof.
  induction a as [|c a IH]; simpl; [reflexivity|].
  destruct c; simpl; rewrite IH; reflexivity.
Qed.

Lemma headersPassed_setRequestHeaders (hs : list (string * string)) :
  headersPassed
    (map (fun kv => Call_setRequestHeader (fst kv) (snd kv)) hs) = hs.
Proof.
  induction hs as [|[k v] hs IH]; simpl; [reflexivity | now rewrite IH].
Qed.

Lemma armTimeout_calls (s : XhrIo) :
  calls (armTimeout s) = calls s /\ headers (armTimeout s) = headers s.
Proof.
  unfold armTimeout, update_xhr, Timer_callOnce.
  destruct (number_gt (timeoutInterval_ s) (Num 0)); [|auto].
  destruct (xhr_ s) as [x|] eqn:Ex; simpl.
  - destruct (shouldUseXhr2Timeout_ x); simpl; rewrite ?Ex; simpl; auto.
  - destruct (useXhr2Timeout_ s); simpl; rewrite ?Ex; auto.
Qed.

Lemma update_xhr_calls (f : Xhr -> Xhr) (s : XhrIo) :
  calls (update_xhr f s) = calls s.
Proof. unfold update_xhr. destruct (xhr_ s); reflexivity. Qed.

Lemma configure_calls (hs : list (string * string)) (s : XhrIo) :
  calls (configure hs s) =
  calls s ++ map (fun kv => Call_setRequestHeader (fst kv) (snd kv)) hs.
Proof.
  unfold configure. rewrite setRequestHeaders_calls.
  match goal with |- context [armTimeout ?m] =>
    destruct (armTimeout_calls m) as (-> & _) end.
  match goal with |- context [cleanUpTimeoutTimer_ ?m] =>
    destruct (cleanUpTimeoutTimer_frame m) as (_ & _ & _ & -> & _) end.
  match goal with |- context [set_calls ?l s] => set (s1 := set_calls l s) end.
  assert (H1 : calls (if ResponseType.truthy (responseType_ s1)
                      then update_xhr
                             (xhr_with_responseType (responseType_ s1)) s1
                      else s1) = calls s1).
  { destruct (ResponseType.truthy (responseType_ s1));
      [apply update_xhr_calls | reflexivity]. }
  match goal with |- calls (match xhr_ ?m with _ => _ end) = _ =>
    set (s2 := m) in * end.
  destruct (xhr_ s2) as [x|]; [destruct (hasWithCredentials x)|];
    rewrite ?update_xhr_calls; exact H1.
Qed.

Lemma callsSince_app (before l : list XhrCall) (s : XhrIo) :
  calls s = before ++ l -> callsSince before s = l.
Proof.
  intros E. unfold callsSince. rewrite E. apply skipn_length_app.
Qed.

Lemma error_calls (r : list Notification) (code : ErrorCode.t)
    (err : string) (s : XhrIo) :
  isActive s = true ->
  calls (error_ r code err s) = calls s ++ [Call_abort].
Proof.
  intros Hx. destruct (isActive_Some s Hx) as [x Ex].
  unfold error_.
  replace (xhr_ (set_active_ false s)) with (Some x) by (symmetry; exact Ex).
  match goal with |- context [cleanUpXhr_ false ?m] =>
    destruct (cleanUpXhr_frame false m) as (_ & _ & -> & _) end.
  set (s1 := set_inAbort_ true (set_active_ false s)).
  assert (H1 : active_ s1 = false) by reflexivity.
  pose proof (xhr_abort_calls r s1 H1) as Pc.
  set (s2 := xhr_abort r s1) in *.
  unfold dispatchErrors_.
  match goal with |- context [if ?c then _ else _] => destruct c end;
    exact Pc.
Qed.

(** The calls [send] makes into the handle when [open] returns
    normally, having fired nothing at complete readiness. *)
Lemma send_calls (t : Transport) (url : string) (opt_method : option string)
    (opt_content : option Content)
    (opt_headers : option (list (string * string))) (s : XhrIo) :
  isActive s = false ->
  opensQuietly t ->
  raised (onOpen t) = None ->
  let method :=
    match opt_method with
    | Some m => if string_truthy m then toUpperCase m else "GET"
    | None => "GET"
    end in
  let content :=
    match opt_content with
    | Some c => c
    | None => Text ""
    end in
  callsSince (calls s)
    (fst (send t url opt_method opt_content opt_headers s)) =
  Call_open method url ::
  map (fun kv => Call_setRequestHeader (fst kv) (snd kv))
    (requestHeaders method content opt_headers s) ++
  Call_send content ::
  match raised (onSend t) with
  | Some _ => [Call_abort]
  | None => []
  end.
Proof.
  intros Hx Hq Ro method content. apply callsSince_app.
  unfold send. rewrite (isActive_None s Hx). fold method. fold content.
  destruct (send_opening t url method s) as (F0 & _).
  match type of F0 with inFlight ?m => set (s0 := m) in * end.
  assert (C0 : calls s0 = calls s ++ [Call_open method url]).
  { subst s0. reflexivity. }
  assert (H0 : headers s0 = headers s).
  { subst s0. reflexivity. }
  destruct (react_inFlight_quiet (fired (onOpen t)) s0 F0 (or_introl Hq))
    as (F1 & _).
  pose proof (react_carriesOn (fired (onOpen t)) s0 F0 (or_introl Hq))
    as (H1 & C1 & _).
  set (s1 := react (fired (onOpen t)) s0) in *. clearbody s1. clearbody s0.
  rewrite Ro.
  assert (F2 : inFlight (set_inOpen_ false s1)) by exact F1.
  destruct (isActive_Some _ (proj1 F2)) as [x2 Ex2]. rewrite Ex2.
  assert (Hh : requestHeaders method content opt_headers
                 (set_inOpen_ false s1) =
               requestHeaders method content opt_headers s).
  { unfold requestHeaders. simpl headers. rewrite H1, H0. reflexivity. }
  rewrite Hh.
  set (hs := requestHeaders method content opt_headers s).
  set (s3 := set_inSend_ true (configure hs (set_inOpen_ false s1))).
  assert (C3 : calls s3 =
               calls s ++ Call_open method url ::
               map (fun kv => Call_setRequestHeader (fst kv) (snd kv)) hs).
  { subst s3. simpl calls. rewrite configure_calls. simpl calls.
    rewrite C1, C0, <- app_assoc. reflexivity. }
  assert (F3 : inFlight s3).
  { apply (samePhase_inFlight (set_inOpen_ false s1)); [|exact F2].
    eapply samePhase_trans; [apply configure_samePhase|]. repeat split. }
  set (s4 := logCall (Call_send content) s3).
  assert (F4 : inFlight s4) by exact F3.
  assert (I4 : inSend_ s4 = true) by reflexivity.
  assert (C4 : calls s4 =
               calls s ++ Call_open method url ::
               map (fun kv => Call_setRequestHeader (fst kv) (snd kv)) hs ++
               [Call_send content]).
  { change (calls s4) with (calls s3 ++ [Call_send content]).
    rewrite C3, <- app_assoc. reflexivity. }
  destruct (react_inFlight_quiet (fired (onSend t)) s4 F4 (or_intror I4))
    as (F5 & _).
  pose proof (react_carriesOn (fired (onSend t)) s4 F4 (or_intror I4))
    as (_ & C5 & _).
  set (s5 := react (fired (onSend t)) s4) in *. clearbody s5. clearbody s4.
  destruct (raised (onSend t)) as [err|]; cbn [fst].
  - rewrite (error_calls _ _ _ s5 (proj1 F5)), C5, C4.
    rewrite <- app_assoc. simpl. rewrite <- app_assoc. reflexivity.
  - change (calls (set_inSend_ false s5)) with (calls s5).
    rewrite C5, C4. reflexivity.
Qed.

(* ------------------------------------------------------------------ *)
(** ** The form content type *)

Lemma isContentTypeHeader_lower (k : string) :
  isContentTypeHeader_ k = String.eqb (toLowerCase k) "content-type".
Proof.
  unfold isContentTypeHeader_, caseInsensitiveEquals, CONTENT_TYPE_HEADER.
  simpl toLowerCase at 1. apply String.eqb_sym.
Qed.

Lemma contentTypeKey_truthy (k : string) :
  isContentTypeHeader_ k = true -> string_truthy k = true.
Proof.
  rewrite isContentTypeHeader_lower. destruct k; [discriminate | reflexivity].
Qed.

Lemma contentTypeKey_found (keys : list string) :
  match find isContentTypeHeader_ keys with
  | Some k => string_truthy k
  | None => false
  end =
  existsb (fun k => String.eqb (toLowerCase k) "content-type") keys.
Proof.
  induction keys as [|k keys IH]; simpl; [reflexivity|].
  rewrite <- isContentTypeHeader_lower.
  destruct (isContentTypeHeader_ k) eqn:Hk; simpl.
  - now apply contentTypeKey_truthy.
  - exact IH.
Qed.

Lemma Map_set_new_key (value : string) (m : list (string * string)) :
  existsb (fun k => String.eqb (toLowerCase k) "content-type") (map fst m)
    = false ->
  Map_set CONTENT_TYPE_HEADER value m = m ++ [(CONTENT_TYPE_HEADER, value)].
Proof.
  induction m as [|[k v] m IH]; simpl; [reflexivity|].
  intros H. apply orb_false_iff in H. destruct H as (Hk & Hm).
  destruct (String.eqb k CONTENT_TYPE_HEADER) eqn:Ek.
  - apply String.eqb_eq in Ek. subst k. discriminate Hk.
  - now rewrite IH.
Qed.

(** The header set [send] builds, against the claim's condition. *)
Lemma requestHeaders_spec (method : string) (content : Content)
    (opt_headers : option (list (string * string))) (s : XhrIo) :
  let supplied :=
    match opt_headers with
    | Some extra => Map_setAll extra (headers s)
    | None => headers s
    end in
  requestHeaders method content opt_headers s =
  if wantsFormContentType method supplied content
  then supplied ++ [(CONTENT_TYPE_HEADER, FORM_CONTENT_TYPE)]
  else supplied.
Proof.
  intros supplied. unfold requestHeaders, Map_clone. fold supplied.
  unfold wantsFormContentType, Map_getKeys.
  rewrite contentTypeKey_found.
  replace (array_contains METHODS_WITH_FORM_DATA method)
    with (String.eqb method "POST" || String.eqb method "PUT")
    by (unfold array_contains, METHODS_WITH_FORM_DATA; simpl;
        now rewrite orb_false_r).
  destruct (String.eqb method "POST" || String.eqb method "PUT");
    [|reflexivity].
  destruct (existsb (fun k => String.eqb (toLowerCase k) "content-type")
              (map fst supplied)) eqn:Hk; [reflexivity|].
  simpl negb. rewrite !andb_true_l.
  destruct (negb _); [|reflexivity].
  now apply Map_set_new_key.
Qed.

(* ------------------------------------------------------------------ *)
(** ** Timeout mechanisms *)

Lemma existsb_filter_false {A : Type} (p q : A -> bool) (l : list A) :
  existsb p l = false -> existsb p (filter q l) = false.
Proof.
  induction l as [|a l IH]; simpl; [reflexivity|].
  intros H. apply orb_false_iff in H. destruct H as (Ha & Hl).
  destruct (q a); simpl; rewrite ?Ha; auto.
Qed.

Lemma nativeTimeoutArmed_view (s : XhrIo) :
  nativeTimeoutArmed s =
  match handleTimeoutView s with
  | Some (_, OnTimeout_bound) => true
  | _ => false
  end.
Proof.
  unfold nativeTimeoutArmed, handleTimeoutView. destruct (xhr_ s); reflexivity.
Qed.

Lemma carriesOn_armed (s s' : XhrIo) :
  carriesOn s s' ->
  nativeTimeoutArmed s' = nativeTimeoutArmed s /\
  fallbackTimeoutArmed s' = fallbackTimeoutArmed s.
Proof.
  intros (_ & _ & _ & _ & _ & Hv & Hf).
  rewrite !nativeTimeoutArmed_view, Hv. auto.
Qed.

(** The timeout part of [send] when an interval is set, the handle
    having no timeout callback bound and no fallback registration
    pending: exactly one mechanism is armed, the handle's own one
    exactly when [shouldUseXhr2Timeout_] accepts the handle. *)
Lemma armTimeout_arms (s : XhrIo) (x : Xhr) :
  xhr_ s = Some x ->
  ontimeout x <> OnTimeout_bound ->
  fallbackTimeoutArmed s = false ->
  number_gt (timeoutInterval_ s) (Num 0) = true ->
  nativeTimeoutArmed (armTimeout s) = shouldUseXhr2Timeout_ x /\
  fallbackTimeoutArmed (armTimeout s) = negb (shouldUseXhr2Timeout_ x) /\
  useXhr2Timeout_ (armTimeout s) = shouldUseXhr2Timeout_ x.
Proof.
  intros Ex Hot Hfb Hgt.
  unfold armTimeout. rewrite Hgt, Ex.
  replace (useXhr2Timeout_ (set_useXhr2Timeout_ (shouldUseXhr2Timeout_ x) s))
    with (shouldUseXhr2Timeout_ x) by reflexivity.
  destruct (shouldUseXhr2Timeout_ x).
  - unfold update_xhr, nativeTimeoutArmed, fallbackTimeoutArmed in *.
    simpl. rewrite Ex. simpl. auto.
  - unfold Timer_callOnce, nativeTimeoutArmed, fallbackTimeoutArmed in *.
    simpl. rewrite Ex, existsb_snoc, Hfb. simpl.
    destruct (ontimeout x); auto. contradiction.
Qed.

(** The state in which [send] decides on the timeout mechanism: the
    handle still reports the timeout support it was created with, or
    an [ontimeout] that a stale flag made [cleanUpTimeoutTimer_] set to
    null. *)
Lemma configure_before_arming (hs : list (string * string)) (s : XhrIo)
    (x : Xhr) :
  xhr_ s = Some x ->
  ontimeout x <> OnTimeout_bound ->
  fallbackTimeoutArmed s = false ->
  exists s1 x1,
    configure hs s = armTimeout s1 /\
    xhr_ s1 = Some x1 /\
    timeout x1 = timeout x /\
    (ontimeout x1 = ontimeout x \/ ontimeout x1 = OnTimeout_null) /\
    fallbackTimeoutArmed s1 = false /\
    timeoutInterval_ s1 = timeoutInterval_ s.
Proof.
  intros Ex Hot Hfb.
  unfold configure. rewrite setRequestHeaders_calls.
  match goal with |- context [armTimeout ?m] => exists m end.
  match goal with |- context [set_calls ?l s] => set (s0 := set_calls l s) end.
  assert (E0 : xhr_ s0 = Some x) by exact Ex.
  assert (F0 : fallbackTimeoutArmed s0 = false) by exact Hfb.
  assert (I0 : timeoutInterval_ s0 = timeoutInterval_ s) by reflexivity.
  clearbody s0.
  assert (Step : forall f sa xa,
            xhr_ sa = Some xa ->
            xhr_ (update_xhr f sa) = Some (f xa) /\
            fallbackTimeoutArmed (update_xhr f sa) = fallbackTimeoutArmed sa /\
            timeoutInterval_ (update_xhr f sa) = timeoutInterval_ sa /\
            useXhr2Timeout_ (update_xhr f sa) = useXhr2Timeout_ sa /\
            timeoutId_ (update_xhr f sa) = timeoutId_ sa /\
            timers (update_xhr f sa) = timers sa).
  { intros f sa xa Ea. unfold update_xhr, fallbackTimeoutArmed.
    rewrite Ea. simpl. auto 10. }
  set (s1 := if ResponseType.truthy (responseType_ s0)
             then update_xhr (xhr_with_responseType (responseType_ s0)) s0
             else s0).
  assert (H1 : exists x1, xhr_ s1 = Some x1 /\ timeout x1 = timeout x /\
                          ontimeout x1 = ontimeout x /\
                          hasWithCredentials x1 = hasWithCredentials x /\
                          fallbackTimeoutArmed s1 = false /\
                          timeoutInterval_ s1 = timeoutInterval_ s).
  { subst s1. destruct (ResponseType.truthy (responseType_ s0)).
    - destruct (Step (xhr_with_responseType (responseType_ s0)) s0 x E0)
        as (A & B & C & _).
      eexists. split; [exact A|]. simpl. rewrite B, C. auto 10.
    - exists x. auto 10. }
  destruct H1 as (x1 & E1 & T1 & O1 & W1 & F1 & I1). clearbody s1.
  rewrite E1.
  set (s2 := if hasWithCredentials x1
             then update_xhr (xhr_with_withCredentials (withCredentials_ s1)) s1
             else s1).
  assert (H2 : exists x2, xhr_ s2 = Some x2 /\ timeout x2 = timeout x /\
                          ontimeout x2 = ontimeout x /\
                          fallbackTimeoutArmed s2 = false /\
                          timeoutInterval_ s2 = timeoutInterval_ s).
  { subst s2. destruct (hasWithCredentials x1).
    - destruct (Step (xhr_with_withCredentials (withCredentials_ s1)) s1 x1 E1)
        as (A & B & C & _).
      eexists. split; [exact A|]. simpl. rewrite B, C. auto 10.
    - exists x1. auto 10. }
  destruct H2 as (x2 & E2 & T2 & O2 & F2 & I2). clearbody s2.
  unfold cleanUpTimeoutTimer_, Timer_clear. rewrite E2.
  unfold fallbackTimeoutArmed in *.
  destruct (useXhr2Timeout_ s2); simpl;
    destruct (timeoutId_ s2); simpl;
    eexists; (split; [reflexivity|]);
    (split; [first [reflexivity | exact E2]|]); simpl;
    (split; [exact T2|]);
    (split; [first [left; exact O2 | right; reflexivity]|]);
    (split; [|exact I2]);
    auto using existsb_filter_false.
Qed.

(* ------------------------------------------------------------------ *)
(** ** Nothing but [send] arms a timeout *)

Lemma noArming_refl (s : XhrIo) : noArming s s.
Proof. split; auto. Qed.

Lemma noArming_trans (a b c : XhrIo) :
  noArming a b -> noArming b c -> noArming a c.
Proof. intros (A1 & A2) (B1 & B2). split; auto. Qed.

Lemma noArming_same (s s' : XhrIo) :
  nativeTimeoutArmed s' = nativeTimeoutArmed s ->
  fallbackTimeoutArmed s' = fallbackTimeoutArmed s ->
  noArming s s'.
Proof. intros H1 H2. split; congruence. Qed.

Lemma carriesOn_noArming (s s' : XhrIo) : carriesOn s s' -> noArming s s'.
Proof.
  intros H. destruct (carriesOn_armed _ _ H). now apply noArming_same.
Qed.

Lemma existsb_filter_true {A : Type} (p q : A -> bool) (l : list A) :
  existsb p (filter q l) = true -> existsb p l = true.
Proof.
  intros H. destruct (existsb p l) eqn:E; [reflexivity|].
  rewrite (existsb_filter_false p q l E) in H. discriminate.
Qed.

Lemma released_not_armed (s : XhrIo) :
  isActive s = false -> nativeTimeoutArmed s = false.
Proof.
  intros Hx. unfold nativeTimeoutArmed. now rewrite (isActive_None s Hx).
Qed.

Lemma cleanUpXhr_noArming (b : bool) (s : XhrIo) :
  noArming s (cleanUpXhr_ b s).
Proof.
  destruct (isActive s) eqn:Hx.
  - split.
    + rewrite (released_not_armed _ (cleanUpXhr_released b s)). discriminate.
    + unfold fallbackTimeoutArmed.
      destruct (cleanUpXhr_timers b s Hx) as (-> & _).
      destruct (timeoutId_ s); [apply existsb_filter_true | auto].
  - rewrite (cleanUpXhr_idle b s Hx). apply noArming_refl.
Qed.

Lemma cleanUpTimeoutTimer_noArming (s : XhrIo) :
  noArming s (cleanUpTimeoutTimer_ s).
Proof.
  unfold cleanUpTimeoutTimer_, Timer_clear, noArming, nativeTimeoutArmed,
    fallbackTimeoutArmed.
  destruct (xhr_ s) as [x|] eqn:Ex; [destruct (useXhr2Timeout_ s)|];
    simpl; destruct (timeoutId_ s); simpl; rewrite ?Ex;
    (split; intros H; try discriminate H; eauto using existsb_filter_true).
Qed.

Lemma dispatchErrors_noArming (s : XhrIo) : noArming s (dispatchErrors_ s).
Proof.
  unfold dispatchErrors_. destruct (errorDispatched_ s);
    [apply noArming_refl | now apply noArming_same].
Qed.

Lemma terminalBranch_noArming (s : XhrIo) :
  isActive s = true -> noArming s (terminalBranch s).
Proof.
  intros Hx. unfold terminalBranch.
  eapply noArming_trans; [|apply cleanUpXhr_noArming].
  match goal with |- context [if ?c then _ else _] => destruct c end.
  - now apply noArming_same.
  - eapply noArming_trans; [|apply dispatchErrors_noArming].
    now apply noArming_same.
Qed.

Lemma onReadyStateChange_noArming (s : XhrIo) :
  noArming s (onReadyStateChange_ s).
Proof.
  destruct (disposed_ s) eqn:Hd.
  - rewrite (onReadyStateChange_disposed s Hd). apply noArming_refl.
  - rewrite (onReadyStateChange_helper s Hd).
    destruct (active_ s) eqn:Ha.
    + destruct (helper_cases s Ha)
        as [(_ & ->) | [(_ & _ & _ & ->) | [(_ & _ & ->) | (_ & _ & Hc & ->)]]].
      * apply noArming_refl.
      * apply noArming_same; [reflexivity|].
        unfold fallbackTimeoutArmed. simpl. rewrite existsb_snoc. simpl.
        apply orb_false_r.
      * now apply noArming_same.
      * apply terminalBranch_noArming, isComplete_isActive, Hc.
    + rewrite (helper_inactive s Ha). apply noArming_refl.
Qed.

Lemma notify_noArming (n : Notification) (s : XhrIo) :
  noArming s (notify n s).
Proof.
  apply (noArming_trans _ (notified n s)).
  - apply carriesOn_noArming, notified_carriesOn.
  - apply onReadyStateChange_noArming.
Qed.

Lemma react_noArming (ns : list Notification) (s : XhrIo) :
  noArming s (react ns s).
Proof.
  revert s. induction ns as [|n ns IH]; intros s.
  - apply noArming_refl.
  - change (react (n :: ns) s) with (react ns (notify n s)).
    eapply noArming_trans; [apply notify_noArming | apply IH].
Qed.

Lemma error_noArming (r : list Notification) (code : ErrorCode.t)
    (err : string) (s : XhrIo) :
  noArming s (error_ r code err s).
Proof.
  unfold error_.
  eapply noArming_trans; [|apply cleanUpXhr_noArming].
  eapply noArming_trans; [|apply dispatchErrors_noArming].
  apply (noArming_trans _ (set_active_ false s)); [now apply noArming_same|].
  destruct (xhr_ (set_active_ false s)).
  - unfold xhr_abort.
    apply (noArming_trans _
             (react r (logCall Call_abort
                         (set_inAbort_ true (set_active_ false s))))).
    + eapply noArming_trans; [|apply react_noArming]. now apply noArming_same.
    + now apply noArming_same.
  - now apply noArming_same.
Qed.

Lemma update_xhr_noArming (f : Xhr -> Xhr) (s : XhrIo) :
  (forall x, ontimeout (f x) = ontimeout x) ->
  noArming s (update_xhr f s).
Proof.
  intros Hf. apply noArming_same.
  - unfold nativeTimeoutArmed, update_xhr.
    destruct (xhr_ s) as [x|] eqn:Ex; simpl; rewrite ?Ex, ?Hf; reflexivity.
  - unfold fallbackTimeoutArmed, update_xhr. destruct (xhr_ s); reflexivity.
Qed.

(** With no interval set, the part of [send] between [open] and [send]
    arms nothing. *)
Lemma configure_noArming (hs : list (string * string)) (s : XhrIo) :
  number_gt (timeoutInterval_ s) (Num 0) = false ->
  noArming s (configure hs s).
Proof.
  intros Hgt. unfold configure. rewrite setRequestHeaders_calls.
  match goal with |- context [set_calls ?l s] => set (s0 := set_calls l s) end.
  assert (A0 : noArming s s0) by now apply noArming_same.
  assert (I0 : timeoutInterval_ s0 = timeoutInterval_ s) by reflexivity.
  clearbody s0.
  set (s1 := if ResponseType.truthy (responseType_ s0)
             then update_xhr (xhr_with_responseType (responseType_ s0)) s0
             else s0).
  assert (A1 : noArming s s1 /\ timeoutInterval_ s1 = timeoutInterval_ s).
  { subst s1. destruct (ResponseType.truthy (responseType_ s0)).
    - split.
      + eapply noArming_trans; [exact A0|].
        apply update_xhr_noArming. reflexivity.
      + unfold update_xhr. destruct (xhr_ s0); exact I0.
    - auto. }
  destruct A1 as (A1 & I1). clearbody s1.
  match goal with |- context [cleanUpTimeoutTimer_ ?m] => set (s2 := m) end.
  assert (A2 : noArming s s2 /\ timeoutInterval_ s2 = timeoutInterval_ s).
  { subst s2. destruct (xhr_ s1) as [x1|]; [destruct (hasWithCredentials x1)|];
      auto.
    split.
    - eapply noArming_trans; [exact A1|].
      apply update_xhr_noArming. reflexivity.
    - unfold update_xhr. destruct (xhr_ s1); exact I1. }
  destruct A2 as (A2 & I2). clearbody s2.
  assert (I3 : timeoutInterval_ (cleanUpTimeoutTimer_ s2) = timeoutInterval_ s).
  { rewrite <- I2. unfold cleanUpTimeoutTimer_, Timer_clear.
    destruct (xhr_ s2); [destruct (useXhr2Timeout_ s2)|]; simpl;
      destruct (timeoutId_ s2); reflexivity. }
  unfold armTimeout. rewrite I3, Hgt.
  eapply noArming_trans; [exact A2 | apply cleanUpTimeoutTimer_noArming].
Qed.

Lemma onReadyStateChange_timeoutInterval (s : XhrIo) :
  timeoutInterval_ (onReadyStateChange_ s) = timeoutInterval_ s.
Proof.
  unfold onReadyStateChange_, onReadyStateChangeEntryPoint_,
    onReadyStateChangeHelper_, cleanUpXhr_, cleanUpTimeoutTimer_,
    dispatchErrors_, Timer_clear, Timer_callOnce.
  repeat match goal with
         | |- context [if ?c then _ else _] => destruct c; simpl
         | |- context [match ?c with Some _ => _ | None => _ end] =>
             destruct c; simpl
         end; reflexivity.
Qed.

Lemma react_timeoutInterval (ns : list Notification) (s : XhrIo) :
  timeoutInterval_ (react ns s) = timeoutInterval_ s.
Proof.
  revert s. induction ns as [|n ns IH]; intros s; [reflexivity|].
  change (react (n :: ns) s) with (react ns (notify n s)).
  rewrite IH. unfold notify. rewrite onReadyStateChange_timeoutInterval.
  unfold update_xhr. destruct (xhr_ s); reflexivity.
Qed.

(** A [send] with no interval set arms no timeout mechanism, whatever
    the handle does. *)
Lemma send_arms_nothing (t : Transport) (url : string)
    (opt_method : option string) (opt_content : option Content)
    (opt_headers : option (list (string * string))) (s : XhrIo) :
  number_gt (timeoutInterval_ s) (Num 0) = false ->
  isActive s = false ->
  freshHandle t ->
  fallbackTimeoutArmed s = false ->
  nativeTimeoutArmed
    (fst (send t url opt_method opt_content opt_headers s)) = false /\
  fallbackTimeoutArmed
    (fst (send t url opt_method opt_content opt_headers s)) = false.
Proof.
  intros Hgt Hx Hfresh Hfb.
  assert (Goal : forall s0 s',
    nativeTimeoutArmed s0 = false -> fallbackTimeoutArmed s0 = false ->
    noArming s0 s' ->
    nativeTimeoutArmed s' = false /\ fallbackTimeoutArmed s' = false).
  { intros s0 s' N B (A1 & A2). split.
    - destruct (nativeTimeoutArmed s'); [rewrite A1 in N; auto | reflexivity].
    - destruct (fallbackTimeoutArmed s'); [rewrite A2 in B; auto | reflexivity]. }
  unfold send. rewrite (isActive_None s Hx).
  match goal with |- context [toUpperCase] =>
    set (method := match opt_method with
                   | Some m => if string_truthy m then toUpperCase m else "GET"
                   | None => "GET"
                   end)
  end.
  destruct (send_opening t url method s) as (F0 & _).
  match type of F0 with inFlight ?m => set (s0 := m) in * end.
  assert (N0 : nativeTimeoutArmed s0 = false).
  { subst s0. unfold nativeTimeoutArmed, update_xhr. simpl.
    unfold freshHandle in Hfresh.
    destruct (ontimeout (createInstance t)); auto. contradiction. }
  assert (B0 : fallbackTimeoutArmed s0 = false) by exact Hfb.
  assert (I0 : timeoutInterval_ s0 = timeoutInterval_ s) by reflexivity.
  apply (Goal s0); [exact N0 | exact B0 |].
  pose proof (react_noArming (fired (onOpen t)) s0) as A1.
  assert (I1 : timeoutInterval_ (react (fired (onOpen t)) s0) =
               timeoutInterval_ s).
  { rewrite react_timeoutInterval. exact I0. }
  set (s1 := react (fired (onOpen t)) s0) in *. clearbody s1. clearbody s0.
  destruct (raised (onOpen t)) as [err|]; cbn [fst].
  - eapply noArming_trans; [exact A1 | apply error_noArming].
  - destruct (xhr_ (set_inOpen_ false s1)); cbn [fst].
    + match goal with |- context [configure ?h ?m] =>
        pose proof (configure_noArming h m) as A3;
        set (s3 := configure h m) in * end.
      specialize (A3 (eq_trans (f_equal (fun v => number_gt v (Num 0)) I1) Hgt)).
      match goal with |- context [react (fired (onSend t)) ?m] =>
        pose proof (react_noArming (fired (onSend t)) m) as A5;
        set (s5 := react (fired (onSend t)) m) in * end.
      assert (A : noArming s0 s5).
      { eapply noArming_trans; [exact A1|].
        eapply noArming_trans; [|exact A5].
        eapply noArming_trans; [|now apply noArming_same].
        eapply noArming_trans; [|exact A3]. now apply noArming_same. }
      clearbody s5.
      destruct (raised (onSend t)) as [err|]; cbn [fst].
      * eapply noArming_trans; [exact A | apply error_noArming].
      * eapply noArming_trans; [exact A | now apply noArming_same].
    + eapply noArming_trans; [exact A1 | now apply noArming_same].
Qed.

(* ------------------------------------------------------------------ *)
(** ** The timeout interval *)

(* ------------------------------------------------------------------ *)
(** ** Response accessors *)

(** The accessors that wrap their reads in try/catch return a value
    whatever the handle does. *)
Lemma guarded_accessors_return (s : XhrIo) :
  (exists v, getResponseText s = Returned v) /\
  (exists v, getResponseXml s = Returned v) /\
  (exists v, getResponse s = Returned v).
Proof.
  unfold getResponseText, getResponseXml, getResponse, try_catch, read.
  destruct (xhr_ s) as [x|].
  - split; [|split].
    + destruct (responseText x); eauto.
    + destruct (responseXML x); eauto.
    + destruct (response x) as [[v|]|], (responseType_ s), (responseText x),
        (mozResponseArrayBuffer x) as [[w|]|]; simpl; eauto.
  - repeat split; eauto.
Qed.

(** The header accessors do not catch; they keep away from the handle
    until readiness is complete. *)
Lemma header_accessors_wait (key : string) (s : XhrIo) :
  isComplete s = false ->
  getResponseHeader key s = Returned JsUndefined /\
  getAllResponseHeaders s = Returned "".
Proof.
  intros Hc. unfold getResponseHeader, getAllResponseHeaders.
  rewrite Hc. destruct (xhr_ s); auto.
Qed.

(** [getResponseJson] returns [undefined] without a handle. *)
Lemma getResponseJson_idle (prefix : option string) (s : XhrIo) :
  isActive s = false -> getResponseJson prefix s = Returned JsUndefined.
Proof.
  intros Hx. unfold getResponseJson. now rewrite (isActive_None s Hx).
Qed.

(* ------------------------------------------------------------------ *)
(** ** Reachable states *)

Lemma released_consistent (s : XhrIo) : released s -> consistent s.
Proof.
  intros (Hx & Ha). split; intros H; congruence.
Qed.

Lemma consistent_same (s s' : XhrIo) :
  isActive s' = isActive s -> active_ s' = active_ s ->
  xhrOptions_ s' = xhrOptions_ s ->
  consistent s -> consistent s'.
Proof.
  intros Hx Ha Ho (C1 & C2). split; rewrite ?Hx, ?Ha, ?Ho; assumption.
Qed.

Lemma update_xhr_consistent (f : Xhr -> Xhr) (s : XhrIo) :
  consistent s -> consistent (update_xhr f s).
Proof.
  apply consistent_same; unfold update_xhr, isActive;
    destruct (xhr_ s) eqn:Ex; simpl; rewrite ?Ex; reflexivity.
Qed.

Lemma onReadyStateChange_consistent (s : XhrIo) :
  consistent s -> consistent (onReadyStateChange_ s).
Proof.
  intros C.
  destruct (disposed_ s) eqn:Hd.
  - now rewrite (onReadyStateChange_disposed s Hd).
  - rewrite (onReadyStateChange_helper s Hd).
    destruct (active_ s) eqn:Ha.
    + destruct (helper_cases s Ha)
        as [(_ & ->) | [(_ & _ & _ & ->) | [(_ & _ & ->) | (_ & _ & Hc & ->)]]];
        try exact C.
      apply released_consistent.
      destruct (terminalBranch_effect s (isComplete_isActive s Hc))
        as (T1 & T2 & _).
      split; assumption.
    + now rewrite (helper_inactive s Ha).
Qed.

Lemma notify_consistent (n : Notification) (s : XhrIo) :
  consistent s -> consistent (notify n s).
Proof.
  intros C. apply onReadyStateChange_consistent, update_xhr_consistent, C.
Qed.

Lemma react_consistent (ns : list Notification) (s : XhrIo) :
  consistent s -> consistent (react ns s).
Proof.
  revert s. induction ns as [|n ns IH]; intros s C; [exact C|].
  change (react (n :: ns) s) with (react ns (notify n s)).
  apply IH, notify_consistent, C.
Qed.

Lemma error_released (r : list Notification) (code : ErrorCode.t)
    (err : string) (s : XhrIo) :
  released (error_ r code err s).
Proof.
  unfold error_. split; [apply cleanUpXhr_released|].
  match goal with |- context [cleanUpXhr_ false ?m] =>
    destruct (cleanUpXhr_frame false m) as (-> & _) end.
  match goal with |- active_ (dispatchErrors_ ?m) = _ =>
    replace (active_ (dispatchErrors_ m)) with (active_ m)
      by (unfold dispatchErrors_; destruct (errorDispatched_ m); reflexivity)
  end.
  match goal with |- context [match ?c with Some _ => ?a | None => ?b end] =>
    change (active_ (match c with Some _ => a | None => b end) = false);
    destruct c
  end; [|reflexivity].
  change (active_ (xhr_abort r (set_inAbort_ true (set_active_ false s)))
          = false).
  assert (H1 : active_ (set_inAbort_ true (set_active_ false s)) = false)
    by reflexivity.
  destruct (xhr_abort_samePhase r _ H1) as (_ & -> & _). reflexivity.
Qed.

Lemma abort_consistent (code : option ErrorCode.t) (r : list Notification)
    (s : XhrIo) :
  consistent s -> consistent (abort code r s).
Proof.
  intros C.
  destruct (active_ s) eqn:Ha.
  - apply released_consistent.
    exact (proj1 (abort_inFlight code r s (proj1 C Ha) Ha)).
  - now rewrite (abort_released code r s Ha).
Qed.

Lemma timeout_consistent (r : list Notification) (s : XhrIo) :
  consistent s -> consistent (timeout_ r s).
Proof.
  intros C. unfold timeout_. destruct (xhr_ s); [|exact C].
  apply abort_consistent. revert C. now apply consistent_same.
Qed.

Lemma step_consistent (i : Stimulus) (s : XhrIo) :
  consistent s -> consistent (step i s).
Proof.
  intros C. destruct i as [n | id r | r | code r]; simpl.
  - now apply notify_consistent.
  - unfold fireTimer.
    destruct (find (fun t => (timerId t =? id)%Z) (timers s)) as [t|];
      [|exact C].
    assert (C1 : consistent (Timer_clear id s))
      by (revert C; now apply consistent_same).
    destruct (timerCallback t);
      [now apply timeout_consistent | now apply onReadyStateChange_consistent].
  - unfold fireNativeTimeout.
    destruct (xhr_ s) as [x|]; [|exact C].
    destruct (ontimeout x); try exact C. now apply timeout_consistent.
  - now apply abort_consistent.
Qed.

Lemma run_consistent (stimuli : list Stimulus) (s : XhrIo) :
  consistent s -> consistent (run stimuli s).
Proof.
  revert s. induction stimuli as [|i rest IH]; intros s C; [exact C|].
  change (run (i :: rest) s) with (run rest (step i s)).
  apply IH, step_consistent, C.
Qed.

Lemma configure_consistent (hs : list (string * string)) (s : XhrIo) :
  consistent s -> consistent (configure hs s).
Proof.
  intros C. unfold configure. rewrite setRequestHeaders_calls.
  match goal with |- context [set_calls ?l s] => set (s0 := set_calls l s) end.
  assert (C0 : consistent s0) by (revert C; now apply consistent_same).
  clearbody s0.
  set (s1 := if ResponseType.truthy (responseType_ s0)
             then update_xhr (xhr_with_responseType (responseType_ s0)) s0
             else s0).
  assert (C1 : consistent s1).
  { subst s1. destruct (ResponseType.truthy (responseType_ s0));
      [now apply update_xhr_consistent | exact C0]. }
  clearbody s1.
  match goal with |- context [cleanUpTimeoutTimer_ ?m] => set (s2 := m) end.
  assert (C2 : consistent s2).
  { subst s2. destruct (xhr_ s1) as [x1|]; [destruct (hasWithCredentials x1)|];
      try exact C1. now apply update_xhr_consistent. }
  clearbody s2.
  assert (C3 : consistent (cleanUpTimeoutTimer_ s2)).
  { revert C2. apply consistent_same;
      unfold cleanUpTimeoutTimer_, Timer_clear, isActive;
      destruct (xhr_ s2) eqn:Ex; [destruct (useXhr2Timeout_ s2)| |
                                  destruct (useXhr2Timeout_ s2)| |
                                  destruct (useXhr2Timeout_ s2)|];
      simpl; destruct (timeoutId_ s2); simpl; rewrite ?Ex; reflexivity. }
  set (s3 := cleanUpTimeoutTimer_ s2) in *. clearbody s3.
  revert C3. apply consistent_same;
    unfold armTimeout, update_xhr, Timer_callOnce, isActive;
    destruct (number_gt (timeoutInterval_ s3) (Num 0)); try reflexivity;
    destruct (xhr_ s3) as [x3|] eqn:Ex; simpl;
    try (destruct (shouldUseXhr2Timeout_ x3)); simpl; rewrite ?Ex; simpl;
    try (destruct (useXhr2Timeout_ s3)); simpl; rewrite ?Ex; reflexivity.
Qed.

(** Every state reached from a consistent one by [send] is consistent;
    so the handler never reads the options of a controller without a
    handle. *)
Lemma send_consistent (t : Transport) (url : string)
    (opt_method : option string) (opt_content : option Content)
    (opt_headers : option (list (string * string))) (s : XhrIo) :
  consistent s ->
  consistent (fst (send t url opt_method opt_content opt_headers s)).
Proof.
  intros C. unfold send.
  destruct (xhr_ s) as [x|] eqn:Ex; [exact C|].
  match goal with |- context [toUpperCase] =>
    set (method := match opt_method with
                   | Some m => if string_truthy m then toUpperCase m else "GET"
                   | None => "GET"
                   end)
  end.
  destruct (send_opening t url method s) as ((X0 & _) & _).
  match type of X0 with isActive ?m = _ => set (s0 := m) in * end.
  assert (C0 : consistent s0).
  { split; [intros _; exact X0 | intros _; subst s0; discriminate]. }
  pose proof (react_consistent (fired (onOpen t)) s0 C0) as C1.
  set (s1 := react (fired (onOpen t)) s0) in *. clearbody s1. clearbody s0.
  destruct (raised (onOpen t)) as [err|]; cbn [fst].
  - apply released_consistent, error_released.
  - assert (C2 : consistent (set_inOpen_ false s1))
      by (revert C1; now apply consistent_same).
    destruct (xhr_ (set_inOpen_ false s1)); cbn [fst]; [|exact C2].
    match goal with |- context [react (fired (onSend t)) ?m] =>
      assert (C4 : consistent m)
    end.
    { match goal with |- consistent (logCall _ (set_inSend_ true ?m)) =>
        assert (C3 : consistent m) by (now apply configure_consistent);
        revert C3; now apply consistent_same end. }
    match goal with |- context [react (fired (onSend t)) ?m] =>
      pose proof (react_consistent (fired (onSend t)) m C4) as C5;
      set (s5 := react (fired (onSend t)) m) in * end.
    clearbody s5.
    destruct (raised (onSend t)) as [err|]; cbn [fst].
    + apply released_consistent, error_released.
    + revert C5. now apply consistent_same.
Qed.

Lemma disposeInternal_consistent (r : list Notification) (s : XhrIo) :
  consistent s -> consistent (disposeInternal r s).
Proof.
  intros C. unfold disposeInternal.
  destruct (xhr_ s) as [x|] eqn:Ex; [|exact C].
  apply released_consistent. split; [apply cleanUpXhr_released|].
  match goal with |- context [cleanUpXhr_ true ?m] =>
    destruct (cleanUpXhr_frame true m) as (-> & _) end.
  destruct (active_ s) eqn:Ha; [|exact Ha].
  simpl active_.
  assert (H1 : active_ (set_inAbort_ true (set_active_ false s)) = false)
    by reflexivity.
  destruct (xhr_abort_samePhase r _ H1) as (_ & -> & _). reflexivity.
Qed.
(* ------------------------------------------------------------------ *)
(** ** The error recorded, and the settings *)

Lemma sameError_refl (s : XhrIo) : sameError s s.
Proof. split; reflexivity. Qed.

Lemma sameError_trans (a b c : XhrIo) :
  sameError a b -> sameError b c -> sameError a c.
Proof. intros (A1 & A2) (B1 & B2). split; congruence. Qed.

Lemma sameSettings_refl (s : XhrIo) : sameSettings s s.
Proof. repeat split. Qed.

Lemma sameSettings_trans (a b c : XhrIo) :
  sameSettings a b -> sameSettings b c -> sameSettings a c.
Proof.
  intros (A1 & A2 & A3 & A4 & A5 & A6) (B1 & B2 & B3 & B4 & B5 & B6).
  repeat split; congruence.
Qed.

Lemma update_xhr_fields (f : Xhr -> Xhr) (s : XhrIo) :
  sameError s (update_xhr f s) /\ sameSettings s (update_xhr f s) /\
  timers (update_xhr f s) = timers s /\
  timeoutId_ (update_xhr f s) = timeoutId_ s /\
  disposed_ (update_xhr f s) = disposed_ s /\
  calls (update_xhr f s) = calls s.
Proof. unfold update_xhr. destruct (xhr_ s); repeat split. Qed.

Lemma cleanUpTimeoutTimer_fields (s : XhrIo) :
  sameError s (cleanUpTimeoutTimer_ s) /\
  sameSettings s (cleanUpTimeoutTimer_ s).
Proof.
  unfold cleanUpTimeoutTimer_, Timer_clear.
  destruct (xhr_ s); [destruct (useXhr2Timeout_ s)|]; simpl;
    destruct (timeoutId_ s); repeat split.
Qed.

Lemma cleanUpXhr_fields (b : bool) (s : XhrIo) :
  sameError s (cleanUpXhr_ b s) /\ sameSettings s (cleanUpXhr_ b s).
Proof.
  unfold cleanUpXhr_. destruct (cleanUpTimeoutTimer_fields s) as (E & S).
  destruct (xhr_ s); [|split; [apply sameError_refl | apply sameSettings_refl]].
  destruct b; split;
    (eapply sameError_trans; [exact E|]) || (eapply sameSettings_trans; [exact S|]);
    repeat split.
Qed.

Lemma dispatchErrors_fields (s : XhrIo) :
  sameError s (dispatchErrors_ s) /\ sameSettings s (dispatchErrors_ s).
Proof. unfold dispatchErrors_. destruct (errorDispatched_ s); repeat split. Qed.

Lemma xhr_abort_fields (r : list Notification) (s : XhrIo) :
  active_ s = false ->
  sameError s (xhr_abort r s) /\ sameSettings s (xhr_abort r s).
Proof.
  intros Ha.
  destruct (xhr_abort_inactive r s Ha) as [-> | [n ->]].
  - repeat split.
  - unfold notified.
    destruct (update_xhr_fields
                (xhr_with_readiness (nReadyState n) (nStatus n) (nStatusText n))
                (logCall Call_abort s)) as (E & S & _).
    split; [exact E | exact S].
Qed.

Lemma terminalBranch_fields (s : XhrIo) :
  sameSettings s (terminalBranch s) /\
  (isSuccess s = true -> sameError s (terminalBranch s)) /\
  (isSuccess s = false ->
   lastErrorCode_ (terminalBranch s) = ErrorCode.HTTP_ERROR /\
   lastError_ (terminalBranch s)
   = StatusLine (getStatusText s) (getStatus s)).
Proof.
  unfold terminalBranch.
  match goal with |- context [if ?c then _ else _] =>
    change c with (isSuccess s) end.
  destruct (isSuccess s) eqn:Hs.
  - match goal with |- context [cleanUpXhr_ false ?m] =>
      destruct (cleanUpXhr_fields false m) as (E & S) end.
    split; [|split; [intros _|discriminate]].
    + eapply sameSettings_trans; [|exact S]. repeat split.
    + eapply sameError_trans; [|exact E]. repeat split.
  - match goal with |- context [cleanUpXhr_ false ?m] =>
      destruct (cleanUpXhr_fields false m) as ((E1 & E2) & S) end.
    match goal with |- context [dispatchErrors_ ?m] =>
      destruct (dispatchErrors_fields m) as ((D1 & D2) & D) end.
    split; [|split; [discriminate|intros _]].
    + eapply sameSettings_trans; [|exact S].
      eapply sameSettings_trans; [|exact D]. repeat split.
    + rewrite E1, E2, D1, D2. split; reflexivity.
Qed.

Lemma onReadyStateChange_settings (s : XhrIo) :
  sameSettings s (onReadyStateChange_ s).
Proof.
  destruct (disposed_ s) eqn:Hd.
  - rewrite (onReadyStateChange_disposed s Hd). apply sameSettings_refl.
  - rewrite (onReadyStateChange_helper s Hd).
    destruct (active_ s) eqn:Ha.
    + destruct (helper_cases s Ha)
        as [(_ & ->) | [(_ & _ & _ & ->) | [(_ & _ & ->) | (_ & _ & _ & ->)]]];
        try solve [repeat split].
      apply terminalBranch_fields.
    + rewrite (helper_inactive s Ha). apply sameSettings_refl.
Qed.

Lemma notify_settings (n : Notification) (s : XhrIo) :
  sameSettings s (notify n s).
Proof.
  unfold notify.
  eapply sameSettings_trans; [|apply onReadyStateChange_settings].
  apply update_xhr_fields.
Qed.

Lemma react_settings (ns : list Notification) (s : XhrIo) :
  sameSettings s (react ns s).
Proof.
  revert s. induction ns as [|n ns IH]; intros s; [apply sameSettings_refl|].
  change (react (n :: ns) s)
    with (react ns (notify n s)).
  eapply sameSettings_trans; [apply notify_settings | apply IH].
Qed.

Lemma abort_fields (code : option ErrorCode.t) (r : list Notification)
    (s : XhrIo) :
  sameSettings s (abort code r s) /\
  lastError_ (abort code r s) = lastError_ s /\
  (isActive s = true -> active_ s = true ->
   lastErrorCode_ (abort code r s)
   = match code with
     | Some c => if ErrorCode.truthy c then c else ErrorCode.ABORT
     | None => ErrorCode.ABORT
     end).
Proof.
  unfold abort, isActive.
  destruct (xhr_ s) as [x|]; [|repeat split; discriminate].
  destruct (active_ s); [|repeat split; discriminate].
  set (s1 := set_inAbort_ true (set_active_ false s)).
  assert (H1 : active_ s1 = false) by reflexivity.
  destruct (xhr_abort_fields r s1 H1) as ((A1 & A2) & A).
  set (s2 := xhr_abort r s1) in *.
  match goal with |- context [cleanUpXhr_ false ?m] =>
    destruct (cleanUpXhr_fields false m) as ((E1 & E2) & S) end.
  split; [|split].
  - eapply sameSettings_trans; [|exact S].
    eapply sameSettings_trans; [|apply sameSettings_refl].
    eapply sameSettings_trans; [|exact A]. repeat split.
  - rewrite E2. simpl. exact A2.
  - intros _ _. rewrite E1. reflexivity.
Qed.

Lemma timeout_fields (r : list Notification) (s : XhrIo) :
  sameSettings s (timeout_ r s) /\
  (isActive s = true -> active_ s = true ->
   lastErrorCode_ (timeout_ r s) = ErrorCode.TIMEOUT /\
   lastError_ (timeout_ r s) = TimedOutAfter (timeoutInterval_ s)).
Proof.
  unfold timeout_, isActive.
  destruct (xhr_ s) as [x|] eqn:Ex; [|repeat split; discriminate].
  match goal with |- context [abort _ r ?m] => set (mid := m) end.
  destruct (abort_fields (Some ErrorCode.TIMEOUT) r mid) as (S & E & C).
  split.
  - eapply sameSettings_trans; [|exact S]. repeat split.
  - intros _ Ha. rewrite E. split; [|reflexivity].
    apply C; [|exact Ha]. unfold isActive. subst mid. simpl. now rewrite Ex.
Qed.

Lemma error_fields (r : list Notification) (code : ErrorCode.t)
    (err : string) (s : XhrIo) :
  sameSettings s (error_ r code err s) /\
  lastErrorCode_ (error_ r code err s) = code /\
  lastError_ (error_ r code err s) = Caught err.
Proof.
  unfold error_.
  match goal with |- context [cleanUpXhr_ false ?m] =>
    destruct (cleanUpXhr_fields false m) as ((E1 & E2) & S) end.
  match goal with |- context [dispatchErrors_ ?m] =>
    destruct (dispatchErrors_fields m) as ((D1 & D2) & D) end.
  rewrite E1, E2, D1, D2.
  split; [|split; reflexivity].
  eapply sameSettings_trans; [|exact S].
  eapply sameSettings_trans; [|exact D].
  simpl xhr_. destruct (xhr_ s); [|repeat split].
  set (s1 := set_inAbort_ true (set_active_ false s)).
  assert (H1 : active_ s1 = false) by reflexivity.
  destruct (xhr_abort_fields r s1 H1) as (_ & A).
  eapply sameSettings_trans; [|apply sameSettings_refl].
  eapply sameSettings_trans; [|repeat split].
  eapply sameSettings_trans; [|exact A]. repeat split.
Qed.

(* ------------------------------------------------------------------ *)
(** ** abort, timeout_ and the error path *)

(** X13. [abort] on a request in flight releases the handle after
    calling its [abort] once, records the failure code given, or ABORT
    if none was given or the one given counts as false, as NO_ERROR
    does, leaves the recorded error message as it was, and dispatches
    COMPLETE, ABORT, READY, no ERROR. *)
Theorem abort_ends_request_with_code (opt_failureCode : option ErrorCode.t)
    (r : list Notification) (s : XhrIo) :
  isActive s = true ->
  active_ s = true ->
  let s' := abort opt_failureCode r s in
  isActive s' = false /\ active_ s' = false /\
  (opt_failureCode = None -> getLastErrorCode s' = ErrorCode.ABORT) /\
  (opt_failureCode = Some ErrorCode.NO_ERROR ->
   getLastErrorCode s' = ErrorCode.ABORT) /\
  (forall c, opt_failureCode = Some c -> c <> ErrorCode.NO_ERROR ->
   getLastErrorCode s' = c) /\
  getLastError s' = getLastError s /\
  events s'
  = events s ++ [EventType.COMPLETE; EventType.ABORT; EventType.READY] /\
  calls s' = calls s ++ [Call_abort] /\
  timeoutId_ s' = None.
Proof.
  intros Hx Ha s'. subst s'.
  destruct (abort_inFlight opt_failureCode r s Hx Ha)
    as ((R1 & R2) & _ & Ev).
  destruct (abort_teardown opt_failureCode r s Hx Ha)
    as (Ca & _ & Ti).
  destruct (abort_fields opt_failureCode r s) as (_ & E & C).
  specialize (C Hx Ha).
  unfold getLastErrorCode, getLastError.
  split; [exact R1|]. split; [exact R2|].
  split; [intros ->; exact C|].
  split; [intros ->; exact C|].
  split.
  { intros c -> Hc. rewrite C. destruct c; try reflexivity. congruence. }
  auto.
Qed.

(** X14. [abort] is idempotent: a second call, with whatever failure
    code, changes nothing, and so does a call on a controller that holds
    no handle. *)
Theorem abort_is_idempotent (c1 c2 : option ErrorCode.t)
    (r1 r2 : list Notification) (s : XhrIo) :
  abort c2 r2 (abort c1 r1 s) = abort c1 r1 s /\
  (isActive s = false -> abort c1 r1 s = s).
Proof.
  assert (Idle : isActive s = false -> abort c1 r1 s = s).
  { intros Hx. unfold abort. now rewrite (isActive_None s Hx). }
  split; [|exact Idle].
  destruct (isActive s) eqn:Hx; [destruct (active_ s) eqn:Ha|].
  - destruct (abort_inFlight c1 r1 s Hx Ha) as ((_ & R) & _).
    now apply abort_released.
  - now rewrite !(abort_released _ _ s Ha).
  - rewrite (Idle eq_refl). unfold abort. now rewrite (isActive_None s Hx).
Qed.

(** X15. [timeout_] on a request in flight records the error code
    TIMEOUT and the message built from the interval, dispatches TIMEOUT
    and then the COMPLETE, ABORT, READY of an abort, calls the handle's
    [abort] once and releases the handle. *)
Theorem timeout_ends_request (r : list Notification) (s : XhrIo) :
  isActive s = true ->
  active_ s = true ->
  let s' := timeout_ r s in
  isActive s' = false /\ active_ s' = false /\
  getLastErrorCode s' = ErrorCode.TIMEOUT /\
  getLastError s' = TimedOutAfter (getTimeoutInterval s) /\
  events s'
  = events s ++ [EventType.TIMEOUT; EventType.COMPLETE; EventType.ABORT;
                 EventType.READY] /\
  calls s' = calls s ++ [Call_abort].
Proof.
  intros Hx Ha s'. subst s'.
  destruct (timeout_inFlight r s Hx Ha) as ((R1 & R2) & _ & Ev).
  destruct (timeout_fields r s) as (_ & F).
  destruct (F Hx Ha) as (C & E).
  unfold getLastErrorCode, getLastError, getTimeoutInterval.
  repeat split; auto.
  destruct (isActive_Some s Hx) as [x Ex].
  unfold timeout_. rewrite Ex.
  match goal with |- context [abort _ r ?m] => set (mid := m) end.
  assert (Mx : isActive mid = true) by exact Hx.
  assert (Ma : active_ mid = true) by exact Ha.
  destruct (abort_teardown (Some ErrorCode.TIMEOUT) r mid Mx Ma)
    as (Ca & _).
  exact Ca.
Qed.

Lemma step_released_frame (i : Stimulus) (s : XhrIo) :
  isActive s = false ->
  active_ s = false ->
  isActive (step i s) = false /\
  active_ (step i s) = false /\
  events (step i s) = events s /\
  calls (step i s) = calls s /\
  lastErrorCode_ (step i s) = lastErrorCode_ s /\
  lastError_ (step i s) = lastError_ s.
Proof.
  intros Hx Ha.
  destruct i as [n | id r | r | code r]; simpl.
  - rewrite (notify_released n s (conj Hx Ha)). auto 10.
  - unfold fireTimer.
    destruct (find (fun t => (timerId t =? id)%Z) (timers s)) as [t|];
      [|auto 10].
    set (s1 := Timer_clear id s).
    destruct (timerCallback t).
    + rewrite (timeout_released r s1 Hx). auto 10.
    + rewrite (onReadyStateChange_inactive s1 Ha). auto 10.
  - unfold fireNativeTimeout. rewrite (isActive_None s Hx). auto 10.
  - rewrite (abort_released code r s Ha). auto 10.
Qed.

(** X16. Between two requests the controller is deaf: with the handle
    released, no readiness notification, timer, handle timeout or
    [abort] call dispatches an event, calls into a handle or changes the
    error recorded. *)
Theorem released_controller_ignores_stimuli (stimuli : list Stimulus)
    (s : XhrIo) :
  isActive s = false ->
  active_ s = false ->
  let s' := run stimuli s in
  events s' = events s /\ calls s' = calls s /\
  isActive s' = false /\
  getLastErrorCode s' = getLastErrorCode s /\
  getLastError s' = getLastError s.
Proof.
  intros Hx Ha s'. subst s'. revert s Hx Ha.
  induction stimuli as [|i rest IH]; intros s Hx Ha; [repeat split; auto|].
  change (run (i :: rest) s)
    with (run rest (step i s)).
  destruct (step_released_frame i s Hx Ha)
    as (Sx & Sa & Se & Sc & S1 & S2).
  destruct (IH _ Sx Sa) as (I1 & I2 & I3 & I4 & I5).
  unfold getLastErrorCode, getLastError in *.
  repeat split; congruence.
Qed.

Lemma send_open_raises (t : Transport) (url : string)
    (opt_method : option string) (opt_content : option Content)
    (opt_headers : option (list (string * string))) (err : string)
    (s : XhrIo) :
  isActive s = false ->
  opensQuietly t ->
  raised (onOpen t) = Some err ->
  let method :=
    match opt_method with
    | Some m => if string_truthy m then toUpperCase m else "GET"
    | None => "GET"
    end in
  let s' := fst (send t url opt_method opt_content opt_headers s) in
  snd (send t url opt_method opt_content opt_headers s) = Returned tt /\
  released s' /\
  lastErrorCode_ s' = ErrorCode.EXCEPTION /\
  lastError_ s' = Caught err /\
  calls s' = calls s ++ [Call_open method url; Call_abort] /\
  exists k,
    events s'
    = events s ++ repeat EventType.READY_STATE_CHANGE k ++
      [EventType.COMPLETE; EventType.ERROR; EventType.READY].
Proof.
  intros Hx Hq Ro method s'. subst s'.
  unfold send. rewrite (isActive_None s Hx). fold method.
  destruct (send_opening t url method s) as (F0 & E0).
  match type of F0 with inFlight ?m => set (s0 := m) in * end.
  assert (C0 : calls s0 = calls s ++ [Call_open method url]).
  { subst s0. reflexivity. }
  destruct (react_inFlight_quiet (fired (onOpen t)) s0 F0
              (or_introl Hq)) as (F1 & _ & k1 & E1).
  pose proof (react_carriesOn (fired (onOpen t)) s0 F0
                (or_introl Hq)) as (_ & C1 & _).
  set (s1 := react (fired (onOpen t)) s0) in *.
  clearbody s1. clearbody s0.
  rewrite Ro. cbn [fst snd].
  destruct (error_inFlight (onAbort t) ErrorCode.EXCEPTION err s1 F1)
    as ((R1 & R2) & E).
  destruct (error_fields (onAbort t) ErrorCode.EXCEPTION err s1)
    as (_ & Fc & Fe).
  pose proof (error_calls (onAbort t) ErrorCode.EXCEPTION err s1
                (proj1 F1)) as Ec.
  split; [reflexivity|]. split; [split; [exact R1 | exact R2]|].
  split; [exact Fc|]. split; [exact Fe|]. split.
  - rewrite Ec, C1, C0, <- app_assoc. reflexivity.
  - exists k1. rewrite E, E1, E0, <- app_assoc. reflexivity.
Qed.

(** X17. An exception thrown by the handle's [open] does not leave
    [send], for a [send] on an idle controller whose handle's [open]
    reports no completion before it throws: the call returns normally,
    the handle is aborted and released without [setRequestHeader] or
    [send] having been called on it, the error code EXCEPTION and the
    exception are recorded, and the events of the call are
    READY_STATE_CHANGE events, if [open] reported progress, followed by
    COMPLETE, ERROR, READY. *)
Theorem send_open_exception_is_reported (t : Transport) (url : string)
    (opt_method : option string) (opt_content : option Content)
    (opt_headers : option (list (string * string))) (err : string)
    (s : XhrIo) :
  isActive s = false ->
  opensQuietly t ->
  raised (onOpen t) = Some err ->
  let method :=
    match opt_method with
    | Some m => if string_truthy m then toUpperCase m else "GET"
    | None => "GET"
    end in
  let s' := fst (send t url opt_method opt_content opt_headers s) in
  snd (send t url opt_method opt_content opt_headers s) = Returned tt /\
  isActive s' = false /\ active_ s' = false /\
  getLastErrorCode s' = ErrorCode.EXCEPTION /\
  getLastError s' = Caught err /\
  callsSince (calls s) s' = [Call_open method url; Call_abort] /\
  exists k,
    eventsSince (events s) s'
    = repeat EventType.READY_STATE_CHANGE k ++
      [EventType.COMPLETE; EventType.ERROR; EventType.READY].
Proof.
  intros Hx Hq Ro method s'. subst s'.
  destruct (send_open_raises t url opt_method opt_content opt_headers err s
              Hx Hq Ro) as (Rt & (R1 & R2) & C & E & Cs & k & Ev).
  fold method in Cs.
  unfold getLastErrorCode, getLastError.
  repeat (split; [assumption|]). split.
  - now apply callsSince_app.
  - exists k. now apply eventsSince_app.
Qed.


(* ------------------------------------------------------------------ *)
(** ** [send], taken apart *)

Lemma onReadyStateChange_stays_error (s : XhrIo) :
  inFlight s ->
  inFlight (onReadyStateChange_ s) ->
  sameError s (onReadyStateChange_ s).
Proof.
  intros Hf Hf'.
  destruct (onReadyStateChange_stays s Hf Hf') as [-> | [-> | ->]];
    repeat split.
Qed.

Lemma notify_stays_error (n : Notification) (s : XhrIo) :
  inFlight s -> inFlight (notify n s) ->
  sameError s (notify n s).
Proof.
  intros Hf Hf'.
  apply (sameError_trans _ (notified n s)).
  - apply update_xhr_fields.
  - apply onReadyStateChange_stays_error; [|exact Hf'].
    exact (samePhase_inFlight _ _ (notified_samePhase n s) Hf).
Qed.

Lemma react_quiet_error (ns : list Notification) (s : XhrIo) :
  inFlight s ->
  Forall (fun n => nReadyState n <> ReadyState.COMPLETE) ns \/
  inSend_ s = true ->
  sameError s (react ns s).
Proof.
  revert s. induction ns as [|n ns IH]; intros s Hf Hq.
  - apply sameError_refl.
  - change (react (n :: ns) s)
      with (react ns (notify n s)).
    assert (Hq1 : Forall (fun n => nReadyState n <> ReadyState.COMPLETE) [n]
                  \/ inSend_ s = true).
    { destruct Hq as [Hq | Hq]; [left | right; exact Hq].
      inversion Hq; subst. now constructor. }
    destruct (react_inFlight_quiet [n] s Hf Hq1) as (F1 & S1 & _).
    change (react [n] s) with (notify n s) in F1, S1.
    apply (sameError_trans _ (notify n s));
      [apply notify_stays_error; assumption|].
    apply IH; [exact F1|].
    destruct Hq as [Hq | Hq]; [left; now inversion Hq | right; congruence].
Qed.

Lemma update_xhr_view (f : Xhr -> Xhr) (s : XhrIo) :
  (forall x,
      hasWithCredentials (f x) = hasWithCredentials x /\
      withCredentials (f x) = withCredentials x /\
      responseType (f x) = responseType x /\
      onreadystatechange (f x) = onreadystatechange x) ->
  handleRequestView (update_xhr f s) = handleRequestView s.
Proof.
  intros H. unfold handleRequestView, update_xhr.
  destruct (xhr_ s) as [x|] eqn:Ex; simpl; rewrite ?Ex; [|reflexivity].
  destruct (H x) as (-> & -> & -> & ->). reflexivity.
Qed.

Lemma notify_stays_view (n : Notification) (s : XhrIo) :
  inFlight s -> inFlight (notify n s) ->
  handleRequestView (notify n s) = handleRequestView s.
Proof.
  intros Hf Hf'.
  assert (V0 : handleRequestView (notified n s) = handleRequestView s).
  { apply update_xhr_view. intros x. repeat split. }
  pose proof (samePhase_inFlight _ _ (notified_samePhase n s) Hf) as Hf0.
  change (notify n s)
    with (onReadyStateChange_ (notified n s)) in *.
  destruct (onReadyStateChange_stays (notified n s) Hf0 Hf')
    as [-> | [-> | ->]]; exact V0.
Qed.

Lemma react_quiet_view (ns : list Notification) (s : XhrIo) :
  inFlight s ->
  Forall (fun n => nReadyState n <> ReadyState.COMPLETE) ns \/
  inSend_ s = true ->
  handleRequestView (react ns s) = handleRequestView s.
Proof.
  revert s. induction ns as [|n ns IH]; intros s Hf Hq; [reflexivity|].
  change (react (n :: ns) s)
    with (react ns (notify n s)).
  assert (Hq1 : Forall (fun n => nReadyState n <> ReadyState.COMPLETE) [n]
                \/ inSend_ s = true).
  { destruct Hq as [Hq | Hq]; [left | right; exact Hq].
    inversion Hq; subst. now constructor. }
  destruct (react_inFlight_quiet [n] s Hf Hq1) as (F1 & S1 & _).
  change (react [n] s) with (notify n s) in F1, S1.
  rewrite IH; [now apply notify_stays_view | exact F1 |].
  destruct Hq as [Hq | Hq]; [left; now inversion Hq | right; congruence].
Qed.

Lemma cleanUpTimeoutTimer_view (s : XhrIo) :
  handleRequestView (cleanUpTimeoutTimer_ s) = handleRequestView s.
Proof.
  unfold cleanUpTimeoutTimer_, Timer_clear, handleRequestView.
  destruct (xhr_ s) eqn:Ex; [destruct (useXhr2Timeout_ s)|]; simpl;
    destruct (timeoutId_ s); simpl; rewrite ?Ex; reflexivity.
Qed.

Lemma armTimeout_view (s : XhrIo) :
  handleRequestView (armTimeout s) = handleRequestView s.
Proof.
  unfold armTimeout.
  destruct (number_gt (timeoutInterval_ s) (Num 0)); [|reflexivity].
  destruct (xhr_ s) as [x|] eqn:Ex.
  - simpl useXhr2Timeout_. destruct (shouldUseXhr2Timeout_ x).
    + rewrite !update_xhr_view by (intros x0; repeat split).
      unfold handleRequestView. simpl. reflexivity.
    + unfold handleRequestView. simpl. reflexivity.
  - destruct (useXhr2Timeout_ s).
    + rewrite !update_xhr_view by (intros x0; repeat split). reflexivity.
    + unfold handleRequestView. simpl. reflexivity.
Qed.

Lemma configure_view (hs : list (string * string)) (s : XhrIo) (x : Xhr) :
  xhr_ s = Some x ->
  handleRequestView (configure hs s)
  = Some (hasWithCredentials x,
          (if hasWithCredentials x then withCredentials_ s
           else withCredentials x),
          (if ResponseType.truthy (responseType_ s) then responseType_ s
           else responseType x),
          onreadystatechange x).
Proof.
  intros Ex. unfold configure.
  rewrite armTimeout_view, cleanUpTimeoutTimer_view.
  rewrite setRequestHeaders_calls.
  unfold update_xhr, handleRequestView. simpl. rewrite Ex.
  destruct (ResponseType.truthy (responseType_ s)); simpl; rewrite ?Ex; simpl;
    destruct (hasWithCredentials x) eqn:Hw; simpl; rewrite ?Ex; simpl;
    rewrite ?Hw; reflexivity.
Qed.

Lemma armTimeout_fields (s : XhrIo) :
  sameError s (armTimeout s) /\ sameSettings s (armTimeout s).
Proof.
  unfold armTimeout.
  destruct (number_gt (timeoutInterval_ s) (Num 0)); [|repeat split].
  destruct (xhr_ s) as [x|] eqn:Ex.
  - simpl useXhr2Timeout_. destruct (shouldUseXhr2Timeout_ x).
    + unfold update_xhr. simpl. rewrite Ex. simpl. repeat split.
    + repeat split.
  - destruct (useXhr2Timeout_ s).
    + unfold update_xhr. rewrite Ex. simpl. rewrite Ex. repeat split.
    + repeat split.
Qed.

Lemma configure_fields (hs : list (string * string)) (s : XhrIo) :
  sameError s (configure hs s) /\
  sameSettings s (configure hs s).
Proof.
  unfold configure. rewrite setRequestHeaders_calls.
  match goal with |- context [set_calls ?c s] => set (s0 := set_calls c s) end.
  assert (A0 : sameError s s0 /\ sameSettings s s0) by (repeat split).
  change (responseType_ s0) with (responseType_ s) in *.
  match goal with |- context [xhr_ ?m] => set (s1 := m) end.
  assert (A1 : sameError s s1 /\ sameSettings s s1).
  { subst s1. destruct (ResponseType.truthy (responseType_ s)); [|exact A0].
    destruct (update_xhr_fields (xhr_with_responseType (responseType_ s)) s0)
      as (E & S & _).
    destruct A0 as (E0 & S0). split.
    - exact (sameError_trans _ _ _ E0 E).
    - exact (sameSettings_trans _ _ _ S0 S). }
  clearbody s1.
  match goal with |- context [cleanUpTimeoutTimer_ ?m] => set (s2 := m) end.
  assert (A2 : sameError s s2 /\ sameSettings s s2).
  { subst s2. destruct (xhr_ s1) as [x1|]; [|exact A1].
    destruct (hasWithCredentials x1); [|exact A1].
    destruct (update_xhr_fields
                (xhr_with_withCredentials (withCredentials_ s1)) s1)
      as (E & S & _).
    destruct A1 as (E1 & S1). split.
    - exact (sameError_trans _ _ _ E1 E).
    - exact (sameSettings_trans _ _ _ S1 S). }
  clearbody s2.
  destruct A2 as (E2 & S2).
  destruct (cleanUpTimeoutTimer_fields s2) as (E3 & S3).
  destruct (armTimeout_fields (cleanUpTimeoutTimer_ s2)) as (E4 & S4).
  split.
  - eapply sameError_trans; [exact E2|].
    eapply sameError_trans; [exact E3 | exact E4].
  - eapply sameSettings_trans; [exact S2|].
    eapply sameSettings_trans; [exact S3 | exact S4].
Qed.

(** What [send] does on an idle controller when [open] fires nothing at
    complete readiness and returns normally: a state [s5], still in
    flight and inside the handle's [send], from which the call either
    returns or takes the error path. *)
Lemma send_decomposed (t : Transport) (url : string)
    (opt_method : option string) (opt_content : option Content)
    (opt_headers : option (list (string * string))) (s : XhrIo) :
  isActive s = false ->
  opensQuietly t ->
  raised (onOpen t) = None ->
  let method :=
    match opt_method with
    | Some m => if string_truthy m then toUpperCase m else "GET"
    | None => "GET"
    end in
  exists s5,
    send t url opt_method opt_content opt_headers s
    = match raised (onSend t) with
      | Some err =>
          (error_ (onAbort t) ErrorCode.EXCEPTION err s5, Returned tt)
      | None => (set_inSend_ false s5, Returned tt)
      end /\
    inFlight s5 /\ inSend_ s5 = true /\
    lastErrorCode_ s5 = ErrorCode.NO_ERROR /\ lastError_ s5 = NoMessage /\
    lastUri_ s5 = url /\ lastMethod_ s5 = method /\
    headers s5 = headers s /\ timeoutInterval_ s5 = timeoutInterval_ s /\
    responseType_ s5 = responseType_ s /\
    withCredentials_ s5 = withCredentials_ s /\
    handleRequestView s5
    = Some (hasWithCredentials (createInstance t),
            (if hasWithCredentials (createInstance t) then withCredentials_ s
             else withCredentials (createInstance t)),
            (if ResponseType.truthy (responseType_ s) then responseType_ s
             else responseType (createInstance t)),
            Handler_bound) /\
    exists k,
      events s5 = events s ++ repeat EventType.READY_STATE_CHANGE k.
Proof.
  intros Hx Hq Ro method.
  unfold send. rewrite (isActive_None s Hx). fold method.
  destruct (send_opening t url method s) as (F0 & E0).
  match type of F0 with inFlight ?m => set (s0 := m) in * end.
  assert (A0 : lastErrorCode_ s0 = ErrorCode.NO_ERROR /\
               lastError_ s0 = NoMessage /\
               lastUri_ s0 = url /\ lastMethod_ s0 = method /\
               headers s0 = headers s /\
               timeoutInterval_ s0 = timeoutInterval_ s /\
               responseType_ s0 = responseType_ s /\
               withCredentials_ s0 = withCredentials_ s).
  { subst s0. unfold update_xhr. simpl. repeat split. }
  assert (V0 : handleRequestView s0
               = Some (hasWithCredentials (createInstance t),
                       withCredentials (createInstance t),
                       responseType (createInstance t), Handler_bound)).
  { subst s0. reflexivity. }
  pose proof (react_quiet_view (fired (onOpen t)) s0 F0 (or_introl Hq)) as V1.
  rewrite V0 in V1.
  destruct (react_inFlight_quiet (fired (onOpen t)) s0 F0
              (or_introl Hq)) as (F1 & _ & k1 & E1).
  pose proof (react_quiet_error (fired (onOpen t)) s0 F0 (or_introl Hq))
    as Er1.
  pose proof (react_settings (fired (onOpen t)) s0) as Se1.
  set (s1 := react (fired (onOpen t)) s0) in *.
  clearbody s1. clearbody s0.
  rewrite Ro.
  assert (F2 : inFlight (set_inOpen_ false s1)) by exact F1.
  destruct (isActive_Some _ (proj1 F2)) as [x2 Ex2]. rewrite Ex2.
  match goal with |- context [logCall (Call_send ?c) _] =>
    set (content := c) end.
  match goal with |- context [configure ?h _] => set (hs := h) end.
  clearbody hs.
  pose proof (configure_view hs (set_inOpen_ false s1) x2 Ex2) as V3.
  assert (Vx : Some (hasWithCredentials x2, withCredentials x2,
                     responseType x2, onreadystatechange x2)
               = Some (hasWithCredentials (createInstance t),
                       withCredentials (createInstance t),
                       responseType (createInstance t), Handler_bound)).
  { rewrite <- V1. unfold handleRequestView.
    change (xhr_ s1) with (xhr_ (set_inOpen_ false s1)). now rewrite Ex2. }
  injection Vx as Vx1 Vx2 Vx3 Vx4.
  rewrite Vx1, Vx2, Vx3, Vx4 in V3.
  change (withCredentials_ (set_inOpen_ false s1))
    with (withCredentials_ s1) in V3.
  change (responseType_ (set_inOpen_ false s1)) with (responseType_ s1) in V3.
  destruct (configure_fields hs (set_inOpen_ false s1)) as (Er3 & Se3).
  pose proof (configure_samePhase hs (set_inOpen_ false s1)) as P3.
  set (s3 := configure hs (set_inOpen_ false s1)) in *.
  clearbody s3.
  set (s4 := logCall (Call_send content) (set_inSend_ true s3)).
  assert (V4 : handleRequestView s4 = handleRequestView s3) by reflexivity.
  assert (F4 : inFlight s4).
  { apply (samePhase_inFlight s1); [|exact F1].
    eapply samePhase_trans; [exact P3|]. repeat split. }
  assert (E4 : events s4 = events s1)
    by (destruct P3 as (_ & _ & _ & E); exact E).
  assert (I4 : inSend_ s4 = true) by reflexivity.
  destruct (react_inFlight_quiet (fired (onSend t)) s4 F4
              (or_intror I4)) as (F5 & I5 & k5 & E5).
  pose proof (react_quiet_error (fired (onSend t)) s4 F4 (or_intror I4))
    as Er5.
  pose proof (react_settings (fired (onSend t)) s4) as Se5.
  pose proof (react_quiet_view (fired (onSend t)) s4 F4 (or_intror I4)) as V5.
  exists (react (fired (onSend t)) s4).
  set (s5 := react (fired (onSend t)) s4) in *. clearbody s5.
  assert (Er : sameError s0 s5).
  { eapply sameError_trans; [exact Er1|].
    eapply sameError_trans; [|exact Er5].
    eapply sameError_trans; [|apply sameError_refl].
    eapply sameError_trans; [|exact Er3]. repeat split. }
  assert (Se : sameSettings s0 s5).
  { eapply sameSettings_trans; [exact Se1|].
    eapply sameSettings_trans; [|exact Se5].
    eapply sameSettings_trans; [|apply sameSettings_refl].
    eapply sameSettings_trans; [|exact Se3]. repeat split. }
  destruct Er as (Er_1 & Er_2).
  destruct Se as (Se_1 & Se_2 & Se_3 & Se_4 & Se_5 & Se_6).
  destruct A0 as (A1 & A2 & A3 & A4 & A5 & A6 & A7 & A8).
  split; [destruct (raised (onSend t)); reflexivity|].
  split; [exact F5|]. split; [congruence|].
  repeat (split; [congruence|]).
  split.
  { rewrite V5, V4, V3.
    destruct Se1 as (_ & _ & T3 & T4 & _). rewrite T3, T4, A7, A8.
    reflexivity. }
  exists (k1 + k5)%nat.
  rewrite E5, E4, E1, E0, <- !app_assoc, repeat_app_plus. reflexivity.
Qed.

(** X18. An exception thrown by the handle's [send] does not leave
    [send]: the call returns normally, the handle is aborted and
    released, the error code EXCEPTION and the exception are recorded,
    and COMPLETE, ERROR, READY are dispatched. *)
Theorem send_send_exception_is_reported (t : Transport) (url : string)
    (opt_method : option string) (opt_content : option Content)
    (opt_headers : option (list (string * string))) (err : string)
    (s : XhrIo) :
  isActive s = false ->
  opensQuietly t ->
  raised (onOpen t) = None ->
  raised (onSend t) = Some err ->
  let s' := fst (send t url opt_method opt_content opt_headers s) in
  snd (send t url opt_method opt_content opt_headers s) = Returned tt /\
  isActive s' = false /\ active_ s' = false /\
  getLastErrorCode s' = ErrorCode.EXCEPTION /\
  getLastError s' = Caught err /\
  (exists before,
     callsSince (calls s) s'
     = before ++
       [Call_send match opt_content with Some c => c | None => Text "" end;
        Call_abort]) /\
  exists k,
    eventsSince (events s) s'
    = repeat EventType.READY_STATE_CHANGE k ++
      [EventType.COMPLETE; EventType.ERROR; EventType.READY].
Proof.
  intros Hx Hq Ro Rs s'. subst s'.
  pose proof (send_calls t url opt_method opt_content opt_headers s
                Hx Hq Ro) as Cs.
  cbv zeta in Cs. rewrite Rs in Cs.
  destruct (send_decomposed t url opt_method opt_content opt_headers s
              Hx Hq Ro) as (s5 & Eq & F5 & _ & _ & _ & _ & _ & _ & _ & _ & _ & _
                            & k & Ev).
  rewrite Rs in Eq. rewrite Eq in *. cbn [fst snd] in *.
  destruct (error_inFlight (onAbort t) ErrorCode.EXCEPTION err s5 F5)
    as ((R1 & R2) & E).
  destruct (error_fields (onAbort t) ErrorCode.EXCEPTION err s5)
    as (_ & Fc & Fe).
  unfold getLastErrorCode, getLastError.
  split; [reflexivity|]. split; [exact R1|]. split; [exact R2|].
  split; [exact Fc|]. split; [exact Fe|]. split.
  - eexists. rewrite Cs.
    match goal with |- ?a :: ?l ++ [?b; ?c] = _ =>
      change (a :: l ++ [b; c]) with ((a :: l) ++ [b; c]) end.
    reflexivity.
  - exists k. apply eventsSince_app.
    rewrite E, Ev, <- app_assoc. reflexivity.
Qed.

(* ------------------------------------------------------------------ *)
(** ** The terminal notification, dispose, and the settings *)

(** X19. A notification at complete readiness that reaches the handler
    outside [send], and is not the local-request-error signal, settles
    the request: the handle is released and, if [isSuccess] holds of the
    response, READY_STATE_CHANGE, COMPLETE, SUCCESS, READY are
    dispatched and the error recorded stays as it was; otherwise
    READY_STATE_CHANGE, COMPLETE, ERROR, READY are dispatched and the
    error code HTTP_ERROR is recorded with the status text and the
    status. *)
Theorem terminal_notification_settles_request (n : Notification) (s : XhrIo) :
  inFlight s ->
  disposed_ s = false ->
  inSend_ s = false ->
  nReadyState n = ReadyState.COMPLETE ->
  localRequestErrorSignal (notified n s) = false ->
  let s' := notify n s in
  isActive s' = false /\ active_ s' = false /\
  (isSuccess (notified n s) = true ->
   events s'
   = events s ++ [EventType.READY_STATE_CHANGE; EventType.COMPLETE;
                  EventType.SUCCESS; EventType.READY] /\
   getLastErrorCode s' = getLastErrorCode s /\
   getLastError s' = getLastError s) /\
  (isSuccess (notified n s) = false ->
   events s'
   = events s ++ [EventType.READY_STATE_CHANGE; EventType.COMPLETE;
                  EventType.ERROR; EventType.READY] /\
   getLastErrorCode s' = ErrorCode.HTTP_ERROR /\
   getLastError s'
   = StatusLine (getStatusText (notified n s)) (getStatus (notified n s))).
Proof.
  intros Hf Hd Hs Hn Hl s'. subst s'.
  pose proof (samePhase_inFlight _ _ (notified_samePhase n s) Hf) as Hf0.
  pose proof (notified_samePhase n s) as (_ & _ & _ & Ev0).
  destruct (update_xhr_fields
              (xhr_with_readiness (nReadyState n) (nStatus n) (nStatusText n))
              s) as ((Er1 & Er2) & _).
  fold (notified n s) in Er1, Er2.
  change (notify n s)
    with (onReadyStateChange_ (notified n s)).
  assert (Hd0 : disposed_ (notified n s) = false)
    by (rewrite notified_disposed; exact Hd).
  assert (Hs0 : inSend_ (notified n s) = false)
    by (rewrite notified_inSend; exact Hs).
  assert (Hc0 : isComplete (notified n s) = true).
  { unfold isComplete.
    rewrite (notified_getReadyState n s (proj1 Hf)), Hn. reflexivity. }
  set (s0 := notified n s) in *. clearbody s0.
  destruct Hf0 as (Hx0 & Ha0 & He0).
  rewrite (onReadyStateChange_helper s0 Hd0).
  destruct (helper_cases s0 Ha0)
    as [(L & _) | [(_ & I & _) | [(_ & C & _) | (_ & _ & _ & ->)]]];
    try congruence.
  destruct (terminalBranch_effect s0 Hx0)
    as (T1 & T2 & _ & _ & _ & T).
  destruct (terminalBranch_fields s0) as (_ & Fs & Ff).
  unfold getLastErrorCode, getLastError.
  split; [exact T1|]. split; [exact T2|]. split.
  - intros Hsucc. destruct (Fs Hsucc) as (F1 & F2).
    destruct T as [(_ & _ & Ev) | [(Hno & _) | (Hno & _)]]; try congruence.
    repeat split; congruence.
  - intros Hfail. destruct (Ff Hfail) as (F1 & F2).
    destruct T as [(Hyes & _) | [(_ & _ & _ & Ev) | (_ & Hdis & _)]];
      try congruence.
    repeat split; congruence.
Qed.

Lemma disposeInternal_effect (r : list Notification) (s : XhrIo) :
  events (disposeInternal r s) = events s /\
  isActive (disposeInternal r s) = false /\
  disposed_ (disposeInternal r s) = disposed_ s /\
  sameError s (disposeInternal r s) /\
  sameSettings s (disposeInternal r s) /\
  calls (disposeInternal r s)
  = if isActive s && active_ s then calls s ++ [Call_abort] else calls s.
Proof.
  unfold disposeInternal.
  destruct (isActive s) eqn:Hx.
  - destruct (isActive_Some s Hx) as [x Ex]. rewrite Ex.
    destruct (active_ s) eqn:Ha; cbn [andb].
    + set (s1 := set_inAbort_ true (set_active_ false s)).
      assert (H1 : active_ s1 = false) by reflexivity.
      pose proof (xhr_abort_samePhase r s1 H1) as (P1 & _ & _ & P4).
      pose proof (xhr_abort_calls r s1 H1) as Pc.
      destruct (xhr_abort_fields r s1 H1) as (Pe & Ps).
      assert (Pd : disposed_ (xhr_abort r s1) = disposed_ s).
      { destruct (xhr_abort_inactive r s1 H1) as [-> | [n ->]];
          [reflexivity|].
        rewrite notified_disposed. reflexivity. }
      set (s2 := xhr_abort r s1) in *.
      set (mid := set_inAbort_ false s2).
      assert (Mx : isActive mid = true)
        by (change (isActive s2 = true); rewrite P1; exact Hx).
      destruct (cleanUpXhr_frame true mid) as (_ & _ & Fc & _ & Fd).
      destruct (cleanUpXhr_fields true mid) as (Fe & Fs).
      rewrite (cleanUpXhr_events true mid Mx), Fc, Fd.
      split; [exact P4|]. split; [apply cleanUpXhr_released|].
      split; [exact Pd|]. split; [|split; [|exact Pc]].
      * eapply sameError_trans; [|exact Fe].
        eapply sameError_trans; [|apply sameError_refl].
        eapply sameError_trans; [|exact Pe]. repeat split.
      * eapply sameSettings_trans; [|exact Fs].
        eapply sameSettings_trans; [|apply sameSettings_refl].
        eapply sameSettings_trans; [|exact Ps]. repeat split.
    + destruct (cleanUpXhr_frame true s) as (_ & _ & Fc & _ & Fd).
      destruct (cleanUpXhr_fields true s) as (Fe & Fs).
      rewrite (cleanUpXhr_events true s Hx), Fc, Fd.
      split; [reflexivity|]. split; [apply cleanUpXhr_released|]. auto.
  - rewrite (isActive_None s Hx). cbn [andb].
    split; [reflexivity|]. split; [exact Hx|]. split; [reflexivity|].
    split; [apply sameError_refl|]. split; [apply sameSettings_refl|].
    reflexivity.
Qed.

(** X20. [disposeInternal] dispatches no event in any state and always
    leaves the controller without a handle; it calls the handle's
    [abort] only if the request is still active, and leaves the handle
    alone otherwise. The error recorded is not changed. *)
Theorem disposeInternal_is_silent (r : list Notification) (s : XhrIo) :
  events (disposeInternal r s) = events s /\
  isActive (disposeInternal r s) = false /\
  calls (disposeInternal r s)
  = (if isActive s && active_ s then calls s ++ [Call_abort] else calls s) /\
  getLastErrorCode (disposeInternal r s) = getLastErrorCode s /\
  getLastError (disposeInternal r s) = getLastError s.
Proof.
  destruct (disposeInternal_effect r s) as (E & X & _ & (C1 & C2) & _ & C).
  unfold getLastErrorCode, getLastError. auto.
Qed.

(** X21. After [dispose], whatever the state it was called in, nothing
    reaches the listeners any more: no readiness notification, timer,
    handle timeout or [abort] call dispatches an event or calls into a
    handle, and a second [dispose] changes nothing. *)
Theorem disposed_controller_is_silent (r r' : list Notification)
    (stimuli : list Stimulus) (s : XhrIo) :
  disposed_ s = false ->
  let d := dispose r s in
  events (run stimuli d) = events s /\
  calls (run stimuli d) = calls d /\
  isActive (run stimuli d) = false /\
  disposed_ (run stimuli d) = true /\
  dispose r' d = d.
Proof.
  intros Hd d.
  assert (D : events d = events s /\ isActive d = false /\ disposed_ d = true).
  { subst d. unfold dispose. rewrite Hd.
    destruct (disposeInternal_effect r (set_disposed_ true s))
      as (E & X & Dd & _).
    auto. }
  destruct D as (De & Dx & Dd). clearbody d.
  assert (Run : forall l s0,
             isActive s0 = false -> disposed_ s0 = true ->
             events (run l s0) = events s0 /\
             calls (run l s0) = calls s0 /\
             isActive (run l s0) = false /\
             disposed_ (run l s0) = true).
  { induction l as [|i rest IH]; intros s0 Hx0 Hd0; [auto|].
    change (run (i :: rest) s0)
      with (run rest (step i s0)).
    assert (St : events (step i s0) = events s0 /\
                 calls (step i s0) = calls s0 /\
                 isActive (step i s0) = false /\
                 disposed_ (step i s0) = true).
    { destruct i as [n | id r0 | r0 | code r0]; simpl.
      - unfold notify, update_xhr. rewrite (isActive_None s0 Hx0).
        rewrite (onReadyStateChange_disposed s0 Hd0). auto.
      - unfold fireTimer.
        destruct (find (fun t => (timerId t =? id)%Z) (timers s0)) as [t|];
          [|auto].
        set (s1 := Timer_clear id s0).
        destruct (timerCallback t).
        + rewrite (timeout_released r0 s1 Hx0). auto.
        + rewrite (onReadyStateChange_disposed s1 Hd0). auto.
      - unfold fireNativeTimeout. rewrite (isActive_None s0 Hx0). auto.
      - unfold abort. rewrite (isActive_None s0 Hx0). auto. }
    destruct St as (S1 & S2 & S3 & S4).
    destruct (IH _ S3 S4) as (I1 & I2 & I3 & I4).
    repeat split; congruence. }
  destruct (Run stimuli d Dx Dd) as (R1 & R2 & R3 & R4).
  split; [congruence|]. split; [exact R2|]. split; [exact R3|].
  split; [exact R4|]. unfold dispose. now rewrite Dd.
Qed.

Lemma step_settings (i : Stimulus) (s : XhrIo) :
  sameSettings s (step i s).
Proof.
  destruct i as [n | id r | r | code r]; simpl.
  - apply notify_settings.
  - unfold fireTimer.
    destruct (find (fun t => (timerId t =? id)%Z) (timers s)) as [t|];
      [|apply sameSettings_refl].
    set (s1 := Timer_clear id s).
    assert (S1 : sameSettings s s1) by (repeat split).
    destruct (timerCallback t).
    + eapply sameSettings_trans; [exact S1 | apply timeout_fields].
    + eapply sameSettings_trans; [exact S1 | apply onReadyStateChange_settings].
  - unfold fireNativeTimeout.
    destruct (xhr_ s) as [x|]; [|apply sameSettings_refl].
    destruct (ontimeout x); try apply sameSettings_refl.
    apply timeout_fields.
  - apply abort_fields.
Qed.

Lemma run_settings (stimuli : list Stimulus) (s : XhrIo) :
  sameSettings s (run stimuli s).
Proof.
  revert s. induction stimuli as [|i rest IH]; intros s;
    [apply sameSettings_refl|].
  change (run (i :: rest) s)
    with (run rest (step i s)).
  eapply sameSettings_trans; [apply step_settings | apply IH].
Qed.

Lemma send_settings (t : Transport) (url : string)
    (opt_method : option string) (opt_content : option Content)
    (opt_headers : option (list (string * string))) (s : XhrIo) :
  isActive s = false ->
  let s' := fst (send t url opt_method opt_content opt_headers s) in
  headers s' = headers s /\ timeoutInterval_ s' = timeoutInterval_ s /\
  responseType_ s' = responseType_ s /\
  withCredentials_ s' = withCredentials_ s /\
  lastUri_ s' = url /\
  lastMethod_ s'
  = match opt_method with
    | Some m => if string_truthy m then toUpperCase m else "GET"
    | None => "GET"
    end.
Proof.
  intros Hx s'. subst s'.
  unfold send. rewrite (isActive_None s Hx).
  match goal with |- context [toUpperCase] =>
    set (method := match opt_method with
                   | Some m => if string_truthy m then toUpperCase m else "GET"
                   | None => "GET"
                   end)
  end.
  match goal with |- context [logCall (Call_open method url) ?m] =>
    set (s0 := logCall (Call_open method url) m) end.
  assert (A0 : headers s0 = headers s /\
               timeoutInterval_ s0 = timeoutInterval_ s /\
               responseType_ s0 = responseType_ s /\
               withCredentials_ s0 = withCredentials_ s /\
               lastUri_ s0 = url /\ lastMethod_ s0 = method).
  { subst s0. unfold update_xhr. simpl. repeat split. }
  assert (Close : forall s1, sameSettings s0 s1 ->
             headers s1 = headers s /\
             timeoutInterval_ s1 = timeoutInterval_ s /\
             responseType_ s1 = responseType_ s /\
             withCredentials_ s1 = withCredentials_ s /\
             lastUri_ s1 = url /\ lastMethod_ s1 = method).
  { intros s1 (B1 & B2 & B3 & B4 & B5 & B6).
    destruct A0 as (A1 & A2 & A3 & A4 & A5 & A6).
    repeat split; congruence. }
  pose proof (react_settings (fired (onOpen t)) s0) as S1.
  set (s1 := react (fired (onOpen t)) s0) in *.
  clearbody s1. clearbody s0.
  destruct (raised (onOpen t)) as [err|]; cbn [fst].
  - apply Close. eapply sameSettings_trans; [exact S1|]. apply error_fields.
  - destruct (xhr_ (set_inOpen_ false s1)); cbn [fst].
    + match goal with |- context [configure ?h ?m] =>
        destruct (configure_fields h m) as (_ & S3);
        set (s3 := configure h m) in * end.
      clearbody s3.
      match goal with |- context [react ?l ?m] =>
        pose proof (react_settings l m) as S5;
        set (s4 := m) in *; set (s5 := react l s4) in * end.
      assert (S05 : sameSettings s0 s5).
      { eapply sameSettings_trans; [exact S1|].
        eapply sameSettings_trans; [|exact S5].
        eapply sameSettings_trans; [|apply sameSettings_refl].
        eapply sameSettings_trans; [|exact S3]. repeat split. }
      clearbody s5.
      destruct (raised (onSend t)) as [err|]; cbn [fst].
      * apply Close. eapply sameSettings_trans; [exact S05|].
        apply error_fields.
      * apply Close. eapply sameSettings_trans; [exact S05|]. repeat split.
    + apply Close. eapply sameSettings_trans; [exact S1|]. repeat split.
Qed.

(** X22. A request cycle never changes what the owner configured: the
    default headers, the timeout interval, the response type and the
    credentials flag are after [send] and any further events what they
    were before, and [getLastUri] answers the URL that was passed to
    [send], whatever the handle did. *)
Theorem request_cycle_keeps_settings (t : Transport) (url : string)
    (opt_method : option string) (opt_content : option Content)
    (opt_headers : option (list (string * string)))
    (stimuli : list Stimulus) (s : XhrIo) :
  isActive s = false ->
  let final :=
    run stimuli
      (fst (send t url opt_method opt_content opt_headers s)) in
  getLastUri final = url /\
  headers final = headers s /\
  getTimeoutInterval final = getTimeoutInterval s /\
  getResponseType final = getResponseType s /\
  getWithCredentials final = getWithCredentials s.
Proof.
  intros Hx final. subst final.
  destruct (send_settings t url opt_method opt_content opt_headers s Hx)
    as (A1 & A2 & A3 & A4 & A5 & _).
  destruct (run_settings stimuli
              (fst (send t url opt_method opt_content opt_headers s)))
    as (B1 & B2 & B3 & B4 & B5 & _).
  unfold getLastUri, getTimeoutInterval, getResponseType, getWithCredentials.
  repeat split; congruence.
Qed.

(* ------------------------------------------------------------------ *)
(** ** The error code and the ending *)

Lemma onReadyStateChange_coded (s : XhrIo) :
  inFlight s ->
  (inFlight (onReadyStateChange_ s) /\
   sameError s (onReadyStateChange_ s) /\
   (events (onReadyStateChange_ s) = events s \/
    events (onReadyStateChange_ s) =
      events s ++ [EventType.READY_STATE_CHANGE]))
  \/
  (released (onReadyStateChange_ s) /\
   ((sameError s (onReadyStateChange_ s) /\
     events (onReadyStateChange_ s) =
       events s ++ [EventType.READY_STATE_CHANGE; EventType.COMPLETE;
                    EventType.SUCCESS; EventType.READY])
    \/
    (lastErrorCode_ (onReadyStateChange_ s) = ErrorCode.HTTP_ERROR /\
     events (onReadyStateChange_ s) =
       events s ++ [EventType.READY_STATE_CHANGE; EventType.COMPLETE;
                    EventType.ERROR; EventType.READY]))).
Proof.
  intros Hf. pose proof Hf as (Hx & Ha & He).
  destruct (onReadyStateChange_inFlight s Hf)
    as [(F & _ & E) | (R & _ & _ & _ & E)].
  - left. split; [exact F|]. split; [|exact E].
    now apply onReadyStateChange_stays_error.
  - right. split; [exact R|].
    assert (Hd : disposed_ s = false).
    { destruct (disposed_ s) eqn:Hd; [|reflexivity].
      rewrite (onReadyStateChange_disposed s Hd) in R.
      destruct R as (R & _). congruence. }
    rewrite (onReadyStateChange_helper s Hd) in *.
    destruct (helper_cases s Ha)
      as [(_ & Eq) | [(_ & _ & _ & Eq) | [(_ & _ & Eq) | (_ & _ & _ & Eq)]]];
      rewrite Eq in *;
      try solve [destruct R as (R & _); exfalso;
                 change (isActive s = false) in R; congruence].
    destruct (terminalBranch_effect s Hx)
      as (_ & _ & _ & _ & _ & T).
    destruct (terminalBranch_fields s) as (_ & Fs & Ff).
    destruct T as [(Hs & _ & Ev) | [(Hs & _ & _ & Ev) | (_ & Hdis & _)]].
    + left. split; [now apply Fs | exact Ev].
    + right. split; [now apply Ff | exact Ev].
    + congruence.
Qed.

Lemma notify_coded (n : Notification) (s : XhrIo) :
  inFlight s ->
  (inFlight (notify n s) /\
   sameError s (notify n s) /\
   (events (notify n s) = events s \/
    events (notify n s) =
      events s ++ [EventType.READY_STATE_CHANGE]))
  \/
  (released (notify n s) /\
   ((sameError s (notify n s) /\
     events (notify n s) =
       events s ++ [EventType.READY_STATE_CHANGE; EventType.COMPLETE;
                    EventType.SUCCESS; EventType.READY])
    \/
    (lastErrorCode_ (notify n s) = ErrorCode.HTTP_ERROR /\
     events (notify n s) =
       events s ++ [EventType.READY_STATE_CHANGE; EventType.COMPLETE;
                    EventType.ERROR; EventType.READY]))).
Proof.
  intros Hf.
  pose proof (samePhase_inFlight _ _ (notified_samePhase n s) Hf) as Hf0.
  pose proof (notified_samePhase n s) as (_ & _ & _ & Ev0).
  destruct (update_xhr_fields
              (xhr_with_readiness (nReadyState n) (nStatus n) (nStatusText n))
              s) as (Er & _).
  fold (notified n s) in Er.
  change (notify n s)
    with (onReadyStateChange_ (notified n s)).
  destruct (onReadyStateChange_coded (notified n s) Hf0)
    as [(F & E & Ev) | (R & [(E & Ev) | (C & Ev)])].
  - left. split; [exact F|]. split.
    + exact (sameError_trans _ _ _ Er E).
    + rewrite Ev0 in Ev. exact Ev.
  - right. split; [exact R|]. left. split.
    + exact (sameError_trans _ _ _ Er E).
    + rewrite Ev0 in Ev. exact Ev.
  - right. split; [exact R|]. right. split; [exact C|].
    rewrite Ev0 in Ev. exact Ev.
Qed.

Lemma cycleAccount_progress (before : list EventType.t)
    (aborted : option ErrorCode.t -> Prop) (s s' : XhrIo) (k : nat) :
  inFlight s' -> sameError s s' ->
  lastErrorCode_ s = ErrorCode.NO_ERROR -> lastError_ s = NoMessage ->
  events s = before ++ repeat EventType.READY_STATE_CHANGE k ->
  events s' = events s \/
  events s' = events s ++ [EventType.READY_STATE_CHANGE] ->
  cycleAccount before aborted s'.
Proof.
  intros F (E1 & E2) C M Ev [H | H]; left;
    (split; [exact F|]); (split; [congruence|]); (split; [congruence|]).
  - exists k. congruence.
  - exists (S k). rewrite H, Ev, <- app_assoc, repeat_snoc. reflexivity.
Qed.

Lemma cycleAccount_ended (before : list EventType.t)
    (aborted : option ErrorCode.t -> Prop) (s s' : XhrIo)
    (k j : nat) (ending : list EventType.t) :
  released s' ->
  EndingCode aborted ending (lastErrorCode_ s') ->
  events s = before ++ repeat EventType.READY_STATE_CHANGE k ->
  events s' = events s ++ repeat EventType.READY_STATE_CHANGE j ++ ending ->
  cycleAccount before aborted s'.
Proof.
  intros R C Ev H. right. split; [exact R|].
  exists (k + j)%nat, ending. split; [exact C|].
  rewrite H, Ev, <- app_assoc, app_assoc with (l := repeat _ k),
    repeat_app_plus. reflexivity.
Qed.

Lemma EndingCode_more (aborted aborted' : option ErrorCode.t -> Prop)
    (ending : list EventType.t) (code : ErrorCode.t) :
  (forall given, aborted given -> aborted' given) ->
  EndingCode aborted ending code -> EndingCode aborted' ending code.
Proof.
  intros H E. destruct E; try constructor.
  apply (EndingCode_abort aborted' given); auto.
Qed.

Lemma CodeGiven_recorded (given : option ErrorCode.t) :
  CodeGiven given
    match given with
    | Some c => if ErrorCode.truthy c then c else ErrorCode.ABORT
    | None => ErrorCode.ABORT
    end.
Proof.
  destruct given as [c|]; [|constructor].
  destruct c; simpl; constructor; discriminate.
Qed.

Lemma step_cycleAccount (before : list EventType.t)
    (aborted aborted' : option ErrorCode.t -> Prop) (i : Stimulus)
    (s : XhrIo) :
  (forall given, aborted given -> aborted' given) ->
  (forall given r, i = CallAbort given r -> isActive s = true ->
                   aborted' given) ->
  cycleAccount before aborted s ->
  cycleAccount before aborted' (step i s).
Proof.
  intros Hmore Hnow [(Hf & C & M & k & Ev) | (R & k & ending & C & Ev)].
  - pose proof Hf as (Hx & Ha & He).
    destruct i as [n | id r | r | code r]; simpl.
    + destruct (notify_coded n s Hf)
        as [(F & E & H) | (R & [((E1 & E2) & H) | (C' & H)])].
      * exact (cycleAccount_progress before aborted' s _ k F E C M Ev H).
      * apply (cycleAccount_ended before aborted' s _ k 1
             [EventType.COMPLETE; EventType.SUCCESS; EventType.READY] R);
          [|exact Ev|exact H].
        rewrite E1, C. constructor.
      * apply (cycleAccount_ended before aborted' s _ k 1
             [EventType.COMPLETE; EventType.ERROR; EventType.READY] R);
          [|exact Ev|exact H].
        rewrite C'. constructor.
    + unfold fireTimer.
      destruct (find (fun t => (timerId t =? id)%Z) (timers s)) as [t|].
      * set (s1 := Timer_clear id s).
        assert (F1 : inFlight s1) by exact Hf.
        destruct (timerCallback t).
        -- destruct (timeout_inFlight r s1 Hx Ha) as (R & _ & H).
           destruct (timeout_fields r s1) as (_ & Tf).
           destruct (Tf Hx Ha) as (Tc & _).
           apply (cycleAccount_ended before aborted' s _ k 0
             [EventType.TIMEOUT; EventType.COMPLETE; EventType.ABORT;
              EventType.READY] R);
             [|exact Ev|exact H].
           rewrite Tc. constructor.
        -- destruct (onReadyStateChange_coded s1 F1)
             as [(F & E & H) | (R & [((E1 & E2) & H) | (C' & H)])].
           ++ exact (cycleAccount_progress before aborted' s _ k F E C M Ev H).
           ++ apply (cycleAccount_ended before aborted' s _ k 1
             [EventType.COMPLETE; EventType.SUCCESS; EventType.READY] R);
                [|exact Ev|exact H].
              rewrite E1. change (lastErrorCode_ s1) with (lastErrorCode_ s).
              rewrite C. constructor.
           ++ apply (cycleAccount_ended before aborted' s _ k 1
             [EventType.COMPLETE; EventType.ERROR; EventType.READY] R);
                [|exact Ev|exact H].
              rewrite C'. constructor.
      * left. split; [exact Hf|]. split; [exact C|]. split; [exact M|].
        now exists k.
    + unfold fireNativeTimeout.
      destruct (isActive_Some s Hx) as [x Ex]. rewrite Ex.
      assert (Stay : cycleAccount before aborted' s).
      { left. split; [exact Hf|]. split; [exact C|]. split; [exact M|].
        now exists k. }
      destruct (ontimeout x); try exact Stay.
      destruct (timeout_inFlight r s Hx Ha) as (R & _ & H).
      destruct (timeout_fields r s) as (_ & Tf).
      destruct (Tf Hx Ha) as (Tc & _).
      apply (cycleAccount_ended before aborted' s _ k 0
             [EventType.TIMEOUT; EventType.COMPLETE; EventType.ABORT;
              EventType.READY] R); [|exact Ev|exact H].
      rewrite Tc. constructor.
    + destruct (abort_inFlight code r s Hx Ha) as (R & _ & H).
      destruct (abort_fields code r s) as (_ & _ & Ac).
      apply (cycleAccount_ended before aborted' s _ k 0
             [EventType.COMPLETE; EventType.ABORT; EventType.READY] R);
        [|exact Ev|exact H].
      rewrite (Ac Hx Ha).
      apply (EndingCode_abort aborted' code);
        [exact (Hnow code r eq_refl Hx) | apply CodeGiven_recorded].
  - pose proof R as (Hx & Ha).
    destruct (step_released_frame i s Hx Ha)
      as (Sx & Sa & Se & _ & Sc & _).
    right. split; [split; assumption|].
    exists k, ending. split; [|congruence].
    rewrite Sc. exact (EndingCode_more _ _ _ _ Hmore C).
Qed.

Lemma run_app (l1 l2 : list Stimulus) (s : XhrIo) :
  run (l1 ++ l2) s = run l2 (run l1 s).
Proof. unfold run. apply fold_left_app. Qed.

Lemma run_cycleAccount (before : list EventType.t) (sent : XhrIo)
    (rest done : list Stimulus) :
  cycleAccount before (abortedIn sent done) (run done sent) ->
  cycleAccount before (abortedIn sent (done ++ rest))
    (run (done ++ rest) sent).
Proof.
  revert done. induction rest as [|i rest IH]; intros done H.
  - now rewrite app_nil_r.
  - replace (done ++ i :: rest) with ((done ++ [i]) ++ rest)
      by (rewrite <- app_assoc; reflexivity).
    apply IH. rewrite run_app.
    change (run [i] (run done sent))
      with (step i (run done sent)).
    revert H. apply step_cycleAccount.
    + intros given (pre & r & post & E & A).
      exists pre, r, (post ++ [i]). split; [|exact A].
      rewrite E, <- app_assoc. reflexivity.
    + intros given r -> A. exists done, r, []. auto.
Qed.

Lemma send_cycleAccount (t : Transport) (url : string)
    (opt_method : option string) (opt_content : option Content)
    (opt_headers : option (list (string * string)))
    (aborted : option ErrorCode.t -> Prop) (s : XhrIo) :
  isActive s = false ->
  opensQuietly t ->
  cycleAccount (events s) aborted
    (fst (send t url opt_method opt_content opt_headers s)).
Proof.
  intros Hx Hq.
  destruct (raised (onOpen t)) as [err|] eqn:Ro.
  - destruct (send_open_raises t url opt_method opt_content opt_headers err s
                Hx Hq Ro) as (_ & R & C & _ & _ & k & Ev).
    right. split; [exact R|].
    exists k, [EventType.COMPLETE; EventType.ERROR; EventType.READY].
    split; [rewrite C; constructor | exact Ev].
  - destruct (send_decomposed t url opt_method opt_content opt_headers s
                Hx Hq Ro)
      as (s5 & Eq & F5 & _ & C5 & M5 & _ & _ & _ & _ & _ & _ & _ & k & Ev).
    rewrite Eq. destruct (raised (onSend t)) as [err|]; cbn [fst].
    + destruct (error_inFlight (onAbort t) ErrorCode.EXCEPTION err
                  s5 F5) as (R & E).
      destruct (error_fields (onAbort t) ErrorCode.EXCEPTION err s5)
        as (_ & Fc & _).
      right. split; [exact R|].
      exists k, [EventType.COMPLETE; EventType.ERROR; EventType.READY].
      split; [rewrite Fc; constructor|].
      rewrite E, Ev, <- app_assoc. reflexivity.
    + left. split; [exact F5|]. split; [exact C5|]. split; [exact M5|].
      exists k. exact Ev.
Qed.

(** X23. The error code agrees with how the cycle stands, for a request
    whose [open] reports no completion. While the request is in flight
    no error is recorded. Once the handle is released, the events of
    the cycle are progress reports followed by one ending, and the
    error code is NO_ERROR after COMPLETE, SUCCESS, READY, is HTTP_ERROR
    or EXCEPTION after COMPLETE, ERROR, READY, is TIMEOUT after TIMEOUT,
    COMPLETE, ABORT, READY, and after COMPLETE, ABORT, READY is the code
    given to an [abort] that was called while the request was in
    flight, or ABORT if that call gave none or gave NO_ERROR. *)
Theorem error_code_matches_ending (t : Transport) (url : string)
    (opt_method : option string) (opt_content : option Content)
    (opt_headers : option (list (string * string)))
    (stimuli : list Stimulus) (s : XhrIo) :
  isActive s = false ->
  opensQuietly t ->
  let sent :=
    fst (send t url opt_method opt_content opt_headers s) in
  let final := run stimuli sent in
  (isActive final = true ->
   getLastErrorCode final = ErrorCode.NO_ERROR /\
   getLastError final = NoMessage) /\
  (isActive final = false ->
   exists k ending,
     EndingCode (abortedIn sent stimuli) ending (getLastErrorCode final) /\
     eventsSince (events s) final
     = repeat EventType.READY_STATE_CHANGE k ++ ending).
Proof.
  intros Hx Hq sent final.
  pose proof (run_cycleAccount (events s) sent stimuli []
                (send_cycleAccount t url opt_method opt_content opt_headers
                   (abortedIn sent []) s Hx Hq)) as H.
  change ([] ++ stimuli) with stimuli in H.
  fold final in H. clearbody final. clearbody sent.
  unfold getLastErrorCode, getLastError.
  destruct H as [((Fx & _) & C & M & _) | ((Rx & _) & k & ending & C & Ev)].
  - split; [auto | congruence].
  - split; [congruence|]. intros _. exists k, ending.
    split; [exact C|]. now apply eventsSince_app.
Qed.

(* ------------------------------------------------------------------ *)
(** ** The timeout is disarmed with the handle *)

Lemma timersKept_refl (s : XhrIo) : timersKept s s.
Proof. repeat split; auto. Qed.

Lemma timersKept_trans (a b c : XhrIo) :
  timersKept a b -> timersKept b c -> timersKept a c.
Proof.
  intros (A1 & A2 & A3) (B1 & B2 & B3). split; [|split; congruence].
  intros t Ht Hc. apply A1; [|exact Hc]. now apply B1.
Qed.

Lemma timersKept_tracked (s s' : XhrIo) :
  timersKept s s' -> timeoutTracked s -> timeoutTracked s'.
Proof.
  intros (A1 & A2 & A3) K t Ht Hc.
  destruct (K t (A1 t Ht Hc) Hc) as (K1 & K2). split; congruence.
Qed.

Lemma timersKept_same (s s' : XhrIo) :
  timers s' = timers s -> timeoutId_ s' = timeoutId_ s ->
  isActive s' = isActive s -> timersKept s s'.
Proof. intros T I X. split; [|split; assumption]. intros t Ht _. congruence. Qed.

Lemma fallbackTimeoutArmed_false (s : XhrIo) :
  fallbackTimeoutArmed s = false <->
  (forall t, In t (timers s) -> timerCallback t <> Callback_timeout_).
Proof.
  unfold fallbackTimeoutArmed. split.
  - intros H t Ht Hc.
    assert (E : existsb
                  (fun t => match timerCallback t with
                            | Callback_timeout_ => true
                            | Callback_onReadyStateChange_ => false
                            end) (timers s) = true).
    { apply existsb_exists. exists t. split; [exact Ht|]. now rewrite Hc. }
    congruence.
  - intros H.
    destruct (existsb _ (timers s)) eqn:E; [|reflexivity].
    apply existsb_exists in E. destruct E as (t & Ht & Hc).
    exfalso. apply (H t Ht). destruct (timerCallback t); [reflexivity|discriminate].
Qed.

Lemma disarmed_tracked (s : XhrIo) :
  fallbackTimeoutArmed s = false -> timeoutTracked s.
Proof.
  intros H t Ht Hc. exfalso.
  exact (proj1 (fallbackTimeoutArmed_false s) H t Ht Hc).
Qed.

Lemma tracked_released_disarmed (s : XhrIo) :
  timeoutTracked s -> isActive s = false -> fallbackTimeoutArmed s = false.
Proof.
  intros K Hx. apply fallbackTimeoutArmed_false. intros t Ht Hc.
  destruct (K t Ht Hc) as (K1 & _). congruence.
Qed.

Lemma update_xhr_timersKept (f : Xhr -> Xhr) (s : XhrIo) :
  timersKept s (update_xhr f s).
Proof.
  apply timersKept_same; unfold update_xhr, isActive;
    destruct (xhr_ s) eqn:Ex; simpl; rewrite ?Ex; reflexivity.
Qed.

Lemma cleanUpTimeoutTimer_disarms (s : XhrIo) :
  timeoutTracked s ->
  fallbackTimeoutArmed (cleanUpTimeoutTimer_ s) = false /\
  timeoutId_ (cleanUpTimeoutTimer_ s) = None /\
  isActive (cleanUpTimeoutTimer_ s) = isActive s.
Proof.
  intros K.
  destruct (cleanUpTimeoutTimer_frame s) as (_ & _ & _ & _ & _ & _ & Fx & Fi).
  split; [|split; assumption].
  apply fallbackTimeoutArmed_false. intros t Ht Hc.
  assert (Ht' : In t (timers s) /\
                forall id, timeoutId_ s = Some id -> timerId t <> id).
  { revert Ht. unfold cleanUpTimeoutTimer_, Timer_clear.
    destruct (xhr_ s); [destruct (useXhr2Timeout_ s)|]; simpl;
      destruct (timeoutId_ s) as [id|]; simpl; intros Ht;
      try (apply filter_In in Ht; destruct Ht as (Ht & Hne);
           apply negb_true_iff, Z.eqb_neq in Hne);
      (split; [exact Ht|]); intros id' Hid; congruence. }
  destruct Ht' as (Hin & Hne).
  destruct (K t Hin Hc) as (_ & Kid). exact (Hne _ Kid eq_refl).
Qed.

Lemma cleanUpXhr_disarms (b : bool) (s : XhrIo) :
  timeoutTracked s ->
  timeoutTracked (cleanUpXhr_ b s) /\
  fallbackTimeoutArmed (cleanUpXhr_ b s) = false.
Proof.
  intros K.
  assert (D : fallbackTimeoutArmed (cleanUpXhr_ b s) = false).
  { destruct (isActive s) eqn:Hx.
    - destruct (cleanUpTimeoutTimer_disarms s K) as (F & _).
      destruct (isActive_Some s Hx) as [x Ex].
      unfold cleanUpXhr_. rewrite Ex.
      destruct b; exact F.
    - rewrite (cleanUpXhr_idle b s Hx).
      now apply tracked_released_disarmed. }
  split; [now apply disarmed_tracked | exact D].
Qed.

Lemma dispatchErrors_timersKept (s : XhrIo) : timersKept s (dispatchErrors_ s).
Proof.
  unfold dispatchErrors_. destruct (errorDispatched_ s);
    apply timersKept_same; reflexivity.
Qed.

Lemma terminalBranch_tracked (s : XhrIo) :
  timeoutTracked s -> timeoutTracked (terminalBranch s).
Proof.
  intros K. unfold terminalBranch.
  match goal with |- context [cleanUpXhr_ false ?m] => set (mid := m) end.
  apply cleanUpXhr_disarms.
  apply (timersKept_tracked s); [|exact K].
  subst mid.
  match goal with |- context [if ?c then _ else _] => destruct c end.
  - apply timersKept_same; reflexivity.
  - eapply timersKept_trans; [|apply dispatchErrors_timersKept].
    apply timersKept_same; reflexivity.
Qed.

Lemma deferral_timersKept (s : XhrIo) :
  timersKept s (snd (Timer_callOnce Callback_onReadyStateChange_ (Num 0) s)).
Proof.
  split; [|split; reflexivity].
  intros t Ht Hc. simpl in Ht. apply in_app_or in Ht.
  destruct Ht as [Ht | [Ht | []]]; [exact Ht|].
  subst t. discriminate Hc.
Qed.

Lemma onReadyStateChange_tracked (s : XhrIo) :
  timeoutTracked s -> timeoutTracked (onReadyStateChange_ s).
Proof.
  intros K.
  destruct (disposed_ s) eqn:Hd.
  - now rewrite (onReadyStateChange_disposed s Hd).
  - rewrite (onReadyStateChange_helper s Hd).
    destruct (active_ s) eqn:Ha.
    + destruct (helper_cases s Ha)
        as [(_ & ->) | [(_ & _ & _ & ->) | [(_ & _ & ->) | (_ & _ & _ & ->)]]].
      * exact K.
      * exact (timersKept_tracked _ _ (deferral_timersKept s) K).
      * apply (timersKept_tracked s); [|exact K].
        apply timersKept_same; reflexivity.
      * now apply terminalBranch_tracked.
    + now rewrite (helper_inactive s Ha).
Qed.

Lemma notify_tracked (n : Notification) (s : XhrIo) :
  timeoutTracked s -> timeoutTracked (notify n s).
Proof.
  intros K. unfold notify. apply onReadyStateChange_tracked.
  exact (timersKept_tracked _ _ (update_xhr_timersKept _ s) K).
Qed.

Lemma react_tracked (ns : list Notification) (s : XhrIo) :
  timeoutTracked s -> timeoutTracked (react ns s).
Proof.
  revert s. induction ns as [|n ns IH]; intros s K; [exact K|].
  change (react (n :: ns) s)
    with (react ns (notify n s)).
  apply IH. now apply notify_tracked.
Qed.

Lemma xhr_abort_tracked (r : list Notification) (s : XhrIo) :
  timeoutTracked s -> timeoutTracked (xhr_abort r s).
Proof.
  intros K. unfold xhr_abort. apply react_tracked.
  apply (timersKept_tracked s); [|exact K]. apply timersKept_same; reflexivity.
Qed.

Lemma abort_tracked (code : option ErrorCode.t) (r : list Notification)
    (s : XhrIo) :
  timeoutTracked s -> timeoutTracked (abort code r s).
Proof.
  intros K. unfold abort.
  destruct (xhr_ s); [|exact K]. destruct (active_ s); [|exact K].
  apply cleanUpXhr_disarms.
  match goal with |- context [xhr_abort r ?m] =>
    assert (K1 : timeoutTracked (xhr_abort r m)) end.
  { apply xhr_abort_tracked. apply (timersKept_tracked s); [|exact K].
    apply timersKept_same; reflexivity. }
  revert K1. apply timersKept_tracked. apply timersKept_same; reflexivity.
Qed.

Lemma timeout_tracked (r : list Notification) (s : XhrIo) :
  timeoutTracked s -> timeoutTracked (timeout_ r s).
Proof.
  intros K. unfold timeout_. destruct (xhr_ s) eqn:Ex; [|exact K].
  apply abort_tracked. apply (timersKept_tracked s); [|exact K].
  apply timersKept_same; unfold isActive; simpl; reflexivity.
Qed.

Lemma error_tracked (r : list Notification) (code : ErrorCode.t)
    (err : string) (s : XhrIo) :
  timeoutTracked s -> timeoutTracked (error_ r code err s).
Proof.
  intros K. unfold error_. apply cleanUpXhr_disarms.
  apply (timersKept_tracked _ _ (dispatchErrors_timersKept _)).
  match goal with |- timeoutTracked (set_lastErrorCode_ _ (set_lastError_ _ ?m)) =>
    assert (K1 : timeoutTracked m) end.
  { simpl xhr_. destruct (xhr_ s) eqn:Ex.
    - match goal with |- context [xhr_abort r ?m] =>
        assert (K1 : timeoutTracked (xhr_abort r m)) end.
      { apply xhr_abort_tracked. apply (timersKept_tracked s); [|exact K].
        apply timersKept_same; reflexivity. }
      revert K1. apply timersKept_tracked. apply timersKept_same; reflexivity.
    - apply (timersKept_tracked s); [|exact K].
      apply timersKept_same; reflexivity. }
  revert K1. apply timersKept_tracked. apply timersKept_same; reflexivity.
Qed.

Lemma Timer_clear_timersKept (id : Z) (s : XhrIo) :
  timersKept s (Timer_clear id s).
Proof.
  split; [|split; reflexivity].
  intros t Ht _. simpl in Ht. apply filter_In in Ht. tauto.
Qed.

Lemma step_tracked (i : Stimulus) (s : XhrIo) :
  timeoutTracked s -> timeoutTracked (step i s).
Proof.
  intros K. destruct i as [n | id r | r | code r]; simpl.
  - now apply notify_tracked.
  - unfold fireTimer.
    destruct (find (fun t => (timerId t =? id)%Z) (timers s)) as [t|];
      [|exact K].
    pose proof (timersKept_tracked _ _ (Timer_clear_timersKept id s) K) as K1.
    destruct (timerCallback t).
    + now apply timeout_tracked.
    + now apply onReadyStateChange_tracked.
  - unfold fireNativeTimeout. destruct (xhr_ s) as [x|]; [|exact K].
    destruct (ontimeout x); try exact K. now apply timeout_tracked.
  - now apply abort_tracked.
Qed.

Lemma run_tracked (stimuli : list Stimulus) (s : XhrIo) :
  timeoutTracked s -> timeoutTracked (run stimuli s).
Proof.
  revert s. induction stimuli as [|i rest IH]; intros s K; [exact K|].
  change (run (i :: rest) s)
    with (run rest (step i s)).
  apply IH. now apply step_tracked.
Qed.

Lemma armTimeout_tracked (s : XhrIo) :
  isActive s = true -> fallbackTimeoutArmed s = false ->
  timeoutTracked (armTimeout s).
Proof.
  intros Hx Hd. destruct (isActive_Some s Hx) as [x Ex].
  unfold armTimeout.
  destruct (number_gt (timeoutInterval_ s) (Num 0));
    [|now apply disarmed_tracked].
  rewrite Ex. simpl useXhr2Timeout_.
  destruct (shouldUseXhr2Timeout_ x).
  - apply disarmed_tracked.
    unfold update_xhr. simpl. rewrite Ex. simpl. exact Hd.
  - intros t Ht Hc. simpl in Ht. apply in_app_or in Ht.
    destruct Ht as [Ht | [Ht | []]].
    + exfalso. exact (proj1 (fallbackTimeoutArmed_false s) Hd t Ht Hc).
    + subst t. split; [|reflexivity]. unfold isActive. simpl. now rewrite Ex.
Qed.

Lemma configure_tracked (hs : list (string * string)) (s : XhrIo) :
  isActive s = true -> timeoutTracked s ->
  timeoutTracked (configure hs s).
Proof.
  intros Hx K. unfold configure. rewrite setRequestHeaders_calls.
  match goal with |- context [set_calls ?c s] => set (s0 := set_calls c s) end.
  assert (A0 : timersKept s s0) by (apply timersKept_same; reflexivity).
  change (responseType_ s0) with (responseType_ s) in *.
  match goal with |- context [xhr_ ?m] => set (s1 := m) end.
  assert (A1 : timersKept s s1).
  { subst s1. destruct (ResponseType.truthy (responseType_ s)); [|exact A0].
    exact (timersKept_trans _ _ _ A0 (update_xhr_timersKept _ s0)). }
  clearbody s1.
  match goal with |- context [cleanUpTimeoutTimer_ ?m] => set (s2 := m) end.
  assert (A2 : timersKept s s2).
  { subst s2. destruct (xhr_ s1) as [x1|]; [|exact A1].
    destruct (hasWithCredentials x1); [|exact A1].
    exact (timersKept_trans _ _ _ A1 (update_xhr_timersKept _ s1)). }
  clearbody s2.
  pose proof (timersKept_tracked _ _ A2 K) as K2.
  destruct (cleanUpTimeoutTimer_disarms s2 K2) as (D & _ & X).
  apply armTimeout_tracked; [|exact D].
  destruct A2 as (_ & _ & X2). congruence.
Qed.

Lemma send_tracked (t : Transport) (url : string)
    (opt_method : option string) (opt_content : option Content)
    (opt_headers : option (list (string * string))) (s : XhrIo) :
  timeoutTracked s ->
  timeoutTracked
    (fst (send t url opt_method opt_content opt_headers s)).
Proof.
  intros K. unfold send. destruct (xhr_ s) eqn:Ex; [exact K|].
  match goal with |- context [toUpperCase] =>
    set (method := match opt_method with
                   | Some m => if string_truthy m then toUpperCase m else "GET"
                   | None => "GET"
                   end)
  end.
  match goal with |- context [logCall (Call_open method url) ?m] =>
    set (s0 := logCall (Call_open method url) m) end.
  assert (K0 : timeoutTracked s0).
  { apply disarmed_tracked.
    assert (D : fallbackTimeoutArmed s = false).
    { apply tracked_released_disarmed; [exact K|].
      unfold isActive. now rewrite Ex. }
    exact D. }
  pose proof (react_tracked (fired (onOpen t)) s0 K0) as K1.
  set (s1 := react (fired (onOpen t)) s0) in *.
  clearbody s1. clearbody s0.
  destruct (raised (onOpen t)) as [err|]; cbn [fst].
  - now apply error_tracked.
  - destruct (xhr_ (set_inOpen_ false s1)) eqn:Ex1; cbn [fst].
    + match goal with |- context [configure ?h ?m] =>
        assert (K3 : timeoutTracked (configure h m));
        [|set (s3 := configure h m) in *] end.
      { apply configure_tracked.
        - unfold isActive. now rewrite Ex1.
        - revert K1. apply timersKept_tracked.
          apply timersKept_same; reflexivity. }
      clearbody s3.
      match goal with |- context [react ?l ?m] =>
        assert (K5 : timeoutTracked (react l m));
        [|set (s5 := react l m) in *] end.
      { apply react_tracked. revert K3. apply timersKept_tracked.
        apply timersKept_same; reflexivity. }
      clearbody s5.
      destruct (raised (onSend t)) as [err|]; cbn [fst].
      * now apply error_tracked.
      * revert K5. apply timersKept_tracked.
        apply timersKept_same; reflexivity.
    + revert K1. apply timersKept_tracked. apply timersKept_same; reflexivity.
Qed.


(* ------------------------------------------------------------------ *)
(** ** What [send] sets on the handle *)

(** X25. A [send] that returns with the request in flight has bound the
    readiness handler on the handle, has written the controller's
    response type to it if one was set, leaving the handle's own
    otherwise, and has written the credentials flag to it exactly if
    the handle has a [withCredentials] property. *)
Theorem send_configures_handle (t : Transport) (url : string)
    (opt_method : option string) (opt_content : option Content)
    (opt_headers : option (list (string * string))) (s : XhrIo) :
  isActive s = false ->
  opensQuietly t ->
  raised (onOpen t) = None ->
  raised (onSend t) = None ->
  exists x,
    xhr_ (fst (send t url opt_method opt_content opt_headers s))
    = Some x /\
    onreadystatechange x = Handler_bound /\
    withCredentials x
    = (if hasWithCredentials (createInstance t) then getWithCredentials s
       else withCredentials (createInstance t)) /\
    responseType x
    = (if ResponseType.truthy (getResponseType s) then getResponseType s
       else responseType (createInstance t)).
Proof.
  intros Hx Hq Ro Rs.
  destruct (send_decomposed t url opt_method opt_content opt_headers s
              Hx Hq Ro)
    as (s5 & Eq & F5 & _ & _ & _ & _ & _ & _ & _ & _ & _ & V & _).
  rewrite Eq, Rs. cbn [fst].
  change (xhr_ (set_inSend_ false s5)) with (xhr_ s5).
  unfold handleRequestView in V.
  destruct (xhr_ s5) as [x|]; [|discriminate].
  injection V as V1 V2 V3 V4.
  exists x. unfold getWithCredentials, getResponseType. auto.
Qed.

(* ------------------------------------------------------------------ *)
(** ** The headers of a request *)

Lemma Map_set_In_same (k v : string) (m : list (string * string)) :
  In (k, v) (Map_set k v m).
Proof.
  induction m as [|[k0 v0] m IH]; simpl; [now left|].
  destruct (String.eqb k0 k); [now left | now right].
Qed.

Lemma Map_set_In_other (k v k' v' : string) (m : list (string * string)) :
  k' <> k -> (In (k', v') (Map_set k v m) <-> In (k', v') m).
Proof.
  intros Hne. induction m as [|[k0 v0] m IH]; simpl.
  - split; [|intros []]. intros [H | []]. congruence.
  - destruct (String.eqb k0 k) eqn:E.
    + apply String.eqb_eq in E. subst k0. simpl.
      split; (intros [H | H]; [congruence | now right]).
    + simpl. rewrite IH. reflexivity.
Qed.

Lemma Map_set_keys (k v : string) (m : list (string * string)) :
  map fst (Map_set k v m)
  = if existsb (String.eqb k) (map fst m) then map fst m
    else map fst m ++ [k].
Proof.
  induction m as [|[k0 v0] m IH]; simpl; [reflexivity|].
  rewrite (String.eqb_sym k k0).
  destruct (String.eqb k0 k) eqn:E; simpl.
  - apply String.eqb_eq in E. now subst.
  - rewrite IH. destruct (existsb (String.eqb k) (map fst m)); reflexivity.
Qed.

Lemma Map_set_NoDup (k v : string) (m : list (string * string)) :
  NoDup (map fst m) -> NoDup (map fst (Map_set k v m)).
Proof.
  intros H. rewrite Map_set_keys.
  destruct (existsb (String.eqb k) (map fst m)) eqn:E; [exact H|].
  apply NoDup_app; [exact H | constructor; [intros [] | constructor] |].
  intros x Hx [Hk | []]. subst x.
  assert (E' : existsb (String.eqb k) (map fst m) = true).
  { apply existsb_exists. exists k. split; [exact Hx | apply String.eqb_refl]. }
  congruence.
Qed.

Lemma Map_setAll_NoDup (extra m : list (string * string)) :
  NoDup (map fst m) -> NoDup (map fst (Map_setAll extra m)).
Proof.
  unfold Map_setAll. revert m.
  induction extra as [|[k v] extra IH]; intros m H; simpl; [exact H|].
  apply IH. now apply Map_set_NoDup.
Qed.

Lemma Map_setAll_keeps (extra m : list (string * string)) (k v : string) :
  ~ In k (map fst extra) -> In (k, v) m -> In (k, v) (Map_setAll extra m).
Proof.
  unfold Map_setAll. revert m.
  induction extra as [|[k0 v0] extra IH]; intros m Hn Hin; simpl;
    [exact Hin|].
  apply IH.
  - intros H. apply Hn. now right.
  - apply Map_set_In_other; [|exact Hin].
    intros E. apply Hn. left. simpl. congruence.
Qed.

Lemma Map_setAll_app (l1 l2 m : list (string * string)) :
  Map_setAll (l1 ++ l2) m = Map_setAll l2 (Map_setAll l1 m).
Proof. unfold Map_setAll. apply fold_left_app. Qed.

Lemma Map_setAll_last (l1 l2 m : list (string * string)) (k v : string) :
  ~ In k (map fst l2) -> In (k, v) (Map_setAll (l1 ++ (k, v) :: l2) m).
Proof.
  intros Hn. rewrite Map_setAll_app.
  change (Map_setAll ((k, v) :: l2) (Map_setAll l1 m))
    with (Map_setAll l2 (Map_set k v (Map_setAll l1 m))).
  apply Map_setAll_keeps; [exact Hn | apply Map_set_In_same].
Qed.

Lemma wantsFormContentType_no_key (method : string)
    (supplied : list (string * string)) (content : Content) :
  wantsFormContentType method supplied content = true ->
  ~ In CONTENT_TYPE_HEADER (map fst supplied).
Proof.
  unfold wantsFormContentType. intros H Hin.
  apply andb_true_iff in H. destruct H as (H & _).
  apply andb_true_iff in H. destruct H as (_ & H).
  apply negb_true_iff in H.
  assert (E : existsb (fun k => String.eqb (toLowerCase k) "content-type")
                (map fst supplied) = true).
  { apply existsb_exists. exists CONTENT_TYPE_HEADER. split; [exact Hin|].
    reflexivity. }
  congruence.
Qed.

Lemma send_headersPassed (t : Transport) (url : string)
    (opt_method : option string) (opt_content : option Content)
    (opt_headers : option (list (string * string))) (s : XhrIo) :
  isActive s = false ->
  opensQuietly t ->
  raised (onOpen t) = None ->
  let supplied :=
    match opt_headers with
    | Some extra => Map_setAll extra (headers s)
    | None => headers s
    end in
  headersPassed
    (callsSince (calls s)
       (fst (send t url opt_method opt_content opt_headers s)))
  = supplied \/
  (~ In CONTENT_TYPE_HEADER (map fst supplied) /\
   headersPassed
     (callsSince (calls s)
        (fst (send t url opt_method opt_content opt_headers s)))
   = supplied ++ [(CONTENT_TYPE_HEADER, FORM_CONTENT_TYPE)]).
Proof.
  intros Hx Hq Ro supplied.
  rewrite (send_calls t url opt_method opt_content opt_headers s
             Hx Hq Ro).
  match goal with |- context [Call_open ?m url] => set (method := m) end.
  match goal with |- context [Call_send ?c] => set (content := c) end.
  change (Call_open method url :: ?l) with ([Call_open method url] ++ l).
  rewrite !headersPassed_app, headersPassed_setRequestHeaders.
  simpl headersPassed at 1.
  replace (headersPassed (Call_send content :: _)) with (@nil (string * string))
    by (destruct (raised (onSend t)); reflexivity).
  rewrite app_nil_r. simpl app.
  pose proof (requestHeaders_spec method content opt_headers s) as R.
  cbv zeta in R. fold supplied in R. rewrite R.
  destruct (wantsFormContentType method supplied content) eqn:W.
  - right. split; [|reflexivity].
    now apply (wantsFormContentType_no_key method supplied content).
  - now left.
Qed.

(** X26. The headers of a request are the default headers overridden by
    the per-call ones. If the default headers have pairwise different
    names, [send] hands the handle each name once; a per-call header is
    passed with the value given last for its name; a default header
    whose name no per-call header has is passed with its value. *)
Theorem request_headers_are_merged (t : Transport) (url : string)
    (opt_method : option string) (opt_content : option Content)
    (opt_headers : option (list (string * string))) (s : XhrIo) :
  isActive s = false ->
  opensQuietly t ->
  raised (onOpen t) = None ->
  NoDup (map fst (headers s)) ->
  let passed :=
    headersPassed
      (callsSince (calls s)
         (fst (send t url opt_method opt_content opt_headers s))) in
  NoDup (map fst passed) /\
  (forall l1 k v l2,
      opt_headers = Some (l1 ++ (k, v) :: l2) ->
      ~ In k (map fst l2) ->
      In (k, v) passed) /\
  (forall k v,
      In (k, v) (headers s) ->
      (forall extra, opt_headers = Some extra -> ~ In k (map fst extra)) ->
      In (k, v) passed).
Proof.
  intros Hx Hq Ro Hnd passed.
  pose proof (send_headersPassed t url opt_method opt_content opt_headers s
                Hx Hq Ro) as P.
  cbv zeta in P. fold passed in P. clearbody passed.
  set (supplied := match opt_headers with
                   | Some extra => Map_setAll extra (headers s)
                   | None => headers s
                   end) in *.
  assert (Snd : NoDup (map fst supplied)).
  { subst supplied. destruct opt_headers; [|exact Hnd].
    now apply Map_setAll_NoDup. }
  assert (Slast : forall l1 k v l2,
             opt_headers = Some (l1 ++ (k, v) :: l2) ->
             ~ In k (map fst l2) -> In (k, v) supplied).
  { intros l1 k v l2 E Hn. subst supplied. rewrite E.
    now apply Map_setAll_last. }
  assert (Skeep : forall k v,
             In (k, v) (headers s) ->
             (forall extra, opt_headers = Some extra ->
                            ~ In k (map fst extra)) ->
             In (k, v) supplied).
  { intros k v Hin Hn. subst supplied. destruct opt_headers as [extra|];
      [|exact Hin].
    apply Map_setAll_keeps; [now apply Hn | exact Hin]. }
  clearbody supplied.
  destruct P as [-> | (Hct & ->)].
  - auto.
  - split; [|split].
    + rewrite map_app. simpl.
      apply NoDup_app; [exact Snd | constructor; [intros [] | constructor] |].
      intros x Hx' [E | []]. subst x. now apply Hct.
    + intros l1 k v l2 E Hn. apply in_or_app. left. now apply (Slast l1 k v l2).
    + intros k v Hin Hn. apply in_or_app. left. now apply Skeep.
Qed.

(* ------------------------------------------------------------------ *)
(** ** Response accessors *)

(** X27. [getResponseText], [getResponseXml] and [getResponse] never
    throw: when the handle refuses the read, they answer the empty
    string, null and null, as they do when there is no handle. *)
Theorem response_accessors_never_throw (s : XhrIo) :
  (exists v, getResponseText s = Returned v) /\
  (exists v, getResponseXml s = Returned v) /\
  (exists v, getResponse s = Returned v) /\
  (isActive s = false ->
   getResponseText s = Returned "" /\ getResponseXml s = Returned JsNull /\
   getResponse s = Returned JsNull) /\
  (forall x, xhr_ s = Some x ->
   (responseText x = None -> getResponseText s = Returned "") /\
   (responseXML x = None -> getResponseXml s = Returned JsNull) /\
   (response x = Some None -> getResponse s = Returned JsNull)).
Proof.
  split; [|split; [|split; [|split]]].
  - unfold getResponseText, try_catch, read.
    destruct (xhr_ s) as [x|]; [destruct (responseText x)|]; eauto.
  - unfold getResponseXml, try_catch, read.
    destruct (xhr_ s) as [x|]; [destruct (responseXML x)|]; eauto.
  - unfold getResponse, try_catch, read.
    destruct (xhr_ s) as [x|]; [|eauto].
    destruct (response x) as [[v|]|]; eauto.
    destruct (responseType_ s); eauto.
    + destruct (responseText x); eauto.
    + destruct (responseText x); eauto.
    + destruct (mozResponseArrayBuffer x) as [[v|]|]; eauto.
  - intros Hx. unfold getResponseText, getResponseXml, getResponse.
    rewrite (isActive_None s Hx). auto.
  - intros x Ex. unfold getResponseText, getResponseXml, getResponse.
    rewrite Ex. repeat split; intros ->; reflexivity.
Qed.

Lemma prefix_app (p body : string) : String.prefix p (p ++ body)%string = true.
Proof.
  induction p as [|c p IH]; simpl; [now destruct body|].
  destruct (ascii_dec c c); [exact IH | congruence].
Qed.

Lemma substring_whole (s : string) : substring 0 (String.length s) s = s.
Proof. induction s as [|c s IH]; simpl; [reflexivity | now rewrite IH]. Qed.

Lemma substring_after (p body : string) :
  substring (String.length p)
    (String.length (p ++ body)%string - String.length p) (p ++ body)%string
  = body.
Proof.
  induction p as [|c p IH]; simpl.
  - rewrite Nat.sub_0_r. apply substring_whole.
  - exact IH.
Qed.

(** X28. [getResponseJson] with a prefix: if the response text starts
    with the prefix, the text after the prefix is what is parsed; if it
    does not, or no prefix is given, the whole text is parsed. *)
Theorem getResponseJson_strips_prefix (x : Xhr) (s : XhrIo) :
  xhr_ s = Some x ->
  (forall p body,
      responseText x = Some (p ++ body)%string ->
      getResponseJson (Some p) s
      = json_parse body) /\
  (forall p text,
      responseText x = Some text -> String.prefix p text = false ->
      getResponseJson (Some p) s
      = json_parse text) /\
  (forall text,
      responseText x = Some text ->
      getResponseJson None s = json_parse text).
Proof.
  intros Ex. unfold getResponseJson, read, stripPrefix. rewrite Ex.
  split; [|split].
  - intros p body ->. rewrite prefix_app, andb_true_r.
    destruct (string_truthy p) eqn:T.
    + now rewrite substring_after.
    + destruct p; [reflexivity | discriminate].
  - intros p text -> ->. now rewrite andb_false_r.
  - intros text ->. reflexivity.
Qed.

(* ------------------------------------------------------------------ *)
(** ** Which timeout mechanism [send] arms *)

Lemma notify_stays_timers (n : Notification) (s : XhrIo) (r : Timer) :
  inFlight s -> inFlight (notify n s) ->
  In r (timers s) -> In r (timers (notify n s)).
Proof.
  intros Hf Hf' Hr.
  assert (T0 : timers (notified n s) = timers s) by apply update_xhr_fields.
  pose proof (samePhase_inFlight _ _ (notified_samePhase n s) Hf) as Hf0.
  change (notify n s)
    with (onReadyStateChange_ (notified n s)) in *.
  destruct (onReadyStateChange_stays (notified n s) Hf0 Hf')
    as [-> | [-> | ->]]; simpl; rewrite ?T0; auto.
  apply in_or_app. now left.
Qed.

Lemma react_quiet_timers (ns : list Notification) (s : XhrIo) (r : Timer) :
  inFlight s ->
  Forall (fun n => nReadyState n <> ReadyState.COMPLETE) ns \/
  inSend_ s = true ->
  In r (timers s) -> In r (timers (react ns s)).
Proof.
  revert s. induction ns as [|n ns IH]; intros s Hf Hq Hr; [exact Hr|].
  change (react (n :: ns) s)
    with (react ns (notify n s)).
  assert (Hq1 : Forall (fun n => nReadyState n <> ReadyState.COMPLETE) [n]
                \/ inSend_ s = true).
  { destruct Hq as [Hq | Hq]; [left | right; exact Hq].
    inversion Hq; subst. now constructor. }
  destruct (react_inFlight_quiet [n] s Hf Hq1) as (F1 & S1 & _).
  change (react [n] s) with (notify n s) in F1, S1.
  apply IH; [exact F1 | | now apply notify_stays_timers].
  destruct Hq as [Hq | Hq]; [left; now inversion Hq | right; congruence].
Qed.

(** What [armTimeout] leaves on the handle and in the timer list. *)
Lemma armTimeout_effect (s : XhrIo) (x : Xhr) :
  xhr_ s = Some x ->
  number_gt (timeoutInterval_ s) (Num 0) = true ->
  (shouldUseXhr2Timeout_ x = true ->
   handleTimeoutView (armTimeout s)
   = Some (Some (timeoutInterval_ s), OnTimeout_bound)) /\
  (shouldUseXhr2Timeout_ x = false ->
   handleTimeoutView (armTimeout s) = Some (timeout x, ontimeout x) /\
   timeoutId_ (armTimeout s) = Some (nextTimerId s) /\
   In (mkTimer (nextTimerId s) Callback_timeout_ (timeoutInterval_ s))
     (timers (armTimeout s))).
Proof.
  intros Ex Hgt. unfold armTimeout. rewrite Hgt, Ex.
  replace (useXhr2Timeout_
             (set_useXhr2Timeout_ (shouldUseXhr2Timeout_ x) s))
    with (shouldUseXhr2Timeout_ x) by reflexivity.
  destruct (shouldUseXhr2Timeout_ x); split; try discriminate;
    intros _.
  - unfold update_xhr, handleTimeoutView. simpl. rewrite Ex. simpl.
    reflexivity.
  - unfold handleTimeoutView. simpl. rewrite Ex.
    split; [reflexivity|]. split; [reflexivity|].
    apply in_or_app. right. now left.
Qed.

(** The state [send] returns when an interval is set and the request
    stays in flight: which mechanism is armed, and what it consists
    of.  [b] is the answer of [shouldUseXhr2Timeout_] on the handle as
    [send] finds it. *)
Lemma send_arms_timeout (t : Transport) (url : string)
    (opt_method : option string) (opt_content : option Content)
    (opt_headers : option (list (string * string))) (s : XhrIo) :
  isActive s = false ->
  fallbackTimeoutArmed s = false ->
  freshHandle t ->
  number_gt (timeoutInterval_ s) (Num 0) = true ->
  opensQuietly t ->
  raised (onOpen t) = None ->
  raised (onSend t) = None ->
  let s' := fst (send t url opt_method opt_content opt_headers s) in
  inFlight s' /\
  exists b oa,
    (oa = ontimeout (createInstance t) \/ oa = OnTimeout_null) /\
    b = platform_userAgent_IE platform &&
        platform_userAgent_isVersionOrHigher_9 platform &&
        (match timeout (createInstance t) with
         | Some _ => true
         | None => false
         end) &&
        (match oa with OnTimeout_undefined => false | _ => true end) /\
    (ontimeout (createInstance t) <> OnTimeout_undefined ->
     oa <> OnTimeout_undefined) /\
    nativeTimeoutArmed s' = b /\
    fallbackTimeoutArmed s' = negb b /\
    useXhr2Timeout_ s' = b /\
    (b = true ->
     handleTimeoutView s'
     = Some (Some (timeoutInterval_ s), OnTimeout_bound)) /\
    (b = false ->
     handleTimeoutView s' = Some (timeout (createInstance t), oa) /\
     exists id,
       timeoutId_ s' = Some id /\
       In (mkTimer id Callback_timeout_ (timeoutInterval_ s)) (timers s')).
Proof.
  intros Hx Hfb Hfresh Hgt Hq Ro Rs. cbv zeta.
  unfold send. rewrite (isActive_None s Hx).
  match goal with |- context [toUpperCase] =>
    set (method := match opt_method with
                   | Some m => if string_truthy m then toUpperCase m else "GET"
                   | None => "GET"
                   end)
  end.
  destruct (send_opening t url method s) as (F0 & _).
  match type of F0 with inFlight ?m => set (s0 := m) in * end.
  assert (V0 : handleTimeoutView s0 =
               Some (timeout (createInstance t), ontimeout (createInstance t)))
    by reflexivity.
  assert (B0 : fallbackTimeoutArmed s0 = false) by exact Hfb.
  assert (I0 : timeoutInterval_ s0 = timeoutInterval_ s) by reflexivity.
  destruct (react_inFlight_quiet (fired (onOpen t)) s0 F0
              (or_introl Hq)) as (F1 & _).
  pose proof (react_carriesOn (fired (onOpen t)) s0 F0
                (or_introl Hq)) as (_ & _ & I1 & _ & _ & V1 & B1).
  set (s1 := react (fired (onOpen t)) s0) in *. clearbody s1.
  rewrite V0 in V1. rewrite B0 in B1. rewrite I0 in I1. clearbody s0.
  rewrite Ro.
  assert (F2 : inFlight (set_inOpen_ false s1)) by exact F1.
  destruct (isActive_Some _ (proj1 F2)) as [x2 Ex2]. rewrite Ex2.
  assert (Tx2 : timeout x2 = timeout (createInstance t) /\
                ontimeout x2 = ontimeout (createInstance t)).
  { unfold handleTimeoutView in V1. simpl in Ex2. rewrite Ex2 in V1.
    injection V1 as -> ->. auto. }
  destruct Tx2 as (T2 & O2).
  match goal with |- context [configure ?h _] => set (hs := h) end.
  destruct (configure_before_arming hs (set_inOpen_ false s1) x2 Ex2)
    as (sa & xa & Ec & Ea & Ta & Oa & Ba & Ia).
  { rewrite O2. exact Hfresh. }
  { exact B1. }
  assert (Hota : ontimeout xa <> OnTimeout_bound).
  { destruct Oa as [Oa | Oa]; rewrite Oa;
      [rewrite O2; exact Hfresh|discriminate]. }
  assert (Ia' : timeoutInterval_ sa = timeoutInterval_ s).
  { rewrite Ia. change (timeoutInterval_ (set_inOpen_ false s1))
      with (timeoutInterval_ s1). exact I1. }
  assert (Hgta : number_gt (timeoutInterval_ sa) (Num 0) = true)
    by (rewrite Ia'; exact Hgt).
  destruct (armTimeout_arms sa xa Ea Hota Ba Hgta) as (N3 & B3 & U3).
  destruct (armTimeout_effect sa xa Ea Hgta) as (En & Ef).
  rewrite Ia' in En, Ef.
  rewrite <- Ec in N3, B3, U3, En, Ef.
  set (s3 := configure hs (set_inOpen_ false s1)) in *.
  assert (F3 : inFlight s3).
  { apply (samePhase_inFlight (set_inOpen_ false s1)); [|exact F2].
    apply configure_samePhase. }
  match goal with |- context [logCall (Call_send ?c) _] =>
    set (s4 := logCall (Call_send c) (set_inSend_ true s3)) end.
  assert (F4 : inFlight s4) by exact F3.
  assert (I4 : inSend_ s4 = true) by reflexivity.
  destruct (react_inFlight_quiet (fired (onSend t)) s4 F4
              (or_intror I4)) as (F5 & _).
  pose proof (react_carriesOn (fired (onSend t)) s4 F4
                (or_intror I4)) as C5.
  pose proof (fun r => react_quiet_timers (fired (onSend t)) s4 r F4
                         (or_intror I4)) as G5.
  destruct (carriesOn_armed _ _ C5) as (N5 & B5).
  destruct C5 as (_ & _ & _ & U5 & D5 & V5 & _).
  change (timers s4) with (timers s3) in G5.
  change (useXhr2Timeout_ s4) with (useXhr2Timeout_ s3) in U5.
  change (timeoutId_ s4) with (timeoutId_ s3) in D5.
  change (handleTimeoutView s4) with (handleTimeoutView s3) in V5.
  change (nativeTimeoutArmed s4) with (nativeTimeoutArmed s3) in N5.
  change (fallbackTimeoutArmed s4) with (fallbackTimeoutArmed s3) in B5.
  set (s5 := react (fired (onSend t)) s4) in *.
  clearbody s5. clearbody s4.
  rewrite Rs. cbn [fst].
  split; [exact F5|].
  exists (shouldUseXhr2Timeout_ xa), (ontimeout xa).
  change (nativeTimeoutArmed (set_inSend_ false s5))
    with (nativeTimeoutArmed s5).
  change (fallbackTimeoutArmed (set_inSend_ false s5))
    with (fallbackTimeoutArmed s5).
  change (useXhr2Timeout_ (set_inSend_ false s5)) with (useXhr2Timeout_ s5).
  change (handleTimeoutView (set_inSend_ false s5))
    with (handleTimeoutView s5).
  change (timeoutId_ (set_inSend_ false s5)) with (timeoutId_ s5).
  change (timers (set_inSend_ false s5)) with (timers s5).
  split; [destruct Oa as [Oa | Oa]; rewrite Oa, ?O2; auto|].
  split; [unfold shouldUseXhr2Timeout_; rewrite Ta, T2; reflexivity|].
  split.
  { intros Hdef. destruct Oa as [Oa | Oa]; rewrite Oa;
      [rewrite O2; exact Hdef | discriminate]. }
  split; [congruence|]. split; [congruence|]. split; [congruence|].
  split.
  - intros Hb. rewrite V5. now apply En.
  - intros Hb. destruct (Ef Hb) as (E1 & E2 & E3).
    split; [rewrite V5, E1, Ta, T2; reflexivity|].
    exists (nextTimerId sa). split; [congruence|]. now apply G5.
Qed.

(** C7, as amended.  For every [send] with a timeout interval greater
    than 0 that leaves the request in flight (an idle controller with no
    fallback registration pending, a handle without a timeout callback
    bound, [open] and [send] returning normally, [open] firing nothing
    at complete readiness), exactly one timeout mechanism is armed when
    [send] returns, never both: either the handle's own pair, the
    interval written to its [timeout] and [timeout_] bound to its
    [ontimeout], with no goog.Timer registration that calls [timeout_];
    or the goog.Timer fallback, a registration that calls [timeout_]
    after the interval and whose id [timeoutId_] holds, with the
    handle's [ontimeout] not bound.  The handle's own pair is armed
    whenever the user agent is Internet Explorer 9 or higher and the
    handle exposes [timeout] as a number and [ontimeout] as defined,
    and it is never armed on another user agent or on a handle whose
    [timeout] is not a number. *)
Theorem timeout_mechanism_choice (t : Transport) (url : string)
    (opt_method : option string) (opt_content : option Content)
    (opt_headers : option (list (string * string))) (s : XhrIo) :
  isActive s = false ->
  fallbackTimeoutArmed s = false ->
  freshHandle t ->
  number_gt (timeoutInterval_ s) (Num 0) = true ->
  opensQuietly t ->
  raised (onOpen t) = None ->
  raised (onSend t) = None ->
  let s' := fst (send t url opt_method opt_content opt_headers s) in
  isActive s' = true /\
  xorb (nativeTimeoutArmed s') (fallbackTimeoutArmed s') = true /\
  nativeTimeoutArmed s' = useXhr2Timeout_ s' /\
  exists x,
    xhr_ s' = Some x /\
    ((timeout x = Some (timeoutInterval_ s) /\
      ontimeout x = OnTimeout_bound /\
      (forall r, In r (timers s') -> timerCallback r <> Callback_timeout_))
     \/
     (ontimeout x <> OnTimeout_bound /\
      timeout x = timeout (createInstance t) /\
      exists id,
        timeoutId_ s' = Some id /\
        In (mkTimer id Callback_timeout_ (timeoutInterval_ s)) (timers s')))
    /\
    (platform_userAgent_IE platform = true ->
     platform_userAgent_isVersionOrHigher_9 platform = true ->
     timeout (createInstance t) <> None ->
     ontimeout (createInstance t) <> OnTimeout_undefined ->
     timeout x = Some (timeoutInterval_ s) /\
     ontimeout x = OnTimeout_bound)
    /\
    (ontimeout x = OnTimeout_bound ->
     platform_userAgent_IE platform = true /\
     platform_userAgent_isVersionOrHigher_9 platform = true /\
     timeout (createInstance t) <> None).
Proof.
  intros Hx Hfb Hfresh Hgt Hq Ro Rs s'.
  destruct (send_arms_timeout t url opt_method opt_content opt_headers s
              Hx Hfb Hfresh Hgt Hq Ro Rs)
    as (F & b & oa & Hoa & Hb & Hdef & N & B & U & Vn & Vf).
  fold s' in F, N, B, U, Vn, Vf. clearbody s'.
  split; [exact (proj1 F)|].
  split; [rewrite N, B; destruct b; reflexivity|].
  split; [congruence|].
  destruct (isActive_Some s' (proj1 F)) as [x Ex].
  exists x. split; [exact Ex|].
  unfold handleTimeoutView in Vn, Vf. rewrite Ex in Vn, Vf.
  assert (Native : b = true ->
                   timeout x = Some (timeoutInterval_ s) /\
                   ontimeout x = OnTimeout_bound).
  { intros E. specialize (Vn E). injection Vn as -> ->. auto. }
  assert (Conds : b = true ->
                  platform_userAgent_IE platform = true /\
                  platform_userAgent_isVersionOrHigher_9 platform = true /\
                  timeout (createInstance t) <> None).
  { intros E. rewrite Hb in E.
    apply andb_true_iff in E. destruct E as (E & _).
    apply andb_true_iff in E. destruct E as (E & Hnum).
    apply andb_true_iff in E. destruct E as (Hie & Hv).
    repeat split; auto.
    destruct (timeout (createInstance t)); [discriminate | discriminate Hnum]. }
  split; [|split].
  - destruct b eqn:Eb.
    + left. destruct (Native eq_refl) as (T & O).
      split; [exact T|]. split; [exact O|].
      apply fallbackTimeoutArmed_false. exact B.
    + right. destruct (Vf eq_refl) as (V & id & Hid & Hin).
      injection V as T O.
      split; [|split; [exact T | exists id; auto]].
      rewrite O. destruct Hoa as [-> | ->]; [exact Hfresh | discriminate].
  - intros Hie Hv Hnum Hd. apply Native. rewrite Hb, Hie, Hv. simpl.
    destruct (timeout (createInstance t)); [|congruence]. simpl.
    specialize (Hdef Hd). destruct oa; [congruence | reflexivity | reflexivity].
  - intros O. apply Conds. destruct b; [reflexivity|].
    destruct (Vf eq_refl) as (V & _). injection V as _ O'.
    rewrite O' in O. destruct Hoa as [-> | ->]; [contradiction | discriminate].
Qed.

(* ------------------------------------------------------------------ *)
(** ** The form content type, over what the caller supplied *)

Lemma Map_set_In_origin (k v k' v' : string) (m : list (string * string)) :
  In (k', v') (Map_set k v m) -> (k', v') = (k, v) \/ In (k', v') m.
Proof.
  induction m as [|[k0 v0] m IH]; simpl.
  - intros [H | []]. left. congruence.
  - destruct (String.eqb k0 k); simpl.
    + intros [H | H]; [left; congruence | right; now right].
    + intros [H | H]; [right; now left|].
      destruct (IH H) as [E | E]; [now left | right; now right].
Qed.

Lemma Map_setAll_In_origin (extra m : list (string * string))
    (k v : string) :
  In (k, v) (Map_setAll extra m) -> In (k, v) m \/ In (k, v) extra.
Proof.
  unfold Map_setAll. revert m.
  induction extra as [|[k0 v0] extra IH]; intros m H; simpl in *; [now left|].
  destruct (IH _ H) as [E | E]; [|right; now right].
  destruct (Map_set_In_origin _ _ _ _ _ E) as [E' | E'];
    [right; left; congruence | now left].
Qed.

Lemma Map_setAll_keys (extra m : list (string * string)) (k : string) :
  In k (map fst (Map_setAll extra m)) <->
  In k (map fst m) \/ In k (map fst extra).
Proof.
  unfold Map_setAll. revert m.
  induction extra as [|[k0 v0] extra IH]; intros m; simpl.
  - tauto.
  - rewrite IH, Map_set_keys.
    destruct (existsb (String.eqb k0) (map fst m)) eqn:E.
    + apply existsb_exists in E. destruct E as (k1 & Hin & Heq).
      apply String.eqb_eq in Heq. subst k1.
      split; [tauto|]. intros [H | [H | H]]; auto. subst. auto.
    + rewrite in_app_iff. simpl. tauto.
Qed.

Lemma existsb_same_members {A : Type} (p : A -> bool) (l1 l2 : list A) :
  (forall a, In a l1 <-> In a l2) -> existsb p l1 = existsb p l2.
Proof.
  intros H.
  destruct (existsb p l1) eqn:E1, (existsb p l2) eqn:E2; try reflexivity.
  - apply existsb_exists in E1. destruct E1 as (a & Hin & Hp).
    assert (E : existsb p l2 = true)
      by (apply existsb_exists; exists a; split; [now apply H | exact Hp]).
    congruence.
  - apply existsb_exists in E2. destruct E2 as (a & Hin & Hp).
    assert (E : existsb p l1 = true)
      by (apply existsb_exists; exists a; split; [now apply H | exact Hp]).
    congruence.
Qed.

Lemma wantsFormContentType_inputs (method : string)
    (extra m : list (string * string)) (content : Content) :
  wantsFormContentType method (Map_setAll extra m) content
  = wantsFormContentType method (m ++ extra) content.
Proof.
  unfold wantsFormContentType. f_equal. f_equal. f_equal.
  apply existsb_same_members. intros k.
  rewrite Map_setAll_keys, map_app, in_app_iff. reflexivity.
Qed.

(** C8.  The claim is about the headers the caller supplied: the
    default headers of the controller and the per-call headers of this
    [send].  If the method, upper-cased, is POST or PUT, none of these
    headers is named content-type in any letter case, and the body is
    not a FormData, the headers passed to the handle end with
    [Content-Type: application/x-www-form-urlencoded;charset=utf-8],
    which comes after headers of the caller only.  Otherwise nothing is
    injected: every header passed is one the caller supplied.  In both
    cases each per-call header is passed with the value given last for
    its name, and so is each default header that no per-call header
    overrides; a content-type header of the caller is therefore passed
    as the caller gave it. *)
Theorem form_content_type_default (t : Transport) (url : string)
    (opt_method : option string) (opt_content : option Content)
    (opt_headers : option (list (string * string))) (s : XhrIo) :
  isActive s = false ->
  opensQuietly t ->
  raised (onOpen t) = None ->
  let method :=
    match opt_method with
    | Some m => if string_truthy m then toUpperCase m else "GET"
    | None => "GET"
    end in
  let content :=
    match opt_content with
    | Some c => c
    | None => Text ""
    end in
  let perCall :=
    match opt_headers with
    | Some extra => extra
    | None => []
    end in
  let passed :=
    headersPassed
      (callsSince (calls s)
         (fst (send t url opt_method opt_content opt_headers s))) in
  (wantsFormContentType method (headers s ++ perCall) content = true ->
   exists rest,
     passed
     = rest ++
       [("Content-Type", "application/x-www-form-urlencoded;charset=utf-8")]
     /\ forall k v, In (k, v) rest -> In (k, v) (headers s) \/ In (k, v) perCall)
  /\
  (wantsFormContentType method (headers s ++ perCall) content = false ->
   forall k v, In (k, v) passed -> In (k, v) (headers s) \/ In (k, v) perCall)
  /\
  (forall l1 k v l2,
      perCall = l1 ++ (k, v) :: l2 -> ~ In k (map fst l2) ->
      In (k, v) passed)
  /\
  (forall k v,
      In (k, v) (headers s) -> ~ In k (map fst perCall) -> In (k, v) passed).
Proof.
  intros Hx Hq Ro method content perCall passed.
  set (supplied := Map_setAll perCall (headers s)).
  assert (P : passed
              = if wantsFormContentType method (headers s ++ perCall)
                     content
                then supplied ++ [(CONTENT_TYPE_HEADER, FORM_CONTENT_TYPE)]
                else supplied).
  { subst passed.
    rewrite (send_calls t url opt_method opt_content opt_headers s
               Hx Hq Ro).
    fold method. fold content.
    change (Call_open method url :: ?l) with ([Call_open method url] ++ l).
    rewrite !headersPassed_app, headersPassed_setRequestHeaders.
    simpl headersPassed at 1.
    replace (headersPassed (Call_send content :: _))
      with (@nil (string * string))
      by (destruct (raised (onSend t)); reflexivity).
    rewrite app_nil_r. simpl app.
    pose proof (requestHeaders_spec method content opt_headers s)
      as R.
    cbv zeta in R. rewrite R.
    rewrite <- wantsFormContentType_inputs. subst supplied perCall.
    destruct opt_headers; reflexivity. }
  clearbody passed.
  assert (Origin : forall k v,
             In (k, v) supplied -> In (k, v) (headers s) \/ In (k, v) perCall).
  { intros k v H. now apply Map_setAll_In_origin. }
  assert (Last : forall l1 k v l2,
             perCall = l1 ++ (k, v) :: l2 -> ~ In k (map fst l2) ->
             In (k, v) supplied).
  { intros l1 k v l2 E Hn. subst supplied. rewrite E.
    now apply Map_setAll_last. }
  assert (Keep : forall k v,
             In (k, v) (headers s) -> ~ In k (map fst perCall) ->
             In (k, v) supplied).
  { intros k v Hin Hn. now apply Map_setAll_keeps. }
  clearbody supplied.
  destruct (wantsFormContentType method (headers s ++ perCall)
              content); subst passed.
  - split; [intros _; exists supplied; split; [reflexivity | exact Origin]|].
    split; [discriminate|]. split.
    + intros l1 k v l2 E Hn. apply in_or_app. left.
      now apply (Last l1 k v l2).
    + intros k v Hin Hn. apply in_or_app. left. now apply Keep.
  - split; [discriminate|]. split; [intros _; exact Origin|].
    split; [exact Last | exact Keep].
Qed.

(* ------------------------------------------------------------------ *)
(** ** The timeout interval *)

(** C10.  [setTimeoutInterval] stores the greater of 0 and [ms]: a [ms]
    that is not below 0 is stored as it is, infinity included; a
    negative [ms], negative infinity included, is stored as 0; NaN is
    stored as NaN.  So [getTimeoutInterval] never returns a value below
    0, and a [send] after a negative setting arms neither the handle's
    own timeout nor the goog.Timer fallback. *)
Theorem setTimeoutInterval_clamps (ms : number) (s : XhrIo) :
  let stored := getTimeoutInterval (setTimeoutInterval ms s) in
  (forall q, ms = Num q -> (0 <= q)%Q -> stored = Num q) /\
  (forall q, ms = Num q -> (q < 0)%Q -> stored = Num 0) /\
  (ms = PosInfinity -> stored = PosInfinity) /\
  (ms = NegInfinity -> stored = Num 0) /\
  (ms = NaN -> stored = NaN) /\
  number_lt stored (Num 0) = false /\
  (number_lt ms (Num 0) = true ->
   stored = Num 0 /\
   forall (t : Transport) (url : string) (opt_method : option string)
          (opt_content : option Content)
          (opt_headers : option (list (string * string))),
     isActive s = false ->
     freshHandle t ->
     fallbackTimeoutArmed s = false ->
     nativeTimeoutArmed
       (fst (send t url opt_method opt_content opt_headers
               (setTimeoutInterval ms s))) = false /\
     fallbackTimeoutArmed
       (fst (send t url opt_method opt_content opt_headers
               (setTimeoutInterval ms s))) = false).
Proof.
  intros stored.
  assert (Kept : forall q, ms = Num q -> (0 <= q)%Q -> stored = Num q).
  { intros q -> Hq. subst stored.
    unfold getTimeoutInterval, setTimeoutInterval. simpl.
    apply Qle_bool_iff in Hq. now rewrite Hq. }
  assert (Clamped : forall q, ms = Num q -> (q < 0)%Q -> stored = Num 0).
  { intros q -> Hq. subst stored.
    unfold getTimeoutInterval, setTimeoutInterval. simpl.
    destruct (Qle_bool 0 q) eqn:E; [|reflexivity].
    apply Qle_bool_iff in E. exfalso. exact (Qlt_not_le _ _ Hq E). }
  split; [exact Kept|]. split; [exact Clamped|].
  split; [intros ->; reflexivity|].
  split; [intros ->; reflexivity|].
  split; [intros ->; reflexivity|].
  assert (Neg : number_lt ms (Num 0) = true -> stored = Num 0).
  { intros Hneg. destruct ms as [| |q|]; try discriminate; [reflexivity|].
    apply (Clamped q eq_refl).
    unfold number_lt, number_gt in Hneg. apply negb_true_iff in Hneg.
    apply Qnot_le_lt. intros H. apply Qle_bool_iff in H. congruence. }
  split.
  - destruct ms as [| |q|]; try reflexivity.
    destruct (Qlt_le_dec q 0) as [H | H].
    + rewrite (Clamped q eq_refl H). reflexivity.
    + rewrite (Kept q eq_refl H). unfold number_lt, number_gt.
      apply Qle_bool_iff in H. now rewrite H.
  - intros Hneg. split; [now apply Neg|].
    intros t url opt_method opt_content opt_headers Hx Hfresh Hfb.
    apply send_arms_nothing; auto.
    change (timeoutInterval_ (setTimeoutInterval ms s)) with stored.
    rewrite (Neg Hneg). reflexivity.
Qed.

Lemma cleanUpTimeoutTimer_clears_native (s : XhrIo) :
  (nativeTimeoutArmed s = true -> useXhr2Timeout_ s = true) ->
  nativeTimeoutArmed (cleanUpTimeoutTimer_ s) = false.
Proof.
  unfold cleanUpTimeoutTimer_, Timer_clear, nativeTimeoutArmed.
  destruct (xhr_ s) as [x|] eqn:Ex.
  - destruct (useXhr2Timeout_ s) eqn:U; simpl.
    + destruct (timeoutId_ s); simpl; reflexivity.
    + intros H.
      assert (O : match ontimeout x with
                  | OnTimeout_bound => true
                  | _ => false
                  end = false).
      { destruct (ontimeout x); try reflexivity.
        specialize (H eq_refl). discriminate H. }
      destruct (timeoutId_ s); simpl; rewrite Ex; exact O.
  - intros _. destruct (timeoutId_ s); simpl; rewrite Ex; reflexivity.
Qed.

Lemma step_stays_native (i : Stimulus) (s : XhrIo) :
  inFlight s -> inFlight (step i s) ->
  handleTimeoutView (step i s) = handleTimeoutView s /\
  useXhr2Timeout_ (step i s) = useXhr2Timeout_ s.
Proof.
  intros Hf Hf'. pose proof Hf as (Hx & Ha & He).
  assert (Ended : forall s', released s' -> inFlight s' -> False).
  { intros s' (R & _) (F & _). congruence. }
  destruct i as [n | id r | r | code r]; simpl in *.
  - destruct (notify_carriesOn n s Hf Hf')
      as (_ & _ & _ & U & _ & V & _). auto.
  - unfold fireTimer in *.
    destruct (find (fun t => (timerId t =? id)%Z) (timers s)) as [t|];
      [|auto].
    set (s1 := Timer_clear id s) in *.
    assert (F1 : inFlight s1) by exact Hf.
    destruct (timerCallback t).
    + exfalso. destruct (timeout_inFlight r s1 Hx Ha) as (R & _).
      exact (Ended _ R Hf').
    + destruct (onReadyStateChange_carriesOn s1 F1 Hf')
        as (_ & _ & _ & U & _ & V & _). auto.
  - unfold fireNativeTimeout in *.
    destruct (isActive_Some s Hx) as [x Ex]. rewrite Ex in *.
    destruct (ontimeout x); auto.
    exfalso. destruct (timeout_inFlight r s Hx Ha) as (R & _).
    exact (Ended _ R Hf').
  - exfalso. destruct (abort_inFlight code r s Hx Ha) as (R & _).
    exact (Ended _ R Hf').
Qed.

Lemma run_stays_native (stimuli : list Stimulus) (s : XhrIo) :
  inFlight s -> isActive (run stimuli s) = true ->
  handleTimeoutView (run stimuli s) = handleTimeoutView s /\
  useXhr2Timeout_ (run stimuli s) = useXhr2Timeout_ s.
Proof.
  revert s. induction stimuli as [|i rest IH]; intros s Hf Hx; [auto|].
  change (run (i :: rest) s)
    with (run rest (step i s)) in *.
  destruct (step_inFlight i s Hf) as [(F & _) | (R & _)].
  - destruct (IH _ F Hx) as (V & U).
    destruct (step_stays_native i s Hf F) as (V' & U').
    split; congruence.
  - exfalso. destruct (run_released rest _ R) as ((R' & _) & _).
    congruence.
Qed.

Lemma send_native_tracked (t : Transport) (url : string)
    (opt_method : option string) (opt_content : option Content)
    (opt_headers : option (list (string * string))) (s : XhrIo) :
  isActive s = false ->
  fallbackTimeoutArmed s = false ->
  freshHandle t ->
  opensQuietly t ->
  let s' := fst (send t url opt_method opt_content opt_headers s) in
  (inFlight s' \/ released s') /\
  (nativeTimeoutArmed s' = true -> useXhr2Timeout_ s' = true).
Proof.
  intros Hx Hfb Hfresh Hq. cbv zeta.
  set (s' := fst (send t url opt_method opt_content opt_headers s)).
  destruct (send_phase t url opt_method opt_content opt_headers s
              Hx Hq) as [(F & _ & Ro & Rs & _) | (R & _)]; fold s' in F || fold s' in R.
  - split; [now left|].
    destruct (number_gt (timeoutInterval_ s) (Num 0)) eqn:Hgt.
    + destruct (send_arms_timeout t url opt_method opt_content opt_headers s
                  Hx Hfb Hfresh Hgt Hq Ro Rs)
        as (_ & b & _ & _ & _ & _ & N & _ & U & _).
      fold s' in N, U. congruence.
    + destruct (send_arms_nothing t url opt_method opt_content
                  opt_headers s Hgt Hx Hfresh Hfb) as (N & _).
      fold s' in N. congruence.
  - split; [now right|]. intros N.
    rewrite (released_not_armed _ (proj1 R)) in N. discriminate N.
Qed.

(** X24. The timeout is disarmed with the handle, for a request sent on
    an idle controller with no registration that calls [timeout_]
    pending, on a handle that comes without a bound timeout callback and
    whose [open] reports no completion. Whenever the handle is released
    afterwards, by completion, failure, abort or timeout, no
    registration that calls [timeout_] is pending. While the request is
    in flight, a pending registration that calls [timeout_] is the one
    [timeoutId_] names. And at every point [cleanUpTimeoutTimer_], which
    a release runs before it drops the handle, leaves the handle
    without the bound timeout callback and the timers without a
    registration that calls [timeout_]. *)
Theorem timeout_is_disarmed_on_release (t : Transport) (url : string)
    (opt_method : option string) (opt_content : option Content)
    (opt_headers : option (list (string * string)))
    (stimuli : list Stimulus) (s : XhrIo) :
  isActive s = false ->
  fallbackTimeoutArmed s = false ->
  freshHandle t ->
  opensQuietly t ->
  let final :=
    run stimuli
      (fst (send t url opt_method opt_content opt_headers s)) in
  (isActive final = false -> fallbackTimeoutArmed final = false) /\
  (forall r, In r (timers final) -> timerCallback r = Callback_timeout_ ->
   isActive final = true /\ timeoutId_ final = Some (timerId r)) /\
  nativeTimeoutArmed (cleanUpTimeoutTimer_ final) = false /\
  fallbackTimeoutArmed (cleanUpTimeoutTimer_ final) = false.
Proof.
  intros Hx Hd Hfresh Hq final.
  assert (K : timeoutTracked final).
  { subst final. apply run_tracked, send_tracked. now apply disarmed_tracked. }
  assert (N : nativeTimeoutArmed final = true -> useXhr2Timeout_ final = true).
  { subst final.
    destruct (send_native_tracked t url opt_method opt_content opt_headers s
                Hx Hd Hfresh Hq) as (Ph & N).
    cbv zeta in Ph, N.
    set (sent := fst (send t url opt_method opt_content opt_headers
                        s)) in *.
    clearbody sent. intros A.
    assert (Ax : isActive (run stimuli sent) = true).
    { destruct (isActive (run stimuli sent)) eqn:E; [reflexivity|].
      rewrite (released_not_armed _ E) in A. discriminate A. }
    destruct Ph as [F | R].
    - destruct (run_stays_native stimuli sent F Ax) as (V & U).
      rewrite U. apply N.
      rewrite nativeTimeoutArmed_view in A |- *. now rewrite <- V.
    - destruct (run_released stimuli sent R) as ((R' & _) & _).
      congruence. }
  clearbody final. split; [|split; [exact K|split]].
  - intros Hx'. now apply tracked_released_disarmed.
  - now apply cleanUpTimeoutTimer_clears_native.
  - now apply cleanUpTimeoutTimer_disarms.
Qed.

End Controller.

(* ------------------------------------------------------------------ *)
(** ** Concrete runs *)



(** A request in flight: [send] called on a fresh controller. *)
Lemma sent_request_in_flight :
  inFlight
    (fst (send otherBrowser legacyTransport "http://x/y" None None None
            new_XhrIo)).
Proof. repeat split. Qed.


(** Two failure origins in one cycle where the flag is what keeps the
    second one quiet: the handle reports a failed exchange from inside
    [open] and then throws from [open]. *)
Lemma flag_suppresses_second_failure_origin :
  eventsSince (events new_XhrIo)
    (fst (send otherBrowser failingOpenTransport "http://x/y" None None None
            new_XhrIo)) =
  [EventType.READY_STATE_CHANGE; EventType.COMPLETE; EventType.ERROR;
   EventType.READY].
Proof. reflexivity. Qed.

(** Inside [send], a notification with status 200 at complete readiness
    leaves one pending registration and no event. *)
Lemma completion_inside_send_is_deferred_witness :
  let s :=
    set_inSend_ true
      (fst (send otherBrowser legacyTransport "http://x/y" None None None
              new_XhrIo)) in
  disposed_ s = false /\ inFlight s /\ inSend_ s = true /\
  nReadyState (done 200 "OK") = ReadyState.COMPLETE /\
  localRequestErrorSignal (notified (done 200 "OK") s) = false /\
  timers (notify otherBrowser (done 200 "OK") s) =
    [mkTimer 1 Callback_onReadyStateChange_ (Num 0)] /\
  events (notify otherBrowser (done 200 "OK") s) = [].
Proof.
  cbv zeta.
  assert (Hf : inFlight
                 (set_inSend_ true
                    (fst (send otherBrowser legacyTransport "http://x/y"
                            None None None new_XhrIo))))
    by (repeat split).
  split; [reflexivity | split; [exact Hf|]].
  split; [reflexivity | split; [reflexivity | split; [reflexivity|]]].
  pose proof (completion_inside_send_is_deferred otherBrowser
                (done 200 "OK")
                (set_inSend_ true
                   (fst (send otherBrowser legacyTransport "http://x/y"
                           None None None new_XhrIo)))
                eq_refl Hf eq_refl eq_refl)
    as ((He & _) & Hr & _).
  destruct (Hr eq_refl) as (_ & Ht & _).
  split; [exact Ht | exact He].
Defined.

(** The same through [send] itself: a handle that answers from its
    cache inside [send] leaves the request in flight with nothing
    dispatched, and the deferred call dispatches the whole sequence. *)
Lemma cached_response_is_reported_after_send :
  let sent :=
    fst (send otherBrowser cachedTransport "http://x/y" None None None
           new_XhrIo) in
  events sent = [] /\
  timers sent = [mkTimer 1 Callback_onReadyStateChange_ (Num 0)] /\
  events (run otherBrowser [TimerFires 1 []] sent) =
    [EventType.READY_STATE_CHANGE; EventType.COMPLETE; EventType.SUCCESS;
     EventType.READY].
Proof. repeat split. Qed.

(** [dispose] on a request in flight, the handle reporting complete
    readiness while it is being aborted. *)
Lemma dispose_while_active_is_silent_witness :
  let s :=
    fst (send otherBrowser legacyTransport "http://x/y" None None None
           new_XhrIo) in
  isActive s = true /\ active_ s = true /\
  events (dispose otherBrowser [done 0 ""] s) = events s /\
  calls (dispose otherBrowser [done 0 ""] s) = calls s ++ [Call_abort] /\
  isActive (dispose otherBrowser [done 0 ""] s) = false.
Proof.
  cbv zeta. split; [reflexivity | split; [reflexivity|]].
  destruct (dispose_while_active_is_silent otherBrowser [done 0 ""]
              (fst (send otherBrowser legacyTransport "http://x/y" None None
                      None new_XhrIo))
              eq_refl eq_refl) as (_ & H).
  destruct (H eq_refl) as (He & Hx & _ & _ & Hc).
  split; [exact He | split; [exact Hc | exact Hx]].
Defined.

(** A second [send] while the first request is in flight. *)
Lemma send_while_active_rejects_witness :
  let s :=
    fst (send otherBrowser legacyTransport "http://x/y" None None None
           new_XhrIo) in
  isActive s = true /\
  send otherBrowser legacyTransport "http://x/z" (Some "POST") None None s =
  (s, Threw (ActiveWithAnotherRequest "http://x/y" "http://x/z")).
Proof.
  cbv zeta. split; [reflexivity|].
  exact (send_while_active_rejects otherBrowser legacyTransport "http://x/z"
           (Some "POST") None None
           (fst (send otherBrowser legacyTransport "http://x/y" None None
                   None new_XhrIo))
           eq_refl).
Defined.

(** C7, as stated, fails outside Internet Explorer: the handle exposes
    [timeout] as a number and [ontimeout], and [send] still arms the
    goog.Timer fallback instead of the handle's own timeout. *)
Lemma native_timeout_not_chosen_outside_explorer :
  let s' :=
    fst (send otherBrowser level2Transport "http://x/y" None None None
           (setTimeoutInterval (Num 1000) new_XhrIo)) in
  timeout level2Handle = Some (Num 0) /\
  ontimeout level2Handle = OnTimeout_null /\
  isActive s' = true /\
  nativeTimeoutArmed s' = false /\
  fallbackTimeoutArmed s' = true.
Proof. repeat split. Qed.

(** A caller-supplied [content-type], in lower case, keeps the default
    away; so does a FormData body. *)
Lemma form_content_type_not_injected :
  headersPassed
    (callsSince (calls new_XhrIo)
       (fst (send otherBrowser legacyTransport "http://x/y" (Some "put")
               (Some (Text "a=1")) (Some [("content-type", "text/plain")])
               new_XhrIo))) =
  [("content-type", "text/plain")] /\
  headersPassed
    (callsSince (calls new_XhrIo)
       (fst (send otherBrowser legacyTransport "http://x/y" (Some "POST")
               (Some FormDataBody) None new_XhrIo))) = [].
Proof. split; reflexivity. Qed.

(** C9 fails on [getResponseJson]: with a request in flight at
    readiness 1, on a handle whose [responseText] cannot be read yet,
    [getResponseJson] lets the handle's exception out, while
    [getResponseText] catches the same read and returns the empty
    string. *)
Theorem getResponseJson_propagates_handle_exception :
  let s :=
    run otherBrowser [Notify (progress ReadyState.LOADING)]
      (fst (send otherBrowser legacyTransport "http://x/y" None None None
              new_XhrIo)) in
  isActive s = true /\
  getReadyState s = ReadyState.LOADING /\
  getResponseJson otherBrowser None s = Threw (Thrown "responseText") /\
  getResponseText s = Returned "".
Proof. repeat split. Qed.

(** The states of a controller's life are consistent: the fresh
    controller is, and [send] and every stimulus keep it so. *)
Lemma controller_life_consistent (t : Transport) (url : string)
    (stimuli : list Stimulus) :
  consistent new_XhrIo /\
  consistent
    (run otherBrowser stimuli
       (fst (send otherBrowser t url None None None new_XhrIo))).
Proof.
  assert (C : consistent new_XhrIo) by (split; intros H; discriminate H).
  split; [exact C|].
  apply run_consistent, send_consistent, C.
Qed.

(** [isSuccess] at complete readiness, with the success rule "2xx or
    304": 200 and 304 succeed, 404 fails, and status 0 succeeds for a
    file URI and fails for an http one. *)
Lemma isSuccess_examples :
  let http := fst (send otherBrowser legacyTransport "http://x/y" None None
                     None new_XhrIo) in
  let file := fst (send otherBrowser legacyTransport "file:///tmp/y" None
                     None None new_XhrIo) in
  isSuccess otherBrowser (notified (done 200 "OK") http) = true /\
  isSuccess otherBrowser (notified (done 304 "Not Modified") http) = true /\
  isSuccess otherBrowser (notified (done 404 "Not Found") http) = false /\
  isSuccess otherBrowser (notified (done 0 "") http) = false /\
  isSuccess otherBrowser (notified (done 0 "") file) = true.
Proof. vm_compute. repeat split. Qed.

(** The local-request-error signal inside [send]: with the ActiveX
    options, a notification at complete readiness with status 2 is
    dropped, neither processed nor deferred. *)
Lemma local_request_error_signal_is_dropped :
  let s :=
    set_inSend_ true
      (fst (send otherBrowser
              (mkTransport legacyHandle activeXOptions silent silent [])
              "file:///tmp/y" None None None new_XhrIo)) in
  localRequestErrorSignal (notified (done 2 "") s) = true /\
  notify otherBrowser (done 2 "") s = notified (done 2 "") s /\
  timers (notify otherBrowser (done 2 "") s) = [] /\
  events (notify otherBrowser (done 2 "") s) = [].
Proof. vm_compute. repeat split. Qed.

(** On Internet Explorer 9 a handle that exposes [timeout] and
    [ontimeout] gets its own pair armed, the interval of one second
    written to [timeout], and no fallback registration. *)
Lemma timeout_mechanism_choice_witness :
  let s := setTimeoutInterval (Num 1000) new_XhrIo in
  let s' :=
    fst (send explorer9 level2Transport "http://x/y" None None None s) in
  isActive s = false /\ fallbackTimeoutArmed s = false /\
  freshHandle level2Transport /\
  number_gt (timeoutInterval_ s) (Num 0) = true /\
  opensQuietly level2Transport /\
  raised (onOpen level2Transport) = None /\
  raised (onSend level2Transport) = None /\
  xorb (nativeTimeoutArmed s') (fallbackTimeoutArmed s') = true /\
  exists x,
    xhr_ s' = Some x /\
    timeout x = Some (Num 1000) /\ ontimeout x = OnTimeout_bound /\
    timers s' = [].
Proof.
  cbv zeta.
  assert (Hfresh : freshHandle level2Transport) by (intros H; discriminate H).
  assert (Hq : opensQuietly level2Transport) by constructor.
  split; [reflexivity | split; [reflexivity | split; [exact Hfresh|]]].
  split; [reflexivity | split; [exact Hq|]].
  split; [reflexivity | split; [reflexivity|]].
  destruct (timeout_mechanism_choice explorer9 level2Transport "http://x/y"
              None None None (setTimeoutInterval (Num 1000) new_XhrIo)
              eq_refl eq_refl Hfresh eq_refl Hq eq_refl eq_refl)
    as (_ & Hxor & _ & x & Ex & _ & Hnative & _).
  split; [exact Hxor|].
  exists x. split; [exact Ex|].
  destruct (Hnative eq_refl eq_refl) as (T & O).
  - discriminate.
  - discriminate.
  - split; [exact T|]. split; [exact O | reflexivity].
Defined.

(** The spec's scenario with a per-call header: [send("http://x/y",
    "POST", "a=1", {"X-A": "1"})] with no content-type header set. *)
Lemma form_content_type_default_witness :
  let passed :=
    headersPassed
      (callsSince (calls new_XhrIo)
         (fst (send otherBrowser legacyTransport "http://x/y" (Some "POST")
                 (Some (Text "a=1")) (Some [("X-A", "1")]) new_XhrIo))) in
  isActive new_XhrIo = false /\
  opensQuietly legacyTransport /\
  raised (onOpen legacyTransport) = None /\
  wantsFormContentType otherBrowser "POST"
    (headers new_XhrIo ++ [("X-A", "1")]) (Text "a=1") = true /\
  passed
  = [("X-A", "1");
     ("Content-Type", "application/x-www-form-urlencoded;charset=utf-8")] /\
  (exists rest,
     passed
     = rest ++
       [("Content-Type", "application/x-www-form-urlencoded;charset=utf-8")]
     /\ forall k v,
          In (k, v) rest ->
          In (k, v) (headers new_XhrIo) \/ In (k, v) [("X-A", "1")]) /\
  In ("X-A", "1") passed.
Proof.
  cbv zeta.
  assert (Hq : opensQuietly legacyTransport) by constructor.
  split; [reflexivity | split; [exact Hq | split; [reflexivity|]]].
  split; [reflexivity | split; [reflexivity|]].
  destruct (form_content_type_default otherBrowser legacyTransport
              "http://x/y" (Some "POST") (Some (Text "a=1"))
              (Some [("X-A", "1")]) new_XhrIo eq_refl Hq eq_refl)
    as (Hwant & _ & Hlast & _).
  split; [exact (Hwant eq_refl)|].
  apply (Hlast [] "X-A" "1" []); [reflexivity | intros []].
Defined.

(** A per-call content-type header, in lower case, on a PUT: it is
    passed as given and no default is injected. *)
Lemma form_content_type_default_kept_away :
  let passed :=
    headersPassed
      (callsSince (calls new_XhrIo)
         (fst (send otherBrowser legacyTransport "http://x/y" (Some "put")
                 (Some (Text "a=1")) (Some [("content-type", "text/plain")])
                 new_XhrIo))) in
  wantsFormContentType otherBrowser "PUT"
    (headers new_XhrIo ++ [("content-type", "text/plain")]) (Text "a=1")
  = false /\
  passed = [("content-type", "text/plain")].
Proof. vm_compute. split; reflexivity. Qed.


(* ------------------------------------------------------------------ *)
(** ** Concrete runs: abort, timeout and the error path *)

(** [abort(NO_ERROR)] on a request in flight: the code counts as not
    given. *)
Lemma abort_ends_request_with_code_witness :
  let s :=
    fst (send otherBrowser legacyTransport "http://x/y" None None None
           new_XhrIo) in
  let s' := abort otherBrowser (Some ErrorCode.NO_ERROR) [done 0 ""] s in
  isActive s = true /\ active_ s = true /\
  getLastErrorCode s' = ErrorCode.ABORT /\
  events s'
  = events s ++ [EventType.COMPLETE; EventType.ABORT; EventType.READY] /\
  calls s' = calls s ++ [Call_abort].
Proof.
  cbv zeta. split; [reflexivity|]. split; [reflexivity|].
  destruct (abort_ends_request_with_code otherBrowser
              (Some ErrorCode.NO_ERROR) [done 0 ""]
              (fst (send otherBrowser legacyTransport "http://x/y" None None
                      None new_XhrIo))
              eq_refl eq_refl)
    as (_ & _ & _ & Hfalsy & _ & _ & Hev & Hcalls & _).
  split; [exact (Hfalsy eq_refl)|]. split; [exact Hev | exact Hcalls].
Defined.

(** [abort(HTTP_ERROR)] on a request in flight: the code given is
    recorded. *)
Lemma abort_records_the_code_given :
  getLastErrorCode
    (abort otherBrowser (Some ErrorCode.HTTP_ERROR) []
       (fst (send otherBrowser legacyTransport "http://x/y" None None None
               new_XhrIo)))
  = ErrorCode.HTTP_ERROR.
Proof. reflexivity. Qed.

(** The timeout of a request sent with an interval of one second. *)
Lemma timeout_ends_request_witness :
  let s :=
    fst (send otherBrowser legacyTransport "http://x/y" None None None
           (setTimeoutInterval (Num 1000) new_XhrIo)) in
  let s' := timeout_ otherBrowser [] s in
  isActive s = true /\ active_ s = true /\
  isActive s' = false /\ active_ s' = false /\
  getLastErrorCode s' = ErrorCode.TIMEOUT /\
  getLastError s' = TimedOutAfter (getTimeoutInterval s) /\
  events s'
  = events s ++ [EventType.TIMEOUT; EventType.COMPLETE; EventType.ABORT;
                 EventType.READY] /\
  calls s' = calls s ++ [Call_abort].
Proof.
  cbv zeta. split; [reflexivity|]. split; [reflexivity|].
  apply (timeout_ends_request otherBrowser []
           (fst (send otherBrowser legacyTransport "http://x/y" None None
                   None (setTimeoutInterval (Num 1000) new_XhrIo))));
    reflexivity.
Defined.

(** A controller that was never sent, with stale notifications and
    timers coming in. *)
Lemma released_controller_ignores_stimuli_witness :
  let stimuli :=
    [Notify (done 200 "OK"); TimerFires 1 []; NativeTimeoutFires [];
     CallAbort None []] in
  let s' := run otherBrowser stimuli new_XhrIo in
  events s' = events new_XhrIo /\ calls s' = calls new_XhrIo /\
  isActive s' = false /\
  getLastErrorCode s' = getLastErrorCode new_XhrIo /\
  getLastError s' = getLastError new_XhrIo.
Proof.
  apply (released_controller_ignores_stimuli otherBrowser
           [Notify (done 200 "OK"); TimerFires 1 []; NativeTimeoutFires [];
            CallAbort None []] new_XhrIo); reflexivity.
Defined.

(** A handle whose [open] reports progress and then throws. *)
Lemma send_open_exception_is_reported_witness :
  let t :=
    mkTransport legacyHandle noOptions
      (mkReaction [progress ReadyState.LOADING] (Some "access denied"))
      silent [] in
  let s' :=
    fst (send otherBrowser t "http://x/y" (Some "post") None None
           new_XhrIo) in
  snd (send otherBrowser t "http://x/y" (Some "post") None None new_XhrIo)
  = Returned tt /\
  isActive s' = false /\ active_ s' = false /\
  getLastErrorCode s' = ErrorCode.EXCEPTION /\
  getLastError s' = Caught "access denied" /\
  callsSince (calls new_XhrIo) s'
  = [Call_open "POST" "http://x/y"; Call_abort] /\
  exists k,
    eventsSince (events new_XhrIo) s'
    = repeat EventType.READY_STATE_CHANGE k ++
      [EventType.COMPLETE; EventType.ERROR; EventType.READY].
Proof.
  apply (send_open_exception_is_reported otherBrowser
           (mkTransport legacyHandle noOptions
              (mkReaction [progress ReadyState.LOADING]
                 (Some "access denied"))
              silent [])
           "http://x/y" (Some "post") None None "access denied" new_XhrIo).
  - reflexivity.
  - repeat constructor. discriminate.
  - reflexivity.
Defined.

(** A handle whose [send] throws. *)
Lemma send_send_exception_is_reported_witness :
  let s' :=
    fst (send otherBrowser failingSendTransport "http://x/y" None None None
           new_XhrIo) in
  snd (send otherBrowser failingSendTransport "http://x/y" None None None
         new_XhrIo) = Returned tt /\
  isActive s' = false /\ active_ s' = false /\
  getLastErrorCode s' = ErrorCode.EXCEPTION /\
  getLastError s' = Caught "network error" /\
  (exists before,
     callsSince (calls new_XhrIo) s'
     = before ++ [Call_send (Text ""); Call_abort]) /\
  exists k,
    eventsSince (events new_XhrIo) s'
    = repeat EventType.READY_STATE_CHANGE k ++
      [EventType.COMPLETE; EventType.ERROR; EventType.READY].
Proof.
  apply (send_send_exception_is_reported otherBrowser failingSendTransport
           "http://x/y" None None None "network error" new_XhrIo).
  - reflexivity.
  - constructor.
  - reflexivity.
  - reflexivity.
Defined.

(** The response 404 to a request in flight. *)
Lemma terminal_notification_settles_request_witness :
  let s :=
    fst (send otherBrowser legacyTransport "http://x/y" None None None
           new_XhrIo) in
  let n := done 404 "Not Found" in
  let s' := notify otherBrowser n s in
  inFlight s /\ isSuccess otherBrowser (notified n s) = false /\
  isActive s' = false /\ active_ s' = false /\
  (isSuccess otherBrowser (notified n s) = true ->
   events s'
   = events s ++ [EventType.READY_STATE_CHANGE; EventType.COMPLETE;
                  EventType.SUCCESS; EventType.READY] /\
   getLastErrorCode s' = getLastErrorCode s /\
   getLastError s' = getLastError s) /\
  (isSuccess otherBrowser (notified n s) = false ->
   events s'
   = events s ++ [EventType.READY_STATE_CHANGE; EventType.COMPLETE;
                  EventType.ERROR; EventType.READY] /\
   getLastErrorCode s' = ErrorCode.HTTP_ERROR /\
   getLastError s'
   = StatusLine (getStatusText (notified n s)) (getStatus (notified n s))).
Proof.
  cbv zeta. split; [repeat split|]. split; [reflexivity|].
  apply (terminal_notification_settles_request otherBrowser
           (done 404 "Not Found")
           (fst (send otherBrowser legacyTransport "http://x/y" None None
                   None new_XhrIo))).
  - repeat split.
  - reflexivity.
  - reflexivity.
  - reflexivity.
  - reflexivity.
Defined.

(** A request in flight is disposed of; its response and its timer come
    in afterwards. *)
Lemma disposed_controller_is_silent_witness :
  let s :=
    fst (send otherBrowser legacyTransport "http://x/y" None None None
           (setTimeoutInterval (Num 1000) new_XhrIo)) in
  let stimuli := [Notify (done 200 "OK"); TimerFires 1 []] in
  let d := dispose otherBrowser [] s in
  disposed_ s = false /\ isActive s = true /\
  events (run otherBrowser stimuli d) = events s /\
  calls (run otherBrowser stimuli d) = calls d /\
  isActive (run otherBrowser stimuli d) = false /\
  disposed_ (run otherBrowser stimuli d) = true /\
  dispose otherBrowser [] d = d.
Proof.
  cbv zeta. split; [reflexivity|]. split; [reflexivity|].
  apply (disposed_controller_is_silent otherBrowser [] []
           [Notify (done 200 "OK"); TimerFires 1 []]
           (fst (send otherBrowser legacyTransport "http://x/y" None None
                   None (setTimeoutInterval (Num 1000) new_XhrIo)))).
  reflexivity.
Defined.

(** A completed request on a controller with settings of its own. *)
Lemma request_cycle_keeps_settings_witness :
  let s :=
    setWithCredentials true
      (setResponseType ResponseType.TEXT
         (setTimeoutInterval (Num 1000) new_XhrIo)) in
  let final :=
    run otherBrowser [Notify (progress 3); Notify (done 200 "OK")]
      (fst (send otherBrowser level2Transport "http://x/y" None None None
              s)) in
  isActive s = false /\
  getLastUri final = "http://x/y" /\
  headers final = headers s /\
  getTimeoutInterval final = getTimeoutInterval s /\
  getResponseType final = getResponseType s /\
  getWithCredentials final = getWithCredentials s.
Proof.
  cbv zeta. split; [reflexivity|].
  apply (request_cycle_keeps_settings otherBrowser level2Transport
           "http://x/y" None None None
           [Notify (progress 3); Notify (done 200 "OK")]
           (setWithCredentials true
              (setResponseType ResponseType.TEXT
                 (setTimeoutInterval (Num 1000) new_XhrIo)))).
  reflexivity.
Defined.

(** A request that reports progress and is then aborted with the code
    HTTP_ERROR; a second abort comes too late to count. *)
Lemma error_code_matches_ending_witness :
  let stimuli :=
    [Notify (progress 3); CallAbort (Some ErrorCode.HTTP_ERROR) [];
     CallAbort None []] in
  let sent :=
    fst (send otherBrowser legacyTransport "http://x/y" None None None
           new_XhrIo) in
  let final := run otherBrowser stimuli sent in
  isActive final = false /\ getLastErrorCode final = ErrorCode.HTTP_ERROR /\
  (isActive final = true ->
   getLastErrorCode final = ErrorCode.NO_ERROR /\
   getLastError final = NoMessage) /\
  (isActive final = false ->
   exists k ending,
     EndingCode (abortedIn otherBrowser sent stimuli) ending
       (getLastErrorCode final) /\
     eventsSince (events new_XhrIo) final
     = repeat EventType.READY_STATE_CHANGE k ++ ending).
Proof.
  cbv zeta. split; [reflexivity|]. split; [reflexivity|].
  apply (error_code_matches_ending otherBrowser legacyTransport "http://x/y"
           None None None
           [Notify (progress 3); CallAbort (Some ErrorCode.HTTP_ERROR) [];
            CallAbort None []]
           new_XhrIo).
  - reflexivity.
  - constructor.
Defined.

(** On Internet Explorer 9 a request with a timeout of one second has
    the handle's own timeout armed while it is in flight; the clean-up
    that a release starts with clears it. *)
Lemma timeout_is_disarmed_on_release_witness :
  let s := setTimeoutInterval (Num 1000) new_XhrIo in
  let final :=
    run explorer9 [Notify (progress 3)]
      (fst (send explorer9 level2Transport "http://x/y" None None None s)) in
  isActive s = false /\ fallbackTimeoutArmed s = false /\
  freshHandle level2Transport /\ opensQuietly level2Transport /\
  isActive final = true /\ nativeTimeoutArmed final = true /\
  (isActive final = false -> fallbackTimeoutArmed final = false) /\
  (forall r, In r (timers final) -> timerCallback r = Callback_timeout_ ->
   isActive final = true /\ timeoutId_ final = Some (timerId r)) /\
  nativeTimeoutArmed (cleanUpTimeoutTimer_ final) = false /\
  fallbackTimeoutArmed (cleanUpTimeoutTimer_ final) = false.
Proof.
  cbv zeta.
  assert (Hfresh : freshHandle level2Transport) by (intros H; discriminate H).
  assert (Hq : opensQuietly level2Transport) by constructor.
  split; [reflexivity | split; [reflexivity|]].
  split; [exact Hfresh | split; [exact Hq|]].
  split; [reflexivity | split; [reflexivity|]].
  exact (timeout_is_disarmed_on_release explorer9 level2Transport
           "http://x/y" None None None [Notify (progress 3)]
           (setTimeoutInterval (Num 1000) new_XhrIo)
           eq_refl eq_refl Hfresh Hq).
Defined.

(** Outside Internet Explorer the same request has the goog.Timer
    fallback armed; when the response comes in time, the registration
    is gone with the handle. *)
Lemma fallback_timer_is_cancelled_on_completion :
  let sent :=
    fst (send otherBrowser level2Transport "http://x/y" None None None
           (setTimeoutInterval (Num 1000) new_XhrIo)) in
  let final := run otherBrowser [Notify (done 200 "OK")] sent in
  fallbackTimeoutArmed sent = true /\ isActive final = false /\
  fallbackTimeoutArmed final = false /\ timers final = [].
Proof. vm_compute. repeat split. Qed.

(** A handle with the credentials property, and a controller with the
    flag and a response type set. *)
Lemma send_configures_handle_witness :
  let s :=
    setWithCredentials true (setResponseType ResponseType.TEXT new_XhrIo) in
  isActive s = false /\
  exists x,
    xhr_ (fst (send otherBrowser level2Transport "http://x/y" None None None
                 s)) = Some x /\
    onreadystatechange x = Handler_bound /\
    withCredentials x
    = (if hasWithCredentials (createInstance level2Transport)
       then getWithCredentials s
       else withCredentials (createInstance level2Transport)) /\
    responseType x
    = (if ResponseType.truthy (getResponseType s) then getResponseType s
       else responseType (createInstance level2Transport)).
Proof.
  cbv zeta. split; [reflexivity|].
  apply (send_configures_handle otherBrowser level2Transport "http://x/y"
           None None None
           (setWithCredentials true
              (setResponseType ResponseType.TEXT new_XhrIo))).
  - reflexivity.
  - constructor.
  - reflexivity.
  - reflexivity.
Defined.

(** A default header overridden by a per-call header that is given
    twice. *)
Lemma request_headers_are_merged_witness :
  let s := set_headers [("X-A", "1"); ("X-B", "b")] new_XhrIo in
  let opt_headers := Some [("X-A", "2"); ("X-A", "3")] in
  let passed :=
    headersPassed
      (callsSince (calls s)
         (fst (send otherBrowser legacyTransport "http://x/y" None None
                 opt_headers s))) in
  passed = [("X-A", "3"); ("X-B", "b")] /\
  NoDup (map fst passed) /\
  (forall l1 k v l2,
      opt_headers = Some (l1 ++ (k, v) :: l2) ->
      ~ In k (map fst l2) ->
      In (k, v) passed) /\
  (forall k v,
      In (k, v) (headers s) ->
      (forall extra, opt_headers = Some extra -> ~ In k (map fst extra)) ->
      In (k, v) passed).
Proof.
  cbv zeta. split; [reflexivity|].
  apply (request_headers_are_merged otherBrowser legacyTransport "http://x/y"
           None None (Some [("X-A", "2"); ("X-A", "3")])
           (set_headers [("X-A", "1"); ("X-B", "b")] new_XhrIo)).
  - reflexivity.
  - constructor.
  - reflexivity.
  - simpl. constructor.
    + intros [H | []]. discriminate H.
    + constructor; [intros [] | constructor].
Defined.

(** A response that starts with an anti-hijacking prefix. *)
Lemma getResponseJson_strips_prefix_witness :
  let x :=
    mkXhr 4 (Some 200) (Some "OK") (Some "while(1);{}") None None None
      (fun _ => None) None None OnTimeout_undefined false false
      ResponseType.DEFAULT Handler_bound in
  let s := set_xhr_ (Some x) new_XhrIo in
  getResponseJson otherBrowser (Some "while(1);") s
  = Returned (JsObject "{}") /\
  getResponseJson otherBrowser (Some "for(;;);") s
  = Returned (JsObject "while(1);{}").
Proof.
  cbv zeta.
  pose proof
    (getResponseJson_strips_prefix otherBrowser
       (mkXhr 4 (Some 200) (Some "OK") (Some "while(1);{}") None None None
          (fun _ => None) None None OnTimeout_undefined false false
          ResponseType.DEFAULT Handler_bound)
       (set_xhr_
          (Some
             (mkXhr 4 (Some 200) (Some "OK") (Some "while(1);{}") None None
                None (fun _ => None) None None OnTimeout_undefined false
                false ResponseType.DEFAULT Handler_bound))
          new_XhrIo)
       eq_refl) as (H1 & H2 & _).
  split.
  - exact (H1 "while(1);" "{}" eq_refl).
  - exact (H2 "for(;;);" "while(1);{}" eq_refl eq_refl).
Defined.

(* ------------------------------------------------------------------ *)
(** ** goog.dom.classes *)

Lemma string_app_empty (s : string) : (s ++ "")%string = s.
Proof. induction s as [|c s IH]; simpl; [reflexivity | now rewrite IH]. Qed.

Lemma string_app_assoc (a b c : string) :
  ((a ++ b) ++ c)%string = (a ++ (b ++ c))%string.
Proof. induction a as [|x a IH]; simpl; [reflexivity | now rewrite IH]. Qed.

Lemma string_app_nonempty (a : string) (c : ascii) (b : string) :
  (a ++ String c b)%string <> "".
Proof. destruct a; simpl; discriminate. Qed.

Lemma noWhiteSpace_app (a b : string) :
  Classes.noWhiteSpace (a ++ b)%string
  = Classes.noWhiteSpace a && Classes.noWhiteSpace b.
Proof.
  induction a as [|c a IH]; simpl; [reflexivity|].
  rewrite IH. now rewrite andb_assoc.
Qed.

Lemma array_contains_In (l : list string) (x : string) :
  array_contains l x = true <-> In x l.
Proof.
  unfold array_contains. rewrite existsb_exists. split.
  - intros [y [Hin Heq]]. apply String.eqb_eq in Heq. now subst.
  - intros Hin. exists x. split; [exact Hin | apply String.eqb_refl].
Qed.

Lemma array_contains_false (l : list string) (x : string) :
  array_contains l x = false <-> ~ In x l.
Proof.
  rewrite <- array_contains_In. destruct (array_contains l x); split.
  - discriminate.
  - intros H. exfalso. now apply H.
  - intros _. discriminate.
  - reflexivity.
Qed.

Lemma array_contains_app (l l' : list string) (x : string) :
  array_contains (l ++ l') x = array_contains l x || array_contains l' x.
Proof. unfold array_contains. apply existsb_app. Qed.

Lemma array_contains_cons (a : string) (l : list string) (x : string) :
  array_contains (a :: l) x = String.eqb x a || array_contains l x.
Proof. reflexivity. Qed.

(** A run of characters that are not white space is read as one piece. *)
Lemma matchNonSpace_run (w cur rest : string) :
  Classes.noWhiteSpace w = true ->
  Classes.matchNonSpace cur (w ++ rest)%string
  = Classes.matchNonSpace (cur ++ w)%string rest.
Proof.
  revert cur. induction w as [|c w IH]; intros cur Hw; simpl.
  - now rewrite string_app_empty.
  - simpl in Hw. apply andb_true_iff in Hw. destruct Hw as [Hc Hw].
    apply negb_true_iff in Hc. rewrite Hc.
    rewrite (IH _ Hw). now rewrite string_app_assoc.
Qed.

Lemma matchNonSpace_names (str cur : string) :
  Classes.noWhiteSpace cur = true ->
  Forall (fun name => Classes.isClassName name = true)
    (Classes.matchNonSpace cur str).
Proof.
  revert cur. induction str as [|c rest IH]; intros cur Hcur; simpl.
  - destruct cur as [|x cur]; constructor; [|constructor].
    unfold Classes.isClassName. now rewrite Hcur.
  - destruct (Classes.isWhiteSpace c) eqn:Hc.
    + destruct cur as [|x cur].
      * now apply IH.
      * constructor; [|now apply IH].
        unfold Classes.isClassName. now rewrite Hcur.
    + apply IH. rewrite noWhiteSpace_app, Hcur. simpl. now rewrite Hc.
Qed.

Lemma isClassName_parts (name : string) :
  Classes.isClassName name = true ->
  name <> "" /\ Classes.noWhiteSpace name = true.
Proof.
  unfold Classes.isClassName. intros H. apply andb_true_iff in H.
  destruct H as [H1 H2]. split; [|exact H2].
  apply negb_true_iff in H1. now apply String.eqb_neq in H1.
Qed.

Lemma matchNonSpace_space (cur rest : string) :
  cur <> "" ->
  Classes.matchNonSpace cur (String " " rest)
  = cur :: Classes.matchNonSpace "" rest.
Proof. intros H. destruct cur; [congruence | reflexivity]. Qed.

Lemma join_cons (w w2 : string) (names : list string) :
  Classes.join " " (w :: w2 :: names)
  = (w ++ String " " (Classes.join " " (w2 :: names)))%string.
Proof. reflexivity. Qed.

Lemma matchNonSpace_join (names : list string) :
  Forall (fun name => Classes.isClassName name = true) names ->
  Classes.matchNonSpace "" (Classes.join " " names) = names.
Proof.
  induction names as [|w names IH]; intros Hall; [reflexivity|].
  inversion Hall as [|? ? Hw Hrest]; subst.
  destruct (isClassName_parts _ Hw) as [Hne Hws].
  destruct names as [|w2 names].
  - simpl. rewrite <- (string_app_empty w) at 1.
    rewrite (matchNonSpace_run w "" "" Hws). simpl.
    destruct w; [congruence | reflexivity].
  - rewrite join_cons. rewrite (matchNonSpace_run w "" _ Hws).
    change ("" ++ w)%string with w.
    rewrite (matchNonSpace_space _ _ Hne). now rewrite (IH Hrest).
Qed.

Lemma get_names (e : Classes.Element) :
  Forall (fun name => Classes.isClassName name = true) (Classes.get e).
Proof.
  unfold Classes.get. destruct (Classes.className e).
  - now apply matchNonSpace_names.
  - constructor.
Qed.

Lemma get_set_join (e : Classes.Element) (names : list string) :
  Forall (fun name => Classes.isClassName name = true) names ->
  Classes.get (Classes.set e (Classes.join " " names)) = names.
Proof. intros H. unfold Classes.get, Classes.set. simpl. now apply matchNonSpace_join. Qed.

Lemma add__contains (args classes : list string) (x : string) :
  array_contains (Classes.add_ classes args) x
  = array_contains classes x || array_contains args x.
Proof.
  unfold Classes.add_. revert classes.
  induction args as [|a args IH]; intros classes; simpl.
  - now rewrite orb_false_r.
  - rewrite IH. destruct (array_contains classes a) eqn:Ha.
    + destruct (String.eqb x a) eqn:Hx.
      * apply String.eqb_eq in Hx. subst. now rewrite Ha.
      * reflexivity.
    + rewrite array_contains_app. simpl. rewrite orb_false_r.
      now rewrite orb_assoc.
Qed.

Lemma add__names (args classes : list string) :
  Forall (fun name => Classes.isClassName name = true) classes ->
  Forall (fun name => Classes.isClassName name = true) args ->
  Forall (fun name => Classes.isClassName name = true)
    (Classes.add_ classes args).
Proof.
  unfold Classes.add_. revert classes.
  induction args as [|a args IH]; intros classes Hc Ha; simpl; [exact Hc|].
  inversion Ha; subst. apply IH; [|assumption].
  destruct (array_contains classes a); [exact Hc|].
  apply Forall_app. split; [exact Hc | now constructor].
Qed.

Lemma add__NoDup (args classes : list string) :
  NoDup classes -> NoDup (Classes.add_ classes args).
Proof.
  unfold Classes.add_. revert classes.
  induction args as [|a args IH]; intros classes Hc; simpl; [exact Hc|].
  apply IH. destruct (array_contains classes a) eqn:Ha; [exact Hc|].
  apply array_contains_false in Ha.
  apply NoDup_app; [exact Hc | constructor; [intros []|constructor] |].
  intros x Hx [Hx'|[]]. now subst.
Qed.

Lemma add__extends (args classes : list string) :
  exists added, Classes.add_ classes args = classes ++ added.
Proof.
  unfold Classes.add_. revert classes.
  induction args as [|a args IH]; intros classes; simpl.
  - exists []. now rewrite app_nil_r.
  - destruct (array_contains classes a).
    + apply IH.
    + destruct (IH (classes ++ [a])) as [added H].
      exists (a :: added). rewrite H. now rewrite <- app_assoc.
Qed.

Lemma add__length_le (args classes : list string) :
  (List.length (Classes.add_ classes args)
   <= List.length classes + List.length args)%nat.
Proof.
  unfold Classes.add_. revert classes.
  induction args as [|a args IH]; intros classes; simpl; [lia|].
  destruct (array_contains classes a).
  - specialize (IH classes). lia.
  - specialize (IH (classes ++ [a])). rewrite length_app in IH. simpl in IH. lia.
Qed.

Lemma add__length (args classes : list string) :
  List.length (Classes.add_ classes args)
  = (List.length classes + List.length args)%nat
  <-> NoDup args /\ (forall a, In a args -> ~ In a classes).
Proof.
  revert classes.
  induction args as [|a args IH]; intros classes.
  - simpl. split; [intros _; split; [constructor | intros a []] | intros _; lia].
  - change (Classes.add_ classes (a :: args))
      with (Classes.add_
              (if array_contains classes a then classes else classes ++ [a])
              args).
    destruct (array_contains classes a) eqn:Ha.
    + split.
      * intros H. pose proof (add__length_le args classes). simpl in H. lia.
      * intros [_ H]. apply array_contains_In in Ha.
        exfalso. apply (H a); [now left | exact Ha].
    + apply array_contains_false in Ha.
      assert (Hlen : List.length (Classes.add_ (classes ++ [a]) args)
                     = (List.length classes + List.length (a :: args))%nat
                     <-> List.length (Classes.add_ (classes ++ [a]) args)
                         = (List.length (classes ++ [a]) + List.length args)%nat).
      { rewrite length_app. simpl. lia. }
      rewrite Hlen, IH. split.
      * intros [Hnd Hall]. split.
        -- constructor; [|exact Hnd].
           intros Hin. apply (Hall a Hin). apply in_or_app. right. now left.
        -- intros b [Hb|Hb] Hc.
           ++ subst. now apply Ha.
           ++ apply (Hall b Hb). apply in_or_app. now left.
      * intros [Hnd Hall]. inversion Hnd as [|? ? Hna Hnd']; subst.
        split; [exact Hnd'|].
        intros b Hb Hc. apply in_app_or in Hc. destruct Hc as [Hc|[Hc|[]]].
        -- apply (Hall b); [now right | exact Hc].
        -- subst. now apply Hna.
Qed.

Lemma names_filter (f : string -> bool) (l : list string) :
  Forall (fun name => Classes.isClassName name = true) l ->
  Forall (fun name => Classes.isClassName name = true) (filter f l).
Proof.
  rewrite !Forall_forall. intros H x Hx. apply filter_In in Hx. now apply H.
Qed.

Lemma get_add (e : Classes.Element) (args : list string) :
  Forall (fun name => Classes.isClassName name = true) args ->
  Classes.get (fst (Classes.add e args)) = Classes.add_ (Classes.get e) args.
Proof.
  intros Hargs. unfold Classes.add. cbn [fst]. apply get_set_join.
  apply add__names; [apply get_names | exact Hargs].
Qed.

Lemma get_remove (e : Classes.Element) (args : list string) :
  Classes.get (fst (Classes.remove e args))
  = Classes.getDifference_ (Classes.get e) args.
Proof.
  unfold Classes.remove. cbn [fst]. apply get_set_join.
  apply names_filter, get_names.
Qed.

Lemma getDifference__contains (arr1 arr2 : list string) (x : string) :
  array_contains (Classes.getDifference_ arr1 arr2) x
  = array_contains arr1 x && negb (array_contains arr2 x).
Proof.
  unfold Classes.getDifference_.
  induction arr1 as [|a arr1 IH]; [reflexivity|].
  simpl filter. destruct (array_contains arr2 a) eqn:Ha; cbn [negb].
  - rewrite IH, array_contains_cons.
    destruct (String.eqb x a) eqn:Hx; [|reflexivity].
    apply String.eqb_eq in Hx. subst. rewrite Ha. cbn [negb].
    now rewrite !andb_false_r.
  - rewrite !array_contains_cons, IH.
    destruct (String.eqb x a) eqn:Hx; [|reflexivity].
    apply String.eqb_eq in Hx. subst. now rewrite Ha.
Qed.

Lemma has_add (e : Classes.Element) (args : list string) (c : string) :
  Forall (fun name => Classes.isClassName name = true) args ->
  Classes.has (fst (Classes.add e args)) c
  = Classes.has e c || array_contains args c.
Proof.
  intros Hargs. unfold Classes.has. rewrite (get_add _ _ Hargs).
  apply add__contains.
Qed.

Lemma has_remove (e : Classes.Element) (args : list string) (c : string) :
  Classes.has (fst (Classes.remove e args)) c
  = Classes.has e c && negb (array_contains args c).
Proof.
  unfold Classes.has. rewrite get_remove. apply getDifference__contains.
Qed.

Lemma has_malformed (e : Classes.Element) (name : string) :
  Classes.isClassName name = false -> Classes.has e name = false.
Proof.
  intros Hbad. unfold Classes.has. apply array_contains_false. intros Hin.
  pose proof (get_names e) as Hall. rewrite Forall_forall in Hall.
  rewrite (Hall _ Hin) in Hbad. discriminate.
Qed.

Lemma filter_lengths (f : string -> bool) (l : list string) :
  (List.length (filter f l) + List.length (filter (fun x => negb (f x)) l)
   = List.length l)%nat.
Proof.
  induction l as [|a l IH]; [reflexivity|].
  simpl. destruct (f a); simpl; lia.
Qed.

Lemma swapLoop_spec (classes : list string) (fromClass : string) :
  Classes.swapLoop classes fromClass
  = (filter (fun c => negb (String.eqb c fromClass)) classes,
     array_contains classes fromClass).
Proof.
  induction classes as [|c classes IH]; [reflexivity|].
  simpl Classes.swapLoop. rewrite IH. rewrite array_contains_cons.
  simpl filter. rewrite (String.eqb_sym fromClass c).
  destruct (String.eqb c fromClass); reflexivity.
Qed.

Lemma filter_neq_contains (classes : list string) (fromClass x : string) :
  array_contains (filter (fun c => negb (String.eqb c fromClass)) classes) x
  = array_contains classes x && negb (String.eqb x fromClass).
Proof.
  induction classes as [|c classes IH]; [reflexivity|].
  simpl filter. destruct (String.eqb c fromClass) eqn:Hc; cbn [negb].
  - rewrite IH, array_contains_cons. apply String.eqb_eq in Hc. subst.
    destruct (String.eqb x fromClass); [|reflexivity].
    cbn [negb]. now rewrite !andb_false_r.
  - rewrite !array_contains_cons, IH.
    destruct (String.eqb x c) eqn:Hx; [|reflexivity].
    apply String.eqb_eq in Hx. subst. now rewrite Hc.
Qed.

Lemma array_remove_names (l : list string) (x : string) :
  Forall (fun name => Classes.isClassName name = true) l ->
  Forall (fun name => Classes.isClassName name = true)
    (Classes.array_remove l x).
Proof.
  induction l as [|a l IH]; intros H; [constructor|].
  inversion H; subst. simpl. destruct (String.eqb a x); [assumption|].
  constructor; [assumption | now apply IH].
Qed.

Lemma array_remove_gone (l : list string) (x : string) :
  NoDup l -> ~ In x (Classes.array_remove l x).
Proof.
  induction l as [|a l IH]; intros Hnd; [intros []|].
  inversion Hnd as [|? ? Hna Hnd']; subst. simpl.
  destruct (String.eqb a x) eqn:Ha.
  - apply String.eqb_eq in Ha. now subst.
  - intros [Hx|Hx]; [subst; now rewrite String.eqb_refl in Ha|].
    now apply IH.
Qed.

Lemma has_enable (e : Classes.Element) (name : string) (enabled : bool) :
  Classes.isClassName name = true ->
  Classes.has (Classes.enable e name enabled) name = enabled
  /\ (forall c, c <> name ->
      Classes.has (Classes.enable e name enabled) c = Classes.has e c).
Proof.
  intros Hname.
  assert (Hall : Forall (fun n => Classes.isClassName n = true) [name])
    by now constructor.
  unfold Classes.enable. destruct enabled.
  - split.
    + rewrite (has_add _ _ _ Hall). simpl. rewrite String.eqb_refl.
      now rewrite orb_true_r.
    + intros c Hc. rewrite (has_add _ _ _ Hall). simpl.
      apply String.eqb_neq in Hc. rewrite Hc. now rewrite !orb_false_r.
  - split.
    + rewrite has_remove. simpl. rewrite String.eqb_refl.
      now rewrite andb_false_r.
    + intros c Hc. rewrite has_remove. simpl.
      apply String.eqb_neq in Hc. rewrite Hc. now rewrite andb_true_r.
Qed.

(** X1. Every name that [goog.dom.classes.get] returns is non-empty and
    free of white space, an element whose [className] is not a string
    has no classes, and writing back the names that [get] returned,
    joined by single spaces, changes nothing that [get] reads. *)
Theorem classes_get_returns_class_names :
  forall e : Classes.Element,
    Forall (fun name => Classes.isClassName name = true) (Classes.get e)
    /\ (Classes.className e = None -> Classes.get e = [])
    /\ Classes.get (Classes.set e (Classes.join " " (Classes.get e)))
       = Classes.get e.
Proof.
  intros e. split; [apply get_names|]. split.
  - intros H. unfold Classes.get. now rewrite H.
  - apply get_set_join, get_names.
Qed.

(** X2. Round trip of [goog.dom.classes.set] and [get]: a list of names,
    each non-empty and free of white space, that is joined by single
    spaces and written with [set] is read back by [get] as the same
    list, in the same order. *)
Theorem classes_set_get_round_trip :
  forall (e : Classes.Element) (names : list string),
    Forall (fun name => Classes.isClassName name = true) names ->
    Classes.get (Classes.set e (Classes.join " " names)) = names.
Proof. intros e names H. now apply get_set_join. Qed.

(** X3. After [goog.dom.classes.add] with well-formed names the element
    has exactly the classes it had and the ones added; the classes it
    had keep their places, the new ones follow, and a class list without
    repetition stays without repetition. *)
Theorem classes_add_membership :
  forall (e : Classes.Element) (args : list string),
    Forall (fun name => Classes.isClassName name = true) args ->
    let e' := fst (Classes.add e args) in
    (forall c, Classes.has e' c = Classes.has e c || array_contains args c)
    /\ (exists added, Classes.get e' = Classes.get e ++ added)
    /\ (NoDup (Classes.get e) -> NoDup (Classes.get e')).
Proof.
  intros e args Hargs e'. subst e'. split; [|split].
  - intros c. now apply has_add.
  - rewrite (get_add _ _ Hargs). apply add__extends.
  - intros Hnd. rewrite (get_add _ _ Hargs). now apply add__NoDup.
Qed.

(** X4. [goog.dom.classes.add] returns true exactly when the names given
    are pairwise different and the element had none of them. *)
Theorem classes_add_result :
  forall (e : Classes.Element) (args : list string),
    snd (Classes.add e args) = true
    <-> NoDup args /\ (forall a, In a args -> Classes.has e a = false).
Proof.
  intros e args. unfold Classes.add. cbn [snd].
  rewrite Nat.eqb_eq, add__length. unfold Classes.has.
  split; intros [Hnd H]; (split; [exact Hnd|]); intros a Ha.
  - apply array_contains_false. now apply H.
  - apply array_contains_false. now apply H.
Qed.

(** X5. After [goog.dom.classes.remove] the element has exactly the
    classes it had that are not among the names given, in their old
    order; every occurrence of a removed name is gone. *)
Theorem classes_remove_membership :
  forall (e : Classes.Element) (args : list string),
    let e' := fst (Classes.remove e args) in
    (forall c,
        Classes.has e' c = Classes.has e c && negb (array_contains args c))
    /\ Classes.get e'
       = filter (fun c => negb (array_contains args c)) (Classes.get e).
Proof.
  intros e args e'. subst e'. split.
  - intros c. apply has_remove.
  - apply get_remove.
Qed.

(** X6. On an element whose classes are pairwise different,
    [goog.dom.classes.remove] with pairwise different names returns true
    exactly when the element had every one of them. *)
Theorem classes_remove_result :
  forall (e : Classes.Element) (args : list string),
    NoDup (Classes.get e) -> NoDup args ->
    (snd (Classes.remove e args) = true
     <-> forall a, In a args -> Classes.has e a = true).
Proof.
  intros e args Hnd Hargs. unfold Classes.remove, Classes.has. cbn [snd].
  set (classes := Classes.get e) in *.
  set (common := filter (fun c => array_contains args c) classes).
  assert (Hsplit : (List.length common
                    + List.length (Classes.getDifference_ classes args)
                    = List.length classes)%nat)
    by apply filter_lengths.
  assert (Hcommon : NoDup common) by now apply NoDup_filter.
  assert (Hincl : incl common args).
  { intros x Hx. apply filter_In in Hx. now apply array_contains_In. }
  pose proof (NoDup_incl_length Hcommon Hincl) as Hle.
  rewrite Z.eqb_eq. split.
  - intros Hlen a Ha. apply array_contains_In.
    assert (Hback : incl args common).
    { apply NoDup_length_incl; [exact Hcommon | lia | exact Hincl]. }
    specialize (Hback a Ha). apply filter_In in Hback. tauto.
  - intros Hall.
    assert (Hback : incl args common).
    { intros a Ha. apply filter_In. split.
      - apply array_contains_In. now apply Hall.
      - now apply array_contains_In. }
    pose proof (NoDup_incl_length Hargs Hback). lia.
Qed.

(** X7. [goog.dom.classes.swap] returns whether the element had
    [fromClass]. If it had not, the element is left as it was, and
    [toClass] is not added. If it had, every occurrence of [fromClass] is
    gone and a well-formed [toClass] is appended, also when the element
    had it already. *)
Theorem classes_swap_behaviour :
  forall (e : Classes.Element) (fromClass toClass : string),
    Classes.isClassName toClass = true ->
    let r := Classes.swap e fromClass toClass in
    snd r = Classes.has e fromClass
    /\ (Classes.has e fromClass = false -> fst r = e)
    /\ (Classes.has e fromClass = true ->
        Classes.get (fst r)
        = filter (fun c => negb (String.eqb c fromClass)) (Classes.get e)
          ++ [toClass]).
Proof.
  intros e fromClass toClass Hto r. subst r.
  unfold Classes.swap, Classes.has. rewrite swapLoop_spec.
  destruct (array_contains (Classes.get e) fromClass) eqn:Hhas; cbn [fst snd].
  - split; [reflexivity|]. split; [discriminate|]. intros _.
    apply get_set_join. apply Forall_app. split.
    + apply names_filter, get_names.
    + now constructor.
  - split; [reflexivity|]. split; [reflexivity | discriminate].
Qed.

(** X8. [goog.dom.classes.addRemove] with two arrays: afterwards the
    element has the classes it had that are not to be removed, and all
    the classes to add; a name in both arrays is present afterwards. *)
Theorem classes_addRemove_membership :
  forall (e : Classes.Element) (toRemove toAdd : list string),
    Forall (fun name => Classes.isClassName name = true) toAdd ->
    let e' := Classes.addRemove e (Classes.Names toRemove)
                (Classes.Names toAdd) in
    (forall c,
        Classes.has e' c
        = (Classes.has e c && negb (array_contains toRemove c))
          || array_contains toAdd c)
    /\ (forall c, In c toAdd -> Classes.has e' c = true).
Proof.
  intros e toRemove toAdd Hadd e'. subst e'.
  assert (Hmem : forall c,
             Classes.has
               (Classes.addRemove e (Classes.Names toRemove)
                  (Classes.Names toAdd)) c
             = (Classes.has e c && negb (array_contains toRemove c))
               || array_contains toAdd c).
  { intros c. unfold Classes.addRemove, Classes.has.
    rewrite get_set_join.
    - now rewrite add__contains, getDifference__contains.
    - apply add__names; [|exact Hadd]. apply names_filter, get_names. }
  split; [exact Hmem|].
  intros c Hc. rewrite Hmem. apply array_contains_In in Hc. rewrite Hc.
  apply orb_true_r.
Qed.

(** X9. [goog.dom.classes.addRemove] with two strings: a well-formed
    name to add is present afterwards, also when it is the name to
    remove; the name to remove, if it is another one and the element's
    classes were pairwise different, is gone. With a repeated class only
    the first occurrence is taken out. *)
Theorem classes_addRemove_strings :
  forall (e : Classes.Element) (toRemove toAdd : string),
    Classes.isClassName toAdd = true ->
    let e' := Classes.addRemove e (Classes.OneName toRemove)
                (Classes.OneName toAdd) in
    Classes.has e' toAdd = true
    /\ (toRemove <> toAdd -> NoDup (Classes.get e) ->
        Classes.has e' toRemove = false)
    /\ Classes.get e'
       = (let classes := Classes.array_remove (Classes.get e) toRemove in
          if array_contains classes toAdd then classes
          else classes ++ [toAdd]).
Proof.
  intros e toRemove toAdd Hadd e'. subst e'.
  assert (Hget : Classes.get
                   (Classes.addRemove e (Classes.OneName toRemove)
                      (Classes.OneName toAdd))
                 = (let classes := Classes.array_remove (Classes.get e) toRemove in
                    if array_contains classes toAdd then classes
                    else classes ++ [toAdd])).
  { unfold Classes.addRemove. cbv zeta.
    pose proof (array_remove_names (Classes.get e) toRemove (get_names e)).
    destruct (array_contains (Classes.array_remove (Classes.get e) toRemove)
                toAdd); cbn [negb]; apply get_set_join; [assumption|].
    apply Forall_app. split; [assumption | now constructor]. }
  split; [|split; [|exact Hget]].
  - unfold Classes.has. rewrite Hget. cbv zeta.
    destruct (array_contains (Classes.array_remove (Classes.get e) toRemove)
                toAdd) eqn:H; [exact H|].
    rewrite array_contains_app. simpl. rewrite String.eqb_refl.
    now rewrite orb_true_r.
  - intros Hneq Hnd. unfold Classes.has. rewrite Hget. cbv zeta.
    assert (Hgone : array_contains
                      (Classes.array_remove (Classes.get e) toRemove) toRemove
                    = false).
    { apply array_contains_false. now apply array_remove_gone. }
    destruct (array_contains (Classes.array_remove (Classes.get e) toRemove)
                toAdd); [exact Hgone|].
    rewrite array_contains_app, Hgone. simpl.
    apply String.eqb_neq in Hneq. now rewrite Hneq.
Qed.

(** X10. [goog.dom.classes.enable] with a well-formed name makes [has]
    answer the flag given for that name and leaves the answer for every
    other name as it was. *)
Theorem classes_enable_sets_membership :
  forall (e : Classes.Element) (name : string) (enabled : bool),
    Classes.isClassName name = true ->
    Classes.has (Classes.enable e name enabled) name = enabled
    /\ (forall c, c <> name ->
        Classes.has (Classes.enable e name enabled) c = Classes.has e c).
Proof. intros e name enabled Hname. now apply has_enable. Qed.

(** X11. [goog.dom.classes.toggle] with a well-formed name returns the
    negation of what [has] answered, [has] answers the returned value
    afterwards, and toggling twice gives back the membership of every
    name. *)
Theorem classes_toggle_flips_membership :
  forall (e : Classes.Element) (name : string),
    Classes.isClassName name = true ->
    let r := Classes.toggle e name in
    snd r = negb (Classes.has e name)
    /\ Classes.has (fst r) name = snd r
    /\ (forall c,
        Classes.has (fst (Classes.toggle (fst r) name)) c = Classes.has e c).
Proof.
  intros e name Hname r. subst r. unfold Classes.toggle. cbn [fst snd].
  pose proof (fun e0 b => has_enable e0 name b Hname) as Hen.
  split; [reflexivity|]. split; [apply Hen|].
  intros c. destruct (String.eqb c name) eqn:Hc.
  - apply String.eqb_eq in Hc. subst c.
    rewrite (proj1 (Hen e _)). rewrite (proj1 (Hen _ _)).
    now rewrite negb_involutive.
  - apply String.eqb_neq in Hc.
    rewrite (proj2 (Hen _ _) c Hc). now rewrite (proj2 (Hen _ _) c Hc).
Qed.

(** X12. A name that is empty or holds white space is never reported by
    [goog.dom.classes.has], not even right after it was passed to
    [add], which nevertheless returns true for it. *)
Theorem classes_malformed_name_is_never_found :
  forall (e : Classes.Element) (name : string),
    Classes.isClassName name = false ->
    Classes.has e name = false
    /\ snd (Classes.add e [name]) = true
    /\ Classes.has (fst (Classes.add e [name])) name = false.
Proof.
  intros e name Hbad. split; [now apply has_malformed|]. split.
  - unfold Classes.add. cbn [snd]. apply Nat.eqb_eq.
    unfold Classes.add_. simpl fold_left.
    pose proof (has_malformed e name Hbad) as H. unfold Classes.has in H.
    rewrite H. rewrite length_app. reflexivity.
  - now apply has_malformed.
Qed.

(* ------------------------------------------------------------------ *)
(** ** goog.dom.classes: concrete elements *)

(** Two names written and read back. *)
Lemma classes_set_get_round_trip_witness :
  Classes.get
    (Classes.set (Classes.mkElement None) (Classes.join " " ["menu"; "open"]))
  = ["menu"; "open"].
Proof.
  apply (classes_set_get_round_trip (Classes.mkElement None) ["menu"; "open"]).
  repeat constructor.
Defined.

(** Adding one class the element has and one it has not. *)
Lemma classes_add_membership_witness :
  let e := Classes.mkElement (Some " menu  open ") in
  let e' := fst (Classes.add e ["open"; "wide"]) in
  (forall c,
      Classes.has e' c = Classes.has e c || array_contains ["open"; "wide"] c)
  /\ (exists added, Classes.get e' = Classes.get e ++ added)
  /\ (NoDup (Classes.get e) -> NoDup (Classes.get e')).
Proof.
  apply (classes_add_membership (Classes.mkElement (Some " menu  open "))
           ["open"; "wide"]).
  repeat constructor.
Defined.

(** Removing one class the element has and one it has not. *)
Lemma classes_remove_result_witness :
  let e := Classes.mkElement (Some "menu open") in
  NoDup (Classes.get e) /\ NoDup ["open"; "wide"]
  /\ (snd (Classes.remove e ["open"; "wide"]) = true
      <-> forall a, In a ["open"; "wide"] -> Classes.has e a = true).
Proof.
  cbv zeta.
  assert (H1 : NoDup (Classes.get (Classes.mkElement (Some "menu open")))).
  { vm_compute. constructor; [simpl; intuition discriminate|].
    constructor; [simpl; intuition discriminate | constructor]. }
  assert (H2 : NoDup ["open"; "wide"]).
  { constructor; [simpl; intuition discriminate|].
    constructor; [simpl; intuition discriminate | constructor]. }
  split; [exact H1|]. split; [exact H2|].
  exact (classes_remove_result (Classes.mkElement (Some "menu open"))
           ["open"; "wide"] H1 H2).
Defined.

(** Swapping a class the element has twice for one it has already. *)
Lemma classes_swap_behaviour_witness :
  let e := Classes.mkElement (Some "off menu off open") in
  let r := Classes.swap e "off" "open" in
  snd r = Classes.has e "off"
  /\ (Classes.has e "off" = false -> fst r = e)
  /\ (Classes.has e "off" = true ->
      Classes.get (fst r)
      = filter (fun c => negb (String.eqb c "off")) (Classes.get e)
        ++ ["open"]).
Proof.
  exact (classes_swap_behaviour
           (Classes.mkElement (Some "off menu off open")) "off" "open"
           eq_refl).
Defined.

(** One name in both arrays. *)
Lemma classes_addRemove_membership_witness :
  let e := Classes.mkElement (Some "menu open") in
  let e' := Classes.addRemove e (Classes.Names ["open"; "menu"])
              (Classes.Names ["open"; "wide"]) in
  (forall c,
      Classes.has e' c
      = (Classes.has e c && negb (array_contains ["open"; "menu"] c))
        || array_contains ["open"; "wide"] c)
  /\ (forall c, In c ["open"; "wide"] -> Classes.has e' c = true).
Proof.
  apply (classes_addRemove_membership
           (Classes.mkElement (Some "menu open")) ["open"; "menu"]
           ["open"; "wide"]).
  repeat constructor.
Defined.

(** The same name removed and added, on an element that has it twice. *)
Lemma classes_addRemove_strings_witness :
  let e := Classes.mkElement (Some "open menu open") in
  let e' := Classes.addRemove e (Classes.OneName "open")
              (Classes.OneName "open") in
  Classes.has e' "open" = true
  /\ ("open" <> "open" -> NoDup (Classes.get e) ->
      Classes.has e' "open" = false)
  /\ Classes.get e'
     = (let classes := Classes.array_remove (Classes.get e) "open" in
        if array_contains classes "open" then classes
        else classes ++ ["open"]).
Proof.
  exact (classes_addRemove_strings
           (Classes.mkElement (Some "open menu open")) "open" "open" eq_refl).
Defined.

(** Switching a class off. *)
Lemma classes_enable_sets_membership_witness :
  let e := Classes.mkElement (Some "menu open") in
  Classes.has (Classes.enable e "open" false) "open" = false
  /\ (forall c, c <> "open" ->
      Classes.has (Classes.enable e "open" false) c = Classes.has e c).
Proof.
  exact (classes_enable_sets_membership
           (Classes.mkElement (Some "menu open")) "open" false eq_refl).
Defined.

(** Toggling a class the element has. *)
Lemma classes_toggle_flips_membership_witness :
  let e := Classes.mkElement (Some "menu open") in
  let r := Classes.toggle e "open" in
  snd r = negb (Classes.has e "open")
  /\ Classes.has (fst r) "open" = snd r
  /\ (forall c,
      Classes.has (fst (Classes.toggle (fst r) "open")) c = Classes.has e c).
Proof.
  exact (classes_toggle_flips_membership
           (Classes.mkElement (Some "menu open")) "open" eq_refl).
Defined.

(** A name with a space in it. *)
Lemma classes_malformed_name_is_never_found_witness :
  let e := Classes.mkElement (Some "menu") in
  Classes.isClassName "menu open" = false
  /\ Classes.has e "menu open" = false
  /\ snd (Classes.add e ["menu open"]) = true
  /\ Classes.has (fst (Classes.add e ["menu open"])) "menu open" = false.
Proof.
  cbv zeta. split; [reflexivity|].
  exact (classes_malformed_name_is_never_found
           (Classes.mkElement (Some "menu")) "menu open" eq_refl).
Defined.
